(** * circu-metal-flow: the LCA dashboard's computations

    A shallow embedding of the dashboard's pure functions
    ([calculateKPIs], [generateFlowData], [getImpactPreview]) and of its two
    small pieces of UI state (the validation errors of the input form and
    the report panel), followed by the properties the specification states
    about them.

    The TypeScript sources compute on [number].  The embedding keeps the
    programs generic in the number type and runs them at two instances:

    - [float64], IEEE-754 binary64 with round-to-nearest-even, the [number]
      of the JavaScript engine.  What is stated about the values the
      programs return, about their sums and about their rounding is stated
      and proved at this instance (or for every number type);
    - [Q], exact rational arithmetic, the arithmetic in which the
      specification writes its formulas.  It serves to say what a formula
      gives when it is read exactly, and to prove orderings and comparisons,
      which do not depend on the last bit of a value.  The two instances
      part where a value sits on a rounding tie: for aluminum, primary,
      coal, 0 km, landfill and 3900 kg the formula gives 69.615 and the
      doubles give 69.61. *)

From Stdlib Require Import ZArith QArith Qround Qabs Qpower Lia Lqa.
From Stdlib Require Import Floats.SpecFloat.
From stdpp Require Import gmap strings list.

Open Scope string_scope.

(** ** Numbers *)

Declare Scope num_scope.
Delimit Scope num_scope with num.

(** The operations the sources use on [number]: decimal literals,
    [+], [*], [/], [Math.round], [<=], [<] and [>]. *)
Class Number (num : Type) := {
  (** [dec m k] is the literal with digits [m] and [k] digits after the
      point: [dec 119 1] is [11.9], [dec 1000 0] is [1000]. *)
  dec : Z -> nat -> num;
  num_add : num -> num -> num;
  num_mul : num -> num -> num;
  num_div : num -> num -> num;
  Math_round : num -> num;
  num_leb : num -> num -> bool;
  num_ltb : num -> num -> bool;
}.

Infix "+" := num_add : num_scope.
Infix "*" := num_mul : num_scope.
Infix "/" := num_div : num_scope.
Infix "<=?" := num_leb : num_scope.
Infix "<?" := num_ltb : num_scope.
Notation "x >? y" := (num_ltb y x) (only parsing) : num_scope.

(** *** Exact rationals *)

Definition Q_dec (m : Z) (k : nat) : Q := m # Z.to_pos (10 ^ Z.of_nat k).

(** [Math.round]: the nearest integer, ties towards plus infinity.  The
    sources divide by the literals 1000 and 100 only, so the value [Qdiv]
    gives to a division by zero is never used. *)
Definition Q_round (x : Q) : Q := inject_Z (Qfloor (x + (1 # 2))).

#[global] Instance Q_Number : Number Q := {|
  dec := Q_dec;
  num_add := Qplus;
  num_mul := Qmult;
  num_div := Qdiv;
  Math_round := Q_round;
  num_leb := Qle_bool;
  num_ltb := fun x y => negb (Qle_bool y x);
|}.

(** *** IEEE-754 binary64 *)

Definition float64 : Type := spec_float.

Module F64.
Definition prec : Z := 53.
Definition emax : Z := 1024.

Definition of_Z (z : Z) : float64 := binary_normalize prec emax z 0 false.

(** A decimal literal denotes the double nearest to it.  Digits and power
    of ten are both exactly representable for the literals of the
    sources, so the correctly rounded quotient is that double. *)
Definition lit (m : Z) (k : nat) : float64 :=
  SFdiv prec emax (of_Z m) (of_Z (10 ^ Z.of_nat k)).

(** [Math.round] (ECMA-262): NaN, infinities, zeros and integral values
    are returned as they are; otherwise the result is
    [floor (x + 1/2)], computed exactly, and a zero result keeps the sign
    of [x]. *)
Definition round (x : float64) : float64 :=
  match x with
  | S754_finite s m e =>
      if (0 <=? e)%Z then x
      else
        let n := ((2 * cond_Zopp s (Zpos m) + 2 ^ (- e)) / 2 ^ (1 - e))%Z in
        binary_normalize prec emax n 0 s
  | _ => x
  end.
End F64.

#[global] Instance float64_Number : Number float64 := {|
  dec := F64.lit;
  num_add := SFadd F64.prec F64.emax;
  num_mul := SFmul F64.prec F64.emax;
  num_div := SFdiv F64.prec F64.emax;
  Math_round := F64.round;
  num_leb := SFleb;
  num_ltb := SFltb;
|}.

(** *** The value of a double

    The rational number a finite double stands for: its signed mantissa
    times a power of two. *)
Definition float64_value (x : float64) : option Q :=
  match x with
  | S754_zero _ => Some 0%Q
  | S754_finite s m e =>
      Some (if (0 <=? e)%Z
            then inject_Z (cond_Zopp s (Zpos m) * 2 ^ e)
            else cond_Zopp s (Zpos m) # Z.to_pos (2 ^ (- e)))
  | _ => None
  end.

Definition has_value (x : float64) (q : Q) : Prop :=
  match float64_value x with
  | Some v => (v == q)%Q
  | None => False
  end.

(** The mantissa fits the 53 bits of the format. *)
Definition bounded_mantissa (x : float64) : Prop :=
  match x with
  | S754_finite _ m _ => (Zpos m < 2 ^ F64.prec)%Z
  | _ => True
  end.

(** The same double, bit for bit (0 and -0 are two doubles). *)
Definition float64_eqb (x y : float64) : bool :=
  match x, y with
  | S754_zero s, S754_zero s' => Bool.eqb s s'
  | S754_infinity s, S754_infinity s' => Bool.eqb s s'
  | S754_nan, S754_nan => true
  | S754_finite s m e, S754_finite s' m' e' =>
      Bool.eqb s s' && Pos.eqb m m' && Z.eqb e e'
  | _, _ => false
  end.

(** *** Rounding

    Where a number [x] lies between the integer [m] and the next one, as
    the [location] tells that the operations keep beside a mantissa: on
    [m], below the middle, in the middle or above it. *)
Definition inbetween (m : Z) (l : location) (x : Q) : Prop :=
  match l with
  | loc_Exact => (x == inject_Z m)%Q
  | loc_Inexact Lt => (inject_Z m < x < inject_Z m + (1 # 2))%Q
  | loc_Inexact Eq => (x == inject_Z m + (1 # 2))%Q
  | loc_Inexact Gt => (inject_Z m + (1 # 2) < x < inject_Z m + 1)%Q
  end.

(** The unit roundoff of binary64, 2^-53: the relative error of one
    operation is at most this. *)
Definition u64 : Q := 1 # 9007199254740992.

(** ** Data model (LCADashboard.tsx) *)

Inductive Metal := aluminum | copper.
Inductive MaterialSource := primary | recycled.
Inductive EnergySource := coal | grid | renewables.
Inductive TransportMode := truck | rail | ship.
Inductive EndOfLife := landfill | recycling.
Inductive ScenarioType := conventional | circular.

Record LCAInputs (num : Type) := {
  metal : Metal;
  materialSource : MaterialSource;
  energySource : EnergySource;
  transportMode : TransportMode;
  transportDistance : num;
  endOfLife : EndOfLife;
  quantity : num;
}.
Arguments metal {num} _.
Arguments materialSource {num} _.
Arguments energySource {num} _.
Arguments transportMode {num} _.
Arguments transportDistance {num} _.
Arguments endOfLife {num} _.
Arguments quantity {num} _.

Record LCAScenario (num : Type) := {
  name : string;
  type : ScenarioType;
  inputs : LCAInputs num;
}.
Arguments name {num} _.
Arguments type {num} _.
Arguments inputs {num} _.

(** ** KPI calculation (KPIDashboard.tsx) *)

Record KPIData (num : Type) := {
  co2Footprint : num;
  energyUse : num;
  recycledContent : num;
  waterUse : num;
  circularityIndex : num;
  costSavings : num;
}.
Arguments co2Footprint {num} _.
Arguments energyUse {num} _.
Arguments recycledContent {num} _.
Arguments waterUse {num} _.
Arguments circularityIndex {num} _.
Arguments costSavings {num} _.

Record BaseValues (num : Type) := { co2 : num; energy : num; water : num }.
Arguments co2 {num} _.
Arguments energy {num} _.
Arguments water {num} _.

Section KPI.
Context {num : Type} `{Number num}.
Local Open Scope num_scope.

Definition baseValues (m : Metal) : BaseValues num :=
  match m with
  | aluminum => {| co2 := dec 119 1; energy := dec 170 0; water := dec 1550 0 |}
  | copper => {| co2 := dec 42 1; energy := dec 65 0; water := dec 440 0 |}
  end.

Definition energyFactors (e : EnergySource) : num :=
  match e with
  | coal => dec 15 1
  | grid => dec 10 1
  | renewables => dec 1 1
  end.

(** The three multipliers after the "material source impact" block. *)
Definition materialMultipliers (s : MaterialSource) : num * num * num :=
  let co2Multiplier := dec 1 0 in
  let energyMultiplier := dec 1 0 in
  let waterMultiplier := dec 1 0 in
  match s with
  | recycled =>
      (co2Multiplier * dec 15 2, energyMultiplier * dec 5 2,
       waterMultiplier * dec 3 1)
  | primary => (co2Multiplier, energyMultiplier, waterMultiplier)
  end.

Definition calculateKPIs (scenario : LCAScenario num) : KPIData num :=
  let inputs := inputs scenario in
  let base := baseValues (metal inputs) in
  let '(co2Multiplier, energyMultiplier, waterMultiplier) :=
    materialMultipliers (materialSource inputs) in
  let co2Multiplier := co2Multiplier * energyFactors (energySource inputs) in
  let transportEmissions := transportDistance inputs * dec 1 4 in
  let endOfLifeBonus :=
    match endOfLife inputs with
    | recycling => dec 8 1
    | landfill => dec 10 1
    end in
  let co2Footprint :=
    (co2 base * co2Multiplier + transportEmissions) * endOfLifeBonus
    * quantity inputs / dec 1000 0 in
  let energyUse := energy base * energyMultiplier * quantity inputs / dec 1000 0 in
  let waterUse := water base * waterMultiplier * quantity inputs / dec 1000 0 in
  let recycledContent :=
    match materialSource inputs with
    | recycled => dec 85 0
    | primary => dec 0 0
    end in
  let circularityIndex :=
    match type scenario with
    | circular => dec 75 0
    | conventional => dec 25 0
    end in
  let costSavings :=
    match materialSource inputs with
    | recycled => dec 1250 0
    | primary => dec 0 0
    end in
  {| co2Footprint := Math_round (co2Footprint * dec 100 0) / dec 100 0;
     energyUse := Math_round (energyUse * dec 100 0) / dec 100 0;
     recycledContent := recycledContent;
     waterUse := Math_round (waterUse * dec 100 0) / dec 100 0;
     circularityIndex := circularityIndex;
     costSavings := costSavings |}.
End KPI.

(** ** Flow generation (SankeyVisualization.tsx) *)

Inductive Icon := Factory | Recycle | Zap | Truck.

Module Flow.
(** The [type] tag of a flow. *)
Inductive type := primary | recycled | energy | transport | waste | circular.
End Flow.

Record FlowData (num : Type) := {
  from : string;
  to : string;
  value : num;
  flow_type : Flow.type;
  icon : option Icon;
}.
Arguments from {num} _.
Arguments to {num} _.
Arguments value {num} _.
Arguments flow_type {num} _.
Arguments icon {num} _.

(** The text an energy source takes inside a template string. *)
Definition EnergySource_to_string (e : EnergySource) : string :=
  match e with
  | coal => "coal"
  | grid => "grid"
  | renewables => "renewables"
  end.

Section Flows.
Context {num : Type} `{Number num}.
Local Open Scope num_scope.

(** [flows.push(x)] appends at the end. *)
Definition push (flows : list (FlowData num)) (x : FlowData num) :=
  (flows ++ [x])%list.

Definition generateFlowData (scenario : LCAScenario num) : list (FlowData num) :=
  let inputs := inputs scenario in
  let baseQuantity := quantity inputs / dec 1000 0 in
  let flows : list (FlowData num) := [] in
  (* Material input flows *)
  let flows :=
    match materialSource inputs with
    | primary =>
        push flows {| from := "Raw Materials"; to := "Production";
                      value := baseQuantity;
                      flow_type := Flow.primary; icon := Some Factory |}
    | recycled =>
        let flows :=
          push flows {| from := "Recycled Materials"; to := "Production";
                        value := baseQuantity * dec 85 2;
                        flow_type := Flow.recycled; icon := Some Recycle |} in
        push flows {| from := "Raw Materials"; to := "Production";
                      value := baseQuantity * dec 15 2;
                      flow_type := Flow.primary; icon := Some Factory |}
    end in
  (* Energy flows *)
  let energyAmount :=
    match metal inputs with
    | aluminum => baseQuantity * dec 15 0
    | copper => baseQuantity * dec 6 0
    end in
  let flows :=
    push flows {| from := String.append (EnergySource_to_string (energySource inputs)) " Energy";
                  to := "Production"; value := energyAmount;
                  flow_type := Flow.energy; icon := Some Zap |} in
  (* Transport flows *)
  let flows :=
    push flows {| from := "Production"; to := "Distribution";
                  value := baseQuantity;
                  flow_type := Flow.transport; icon := Some Truck |} in
  (* End-of-life flows *)
  let flows :=
    push flows {| from := "Distribution"; to := "Use Phase";
                  value := baseQuantity;
                  flow_type := Flow.primary; icon := None |} in
  match endOfLife inputs with
  | recycling =>
      let flows :=
        push flows {| from := "Use Phase"; to := "Recycling";
                      value := baseQuantity * dec 9 1;
                      flow_type := Flow.circular; icon := Some Recycle |} in
      let flows :=
        push flows {| from := "Use Phase"; to := "Waste";
                      value := baseQuantity * dec 1 1;
                      flow_type := Flow.waste; icon := None |} in
      push flows {| from := "Recycling"; to := "Recycled Materials";
                    value := baseQuantity * dec 85 2;
                    flow_type := Flow.circular; icon := Some Recycle |}
  | landfill =>
      push flows {| from := "Use Phase"; to := "Waste";
                    value := baseQuantity;
                    flow_type := Flow.waste; icon := None |}
  end.

(** [flows.filter(f => f.from === a && f.to === b)], as the stage
    grouping of the component selects edges by their end points. *)
Definition edges (a b : string) (flows : list (FlowData num)) : list (FlowData num) :=
  List.filter (fun f => String.eqb (from f) a && String.eqb (to f) b) flows.
End Flows.

(** ** Calls out of the components

    The components call back into their environment ([onRunLCA], [toast],
    [fetch], [setTimeout], [console.log]); the calls are recorded in order. *)

Inductive Call :=
| call_onRunLCA
| call_toast (title description : string) (destructive : bool)
| call_fetch (url : string)
| call_setTimeout (ms : Z)
| call_console_log (message : string).

(** ** Input form (UserInputModule.tsx) *)

(** The component: its [inputs] prop, its [errors] state and the calls it
    has made so far. *)
Record FormState (num : Type) := {
  form_inputs : LCAInputs num;
  errors : gmap string string;
  calls : list Call;
}.
Arguments form_inputs {num} _.
Arguments errors {num} _.
Arguments calls {num} _.

(** A call [updateInput(key, value)]: the key with a value of its type. *)
Inductive FieldUpdate (num : Type) :=
| set_metal (v : Metal)
| set_materialSource (v : MaterialSource)
| set_energySource (v : EnergySource)
| set_transportMode (v : TransportMode)
| set_transportDistance (v : num)
| set_endOfLife (v : EndOfLife)
| set_quantity (v : num).
Arguments set_metal {num} _.
Arguments set_materialSource {num} _.
Arguments set_energySource {num} _.
Arguments set_transportMode {num} _.
Arguments set_transportDistance {num} _.
Arguments set_endOfLife {num} _.
Arguments set_quantity {num} _.

Definition key_of {num} (u : FieldUpdate num) : string :=
  match u with
  | set_metal _ => "metal"
  | set_materialSource _ => "materialSource"
  | set_energySource _ => "energySource"
  | set_transportMode _ => "transportMode"
  | set_transportDistance _ => "transportDistance"
  | set_endOfLife _ => "endOfLife"
  | set_quantity _ => "quantity"
  end.

(** [{ ...inputs, [key]: value }] *)
Definition assign {num} (i : LCAInputs num) (u : FieldUpdate num) : LCAInputs num :=
  match u with
  | set_metal v =>
      {| metal := v; materialSource := materialSource i; energySource := energySource i;
         transportMode := transportMode i; transportDistance := transportDistance i;
         endOfLife := endOfLife i; quantity := quantity i |}
  | set_materialSource v =>
      {| metal := metal i; materialSource := v; energySource := energySource i;
         transportMode := transportMode i; transportDistance := transportDistance i;
         endOfLife := endOfLife i; quantity := quantity i |}
  | set_energySource v =>
      {| metal := metal i; materialSource := materialSource i; energySource := v;
         transportMode := transportMode i; transportDistance := transportDistance i;
         endOfLife := endOfLife i; quantity := quantity i |}
  | set_transportMode v =>
      {| metal := metal i; materialSource := materialSource i; energySource := energySource i;
         transportMode := v; transportDistance := transportDistance i;
         endOfLife := endOfLife i; quantity := quantity i |}
  | set_transportDistance v =>
      {| metal := metal i; materialSource := materialSource i; energySource := energySource i;
         transportMode := transportMode i; transportDistance := v;
         endOfLife := endOfLife i; quantity := quantity i |}
  | set_endOfLife v =>
      {| metal := metal i; materialSource := materialSource i; energySource := energySource i;
         transportMode := transportMode i; transportDistance := transportDistance i;
         endOfLife := v; quantity := quantity i |}
  | set_quantity v =>
      {| metal := metal i; materialSource := materialSource i; energySource := energySource i;
         transportMode := transportMode i; transportDistance := transportDistance i;
         endOfLife := endOfLife i; quantity := v |}
  end.

(** JavaScript truthiness of [errors[key]]: present and not the empty string. *)
Definition truthy (v : option string) : bool :=
  match v with
  | Some s => negb (String.eqb s "")
  | None => false
  end.

(** What [{errors.key && <span>{errors.key}</span>}] renders next to a field. *)
Definition inlineMessage (errs : gmap string string) (key : string) : option string :=
  if truthy (errs !! key) then errs !! key else None.

Section Form.
Context {num : Type} `{Number num}.
Local Open Scope num_scope.

(** Returns the new [errors] state ([setErrors(newErrors)]) and the result. *)
Definition validateInputs (inputs : LCAInputs num) : gmap string string * bool :=
  let newErrors : gmap string string := ∅ in
  let newErrors :=
    if quantity inputs <=? dec 0 0
    then <["quantity" := "Quantity must be greater than 0"]> newErrors
    else newErrors in
  let newErrors :=
    if transportDistance inputs <? dec 0 0
    then <["transportDistance" := "Distance cannot be negative"]> newErrors
    else newErrors in
  let newErrors :=
    if transportDistance inputs >? dec 10000 0
    then <["transportDistance" := "Distance seems unrealistic (>10,000 km)"]> newErrors
    else newErrors in
  (newErrors, bool_decide (size newErrors = 0%nat)).

Definition handleSubmit (st : FormState num) : FormState num :=
  let '(newErrors, valid) := validateInputs (form_inputs st) in
  if valid then
    {| form_inputs := form_inputs st; errors := newErrors;
       calls := (calls st ++
         [call_onRunLCA;
          call_toast "LCA Analysis Started"
            "Running life cycle assessment with current parameters..." false])%list |}
  else
    {| form_inputs := form_inputs st; errors := newErrors;
       calls := (calls st ++
         [call_toast "Validation Error"
            "Please fix the input errors before running the analysis." true])%list |}.

(** [onChange] replaces the [inputs] prop; the error of the edited key, if
    one is shown, is overwritten with the empty string. *)
Definition updateInput (u : FieldUpdate num) (st : FormState num) : FormState num :=
  {| form_inputs := assign (form_inputs st) u;
     errors :=
       if truthy (errors st !! key_of u)
       then <[key_of u := ""]> (errors st)
       else errors st;
     calls := calls st |}.
End Form.

(** ** Scenario selector (ScenarioSelector.tsx) *)

Module ScenarioSelector.
Record ImpactPreview (num : Type) := {
  recycledContent : num;
  co2Reduction : num;
  energySavings : num;
}.
Arguments recycledContent {num} _.
Arguments co2Reduction {num} _.
Arguments energySavings {num} _.

Section Preview.
Context {num : Type} `{Number num}.

Definition getImpactPreview (scenario : LCAScenario num) : ImpactPreview num :=
  let isCircular :=
    match type scenario with
    | circular => true
    | conventional => false
    end in
  let recycledContent :=
    match materialSource (inputs scenario) with
    | recycled => dec 85 0
    | primary => dec 0 0
    end in
  let co2Reduction := if isCircular then dec 65 0 else dec 0 0 in
  {| recycledContent := recycledContent;
     co2Reduction := co2Reduction;
     energySavings := if isCircular then dec 45 0 else dec 0 0 |}.
End Preview.
End ScenarioSelector.

(** ** Report panel (ReportGenerator.tsx) *)

Module ReportGenerator.
(** Where a call of the asynchronous [handleGenerateReport] is suspended. *)
Inductive Pending :=
| NotRunning
| AwaitFetch            (* await fetch(...) inside try *)
| AwaitDelayTry         (* await new Promise(... 3000) inside try *)
| AwaitDelayCatch.      (* await new Promise(... 3000) inside catch *)

Record State := {
  isGenerating : bool;
  reportGenerated : bool;
  pending : Pending;
  calls : list Call;
}.

Definition initial : State :=
  {| isGenerating := false; reportGenerated := false;
     pending := NotRunning; calls := [] |}.

Inductive Event :=
| ClickGenerate         (* the "Generate LCA Report" button *)
| FetchResolved         (* the fetch promise fulfils, whatever the response *)
| FetchRejected         (* the fetch promise rejects: network failure *)
| TimerFired            (* the 3000 ms timer *)
| ClickGenerateNew.     (* the "Generate New Report" button *)

Definition success_toast : Call :=
  call_toast "Report Generated Successfully"
    "Your LCA report is ready for download." false.

(** One event; [None] when the event cannot happen in the state: the
    button is not rendered or is disabled, or no promise of that kind is
    outstanding. *)
Definition step (st : State) (ev : Event) : option State :=
  match ev with
  | ClickGenerate =>
      if reportGenerated st || isGenerating st then None
      else Some {| isGenerating := true; reportGenerated := reportGenerated st;
                   pending := AwaitFetch;
                   calls := (calls st ++ [call_fetch "/api/generate_report"])%list |}
  | FetchResolved =>
      match pending st with
      | AwaitFetch =>
          Some {| isGenerating := isGenerating st; reportGenerated := reportGenerated st;
                  pending := AwaitDelayTry;
                  calls := (calls st ++ [call_setTimeout 3000])%list |}
      | _ => None
      end
  | FetchRejected =>
      match pending st with
      | AwaitFetch =>
          Some {| isGenerating := isGenerating st; reportGenerated := reportGenerated st;
                  pending := AwaitDelayCatch;
                  calls := (calls st ++
                    [call_console_log "Using mock report generation for demo";
                     call_setTimeout 3000])%list |}
      | _ => None
      end
  | TimerFired =>
      match pending st with
      | AwaitDelayTry | AwaitDelayCatch =>
          (* setReportGenerated(true); toast(...); finally setIsGenerating(false) *)
          Some {| isGenerating := false; reportGenerated := true;
                  pending := NotRunning;
                  calls := (calls st ++ [success_toast])%list |}
      | _ => None
      end
  | ClickGenerateNew =>
      if reportGenerated st
      then Some {| isGenerating := isGenerating st; reportGenerated := false;
                   pending := pending st; calls := calls st |}
      else None
  end.

Fixpoint run (st : State) (evs : list Event) : option State :=
  match evs with
  | [] => Some st
  | ev :: evs' =>
      match step st ev with
      | Some st' => run st' evs'
      | None => None
      end
  end.

(** States the panel can be in after some sequence of events. *)
Inductive reachable : State -> Prop :=
| reachable_initial : reachable initial
| reachable_step st ev st' :
    reachable st -> step st ev = Some st' -> reachable st'.

(** What the card renders. *)
Inductive Panel := Idle | Generating | Generated.

Definition render (st : State) : Panel :=
  if reportGenerated st then Generated
  else if isGenerating st then Generating
  else Idle.

(** A call is suspended exactly while the busy flag is set, and then no
    report is shown. *)
Definition consistent (st : State) : Prop :=
  match pending st with
  | NotRunning => isGenerating st = false
  | _ => isGenerating st = true /\ reportGenerated st = false
  end.

(** No notification is an error notification. *)
Definition no_error_call (c : Call) : bool :=
  match c with
  | call_toast _ _ destructive => negb destructive
  | _ => true
  end.
End ReportGenerator.

(** ** The dashboard's seeded data (LCADashboard.tsx) *)

Section Seed.
Context {num : Type} `{Number num}.

Definition defaultInputs : LCAInputs num :=
  {| metal := aluminum; materialSource := primary; energySource := grid;
     transportMode := truck; transportDistance := dec 500 0;
     endOfLife := recycling; quantity := dec 1000 0 |}.

Definition conventionalScenario : LCAScenario num :=
  {| name := "Conventional (Linear)"; type := conventional;
     inputs := assign (assign defaultInputs (set_materialSource primary))
                      (set_endOfLife landfill) |}.

Definition circularScenario : LCAScenario num :=
  {| name := "Circular Economy"; type := circular;
     inputs := assign (assign defaultInputs (set_materialSource recycled))
                      (set_endOfLife recycling) |}.

(** A scenario with other inputs. *)
Definition with_inputs (s : LCAScenario num) (i : LCAInputs num) : LCAScenario num :=
  {| name := name s; type := type s; inputs := i |}.
End Seed.

(** ** The formulas as the specification words them

    The tables and the formulas of the specification's section on the KPI
    calculator, written from its words, for the calculator to be compared
    with them. *)

Section Spec.
Context {num : Type} `{Number num}.
Local Open Scope num_scope.

Definition spec_base_co2 (m : Metal) : num :=
  match m with
  | aluminum => dec 119 1
  | copper => dec 42 1
  end.

Definition spec_base_energy (m : Metal) : num :=
  match m with
  | aluminum => dec 170 0
  | copper => dec 65 0
  end.

Definition spec_base_water (m : Metal) : num :=
  match m with
  | aluminum => dec 1550 0
  | copper => dec 440 0
  end.

(** recycled: co2 x 0.15, energy x 0.05, water x 0.30 (x 1 for primary);
    the energy source multiplies co2 only: coal x 1.5, grid x 1.0,
    renewables x 0.1 *)
Definition spec_co2Multiplier (s : MaterialSource) (e : EnergySource) : num :=
  match s with recycled => dec 15 2 | primary => dec 1 0 end
  * match e with coal => dec 15 1 | grid => dec 10 1 | renewables => dec 1 1 end.

Definition spec_energyMultiplier (s : MaterialSource) : num :=
  match s with recycled => dec 5 2 | primary => dec 1 0 end.

Definition spec_waterMultiplier (s : MaterialSource) : num :=
  match s with recycled => dec 30 2 | primary => dec 1 0 end.

Definition spec_endOfLifeFactor (l : EndOfLife) : num :=
  match l with
  | recycling => dec 8 1
  | landfill => dec 10 1
  end.

(** What multiplies quantity / 1000 in the three formulas.  None of the
    three reads the quantity. *)
Definition spec_co2_coefficient (i : LCAInputs num) : num :=
  (spec_base_co2 (metal i)
     * spec_co2Multiplier (materialSource i) (energySource i)
   + transportDistance i * dec 1 4)
  * spec_endOfLifeFactor (endOfLife i).

Definition spec_energy_coefficient (i : LCAInputs num) : num :=
  spec_base_energy (metal i) * spec_energyMultiplier (materialSource i).

Definition spec_water_coefficient (i : LCAInputs num) : num :=
  spec_base_water (metal i) * spec_waterMultiplier (materialSource i).

(** (base.co2 x co2Multiplier + transportTerm) x endOfLifeFactor
    x quantityKg / 1000, before the rounding *)
Definition spec_co2_formula (i : LCAInputs num) : num :=
  spec_co2_coefficient i * quantity i / dec 1000 0.
End Spec.

(** "Rounded to 2 decimals", for doubles: [r] is [n / 100], where [n] is
    the integer nearest to the double [v * 100], a tie going upwards (for
    the value [y] of that double, [y - 1/2 < n <= y + 1/2]).  A NaN or
    an infinity is passed on as it is. *)
Definition rounded_to_2_decimals (v r : float64) : Prop :=
  exists n : float64,
    r = (n / dec 100 0)%num /\
    match float64_value (v * dec 100 0)%num with
    | Some y =>
        exists N : Z,
          has_value n (inject_Z N) /\
          (y - (1 # 2) < inject_Z N <= y + (1 # 2))%Q
    | None => n = (v * dec 100 0)%num
    end.

(** *** The co2 formula read in exact arithmetic *)

(** A configuration with the numbers its doubles stand for. *)
Definition exact_inputs (i : LCAInputs float64) : option (LCAInputs Q) :=
  match float64_value (transportDistance i), float64_value (quantity i) with
  | Some d, Some q =>
      Some {| metal := metal i; materialSource := materialSource i;
              energySource := energySource i; transportMode := transportMode i;
              transportDistance := d; endOfLife := endOfLife i; quantity := q |}
  | _, _ => None
  end.

(** The number of hundredths in [x] rounded to 2 decimals, a tie going
    upwards. *)
Definition hundredths (x : Q) : Z := Qfloor (x * 100 + (1 # 2)).

(** "The KPI calculator returns the formula's value, rounded to 2 decimal
    places", for one configuration and with the formula evaluated exactly:
    the double returned is the one written with these two decimals. *)
Definition co2Footprint_as_claimed (s : LCAScenario float64) : Prop :=
  match exact_inputs (inputs s) with
  | Some i =>
      co2Footprint (calculateKPIs s) = dec (hundredths (spec_co2_formula i)) 2
  | None => True
  end.

(** *** Coefficients in doubles and exactly *)

(** A configuration with a distance given in whole kilometres; its
    quantity plays no part in the coefficients. *)
Definition configuration (m : Metal) (ms : MaterialSource) (es : EnergySource)
    (l : EndOfLife) (d : Z) : LCAInputs float64 :=
  {| metal := m; materialSource := ms; energySource := es;
     transportMode := truck; transportDistance := dec d 0; endOfLife := l;
     quantity := dec 1 0 |}.

(** The double [c] is between 0.01 and 2000 and within 10^-14 of [Ce]. *)
Definition close (c : float64) (Ce : Q) : bool :=
  match float64_value c with
  | Some C =>
      Qle_bool (1 # 100) C && Qle_bool C 2000
      && Qle_bool (Qabs (C - Ce)) (1 # 100000000000000)
  | None => false
  end.

Definition co2_coefficient_close (i : LCAInputs float64) : bool :=
  match exact_inputs i with
  | Some ie => close (spec_co2_coefficient i) (spec_co2_coefficient ie)
  | None => false
  end.

(** A configuration the sliders offer on which the formula's value,
    69.615, is a rounding tie. *)
Definition coal_3900kg : LCAScenario float64 :=
  {| name := "Coal, 3900 kg"; type := conventional;
     inputs := {| metal := aluminum; materialSource := primary;
                  energySource := coal; transportMode := truck;
                  transportDistance := dec 0 0; endOfLife := landfill;
                  quantity := dec 3900 0 |} |}.

(** ** Values before the rounding

    The values of the locals [co2Footprint], [energyUse] and [waterUse] of
    [calculateKPIs], and what the returned record makes of them. *)

Section Raw.
Context {num : Type} `{Number num}.
Local Open Scope num_scope.

(** [Math.round(x * 100) / 100], as [calculateKPIs] writes it for each of
    the three fields. *)
Definition round2 (x : num) : num := Math_round (x * dec 100 0) / dec 100 0.

Definition co2Footprint_raw (i : LCAInputs num) : num :=
  (co2 (baseValues (metal i))
     * (fst (fst (materialMultipliers (materialSource i)))
        * energyFactors (energySource i))
   + transportDistance i * dec 1 4)
  * match endOfLife i with recycling => dec 8 1 | landfill => dec 10 1 end
  * quantity i / dec 1000 0.

Definition energyUse_raw (i : LCAInputs num) : num :=
  energy (baseValues (metal i))
  * snd (fst (materialMultipliers (materialSource i)))
  * quantity i / dec 1000 0.

Definition waterUse_raw (i : LCAInputs num) : num :=
  water (baseValues (metal i))
  * snd (materialMultipliers (materialSource i))
  * quantity i / dec 1000 0.
End Raw.

(** ** Statements about the quantity and the flows *)

(** The inputs with their quantity multiplied by [k]. *)
Definition scale_quantity {num : Type} `{Number num} (k : num) (i : LCAInputs num)
  : LCAInputs num :=
  assign i (set_quantity (k * quantity i)%num).

(** "Multiplying the quantity by [k] multiplies co2Footprint, energyUse and
    waterUse by [k]", for one configuration and one factor. *)
Definition scales_linearly (s : LCAScenario Q) (k : Q) : Prop :=
  let s' := with_inputs s (scale_quantity k (inputs s)) in
  (co2Footprint (calculateKPIs s') == k * co2Footprint (calculateKPIs s))%Q /\
  (energyUse (calculateKPIs s') == k * energyUse (calculateKPIs s))%Q /\
  (waterUse (calculateKPIs s') == k * waterUse (calculateKPIs s))%Q.

Section FlowSums.
Context {num : Type} `{Number num}.
Local Open Scope num_scope.

(** The edges that carry material into production. *)
Definition materialInputEdges (flows : list (FlowData num)) : list (FlowData num) :=
  List.filter
    (fun f => String.eqb (to f) "Production"
              && (String.eqb (from f) "Raw Materials"
                  || String.eqb (from f) "Recycled Materials"))
    flows.

Definition total (flows : list (FlowData num)) : num :=
  fold_left (fun acc f => acc + value f) flows (dec 0 0).

Definition baseQuantity (s : LCAScenario num) : num :=
  quantity (inputs s) / dec 1000 0.
End FlowSums.

(** "With endOfLife=recycling 0.9 x quantity/1000 goes from Use Phase to
    Recycling, 0.85 x 0.9 x quantity/1000 from Recycling to Recycled
    Materials and 0.1 x quantity/1000 from Use Phase to Waste; with landfill
    all of quantity/1000 goes from Use Phase to Waste", for one
    configuration. *)
Definition end_of_life_flows_as_claimed (s : LCAScenario Q) : Prop :=
  let flows := generateFlowData s in
  let q := quantity (inputs s) in
  match endOfLife (inputs s) with
  | recycling =>
      Forall2 Qeq (map value (edges "Use Phase" "Recycling" flows))
                  [0.9 * q / 1000]%Q /\
      Forall2 Qeq (map value (edges "Recycling" "Recycled Materials" flows))
                  [0.85 * 0.9 * q / 1000]%Q /\
      Forall2 Qeq (map value (edges "Use Phase" "Waste" flows))
                  [0.1 * q / 1000]%Q
  | landfill =>
      Forall2 Qeq (map value (edges "Use Phase" "Waste" flows)) [q / 1000]%Q
  end.

(** The quantities the slider offers: 100 kg to 10000 kg in steps of 100 kg. *)
Definition quantity_slider : list Z :=
  map (fun i => (100 + 100 * Z.of_nat i)%Z) (seq 0 100).

(** The distances the slider offers: 0 km to 5000 km in steps of 50 km. *)
Definition distance_slider : list Z :=
  map (fun i => (50 * Z.of_nat i)%Z) (seq 0 101).

(** "The material input edges sum to quantityKg/1000 tons", for one
    configuration: the sum of the doubles the edges carry, taken in the
    order of the list, is the double quantity / 1000. *)
Definition material_inputs_sum_as_claimed (s : LCAScenario float64) : Prop :=
  total (materialInputEdges (generateFlowData s)) = baseQuantity s.

(** The seeded circular scenario (recycled material) at 1700 kg. *)
Definition recycled_1700kg : LCAScenario float64 :=
  with_inputs circularScenario
    (assign (inputs circularScenario) (set_quantity (dec 1700 0))).

(** ** The checks of the input form *)

Section Checks.
Context {num : Type} `{Number num}.
Local Open Scope num_scope.

(** The three checks of [validateInputs]. *)
Definition quantity_invalid (i : LCAInputs num) : bool :=
  quantity i <=? dec 0 0.
Definition distance_negative (i : LCAInputs num) : bool :=
  transportDistance i <? dec 0 0.
Definition distance_unrealistic (i : LCAInputs num) : bool :=
  transportDistance i >? dec 10000 0.
End Checks.

(** ** KPI cards (KPIDashboard.tsx) *)

Notation "x >=? y" := (num_leb y x) (only parsing) : num_scope.

Section Cards.
Context {num : Type} `{Number num}.
Local Open Scope num_scope.

Definition getImpactColor (value threshold : num) (reverse : bool) : string :=
  let isGood := if reverse then value >=? threshold else value <=? threshold in
  if isGood then "text-circular" else "text-linear".

Definition getProgressColor (value max : num) : string :=
  let percentage := value / max * dec 100 0 in
  if percentage <=? dec 33 0 then "bg-circular"
  else if percentage <=? dec 66 0 then "bg-warning"
  else "bg-linear".

(** The colour classes of the CO2 card and of the recycled-content card, as
    the JSX calls [getImpactColor]. *)
Definition co2Color (kpis : KPIData num) : string :=
  getImpactColor (co2Footprint kpis) (dec 1000 0) false.
Definition recycledContentColor (kpis : KPIData num) : string :=
  getImpactColor (recycledContent kpis) (dec 50 0) true.

(** [kpis.circularityIndex > 50 ? "Circular" : "Linear"] and, in the
    summary, [kpis.circularityIndex > 50 ? "High" : "Low"]. *)
Definition circularityBadge (kpis : KPIData num) : string :=
  if circularityIndex kpis >? dec 50 0 then "Circular" else "Linear".
Definition circularityScore (kpis : KPIData num) : string :=
  if circularityIndex kpis >? dec 50 0 then "High" else "Low".

(** [kpis.costSavings > 0 ? (the savings) : "Baseline"]: the amount shown,
    [None] standing for the text "Baseline". *)
Definition costImpact (kpis : KPIData num) : option num :=
  if costSavings kpis >? dec 0 0 then Some (costSavings kpis) else None.
End Cards.

(** ** Stages, legend and node balances (SankeyVisualization.tsx) *)

Definition Flow_type_eqb (a b : Flow.type) : bool :=
  match a, b with
  | Flow.primary, Flow.primary
  | Flow.recycled, Flow.recycled
  | Flow.energy, Flow.energy
  | Flow.transport, Flow.transport
  | Flow.waste, Flow.waste
  | Flow.circular, Flow.circular => true
  | _, _ => false
  end.

(** The six legend entries, in the order of the source. *)
Definition legendEntries : list (Flow.type * string) :=
  [(Flow.primary, "Virgin Materials");
   (Flow.recycled, "Recycled Materials");
   (Flow.energy, "Energy Input");
   (Flow.transport, "Transport");
   (Flow.circular, "Circular Flow");
   (Flow.waste, "Waste/Landfill")].

Section Stages.
Context {num : Type} `{Number num}.
Local Open Scope num_scope.

(** "Group flows by stage": the five columns of the diagram. *)
Definition stages (flows : list (FlowData num)) : list (string * list (FlowData num)) :=
  [("Inputs", List.filter (fun f => String.eqb (to f) "Production") flows);
   ("Production", List.filter (fun f => String.eqb (from f) "Production") flows);
   ("Distribution", List.filter (fun f => String.eqb (from f) "Distribution") flows);
   ("End of Life", List.filter (fun f => String.eqb (from f) "Use Phase") flows);
   ("Recovery", List.filter (fun f => String.eqb (from f) "Recycling") flows)].

(** The legend: an entry is rendered when some flow has its type, or when
    it is the waste entry. *)
Definition legend (flows : list (FlowData num)) : list string :=
  map snd
    (List.filter
       (fun entry =>
          let hasFlow := existsb (fun f => Flow_type_eqb (flow_type f) (fst entry)) flows in
          negb (negb hasFlow && negb (Flow_type_eqb (fst entry) Flow.waste)))
       legendEntries).

(** Mass entering and leaving a stage: the energy edge counts gigajoules,
    not tons, and is left out. *)
Definition massInto (node : string) (flows : list (FlowData num)) : num :=
  total (List.filter
           (fun f => String.eqb (to f) node
                     && negb (Flow_type_eqb (flow_type f) Flow.energy)) flows).

Definition massOutOf (node : string) (flows : list (FlowData num)) : num :=
  total (List.filter (fun f => String.eqb (from f) node) flows).
End Stages.

(** ** Counting calls *)

Definition is_fetch (c : Call) : bool :=
  match c with call_fetch _ => true | _ => false end.
Definition is_setTimeout (c : Call) : bool :=
  match c with call_setTimeout _ => true | _ => false end.
Definition is_toast (c : Call) : bool :=
  match c with call_toast _ _ _ => true | _ => false end.
Definition is_console_log (c : Call) : bool :=
  match c with call_console_log _ => true | _ => false end.

Definition count_calls (p : Call -> bool) (l : list Call) : nat :=
  length (List.filter p l).

(** ** The dashboard (LCADashboard.tsx)

    The state of [LCADashboard] together with the input form it renders:
    [currentInputs] is the form's [inputs] prop, [handleInputChange] its
    [onChange], [handleRunLCA] its [onRunLCA] and [isRunningLCA] its
    [isLoading]. *)

Module Dashboard.
(** Where a call of the asynchronous [handleRunLCA] is suspended. *)
Inductive Pending :=
| NotRunning
| AwaitFetch          (* await fetch('/api/run_lca', ...) *)
| AwaitDelay.         (* await new Promise(... 2000) *)

Record State (num : Type) := {
  form : FormState num;
  scenarios : list (LCAScenario num);
  selectedScenario : nat;
  isRunningLCA : bool;
  pending : Pending;
  (** the bodies posted to /api/run_lca, oldest first *)
  requests : list (LCAInputs num);
  (** the other calls of [handleRunLCA] *)
  log : list Call;
}.
Arguments form {num} _.
Arguments scenarios {num} _.
Arguments selectedScenario {num} _.
Arguments isRunningLCA {num} _.
Arguments pending {num} _.
Arguments requests {num} _.
Arguments log {num} _.

Inductive Event (num : Type) :=
| Edit (u : FieldUpdate num)     (* a control of the form calls updateInput *)
| SelectScenario (index : nat)   (* a card or tab of the scenario selector *)
| ClickRun                       (* the "Run LCA Analysis" button *)
| FetchResolved
| FetchRejected
| TimerFired.
Arguments Edit {num} _.
Arguments SelectScenario {num} _.
Arguments ClickRun {num}.
Arguments FetchResolved {num}.
Arguments FetchRejected {num}.
Arguments TimerFired {num}.

Definition is_onRunLCA (c : Call) : bool :=
  match c with
  | call_onRunLCA => true
  | _ => false
  end.

Section Handlers.
Context {num : Type} `{Number num}.

Definition currentInputs (st : State num) : LCAInputs num := form_inputs (form st).

Definition initial : State num :=
  {| form := {| form_inputs := defaultInputs; errors := ∅; calls := [] |};
     scenarios := [conventionalScenario; circularScenario];
     selectedScenario := 0;
     isRunningLCA := false;
     pending := NotRunning;
     requests := [];
     log := [] |}.

(** [scenarios[selectedScenario]], what the KPI cards and the diagram get. *)
Definition shownScenario (st : State num) : option (LCAScenario num) :=
  scenarios st !! selectedScenario st.

(** [handleInputChange]: [setCurrentInputs(newInputs)], then the inputs of
    the selected element of a copy of the array are overwritten.  The
    boolean tells whether the assignment threw (no element at the selected
    index); the state update made before it stays.  (The copy shares its
    elements with the previous array; nothing reads that array
    afterwards.) *)
Definition handleInputChange (newInputs : LCAInputs num) (st : State num)
  : State num * bool :=
  let st1 :=
    {| form := {| form_inputs := newInputs; errors := errors (form st);
                  calls := calls (form st) |};
       scenarios := scenarios st; selectedScenario := selectedScenario st;
       isRunningLCA := isRunningLCA st; pending := pending st;
       requests := requests st; log := log st |} in
  match scenarios st !! selectedScenario st with
  | Some _ =>
      ({| form := form st1;
          scenarios :=
            alter (fun sc => with_inputs sc newInputs) (selectedScenario st)
                  (scenarios st);
          selectedScenario := selectedScenario st;
          isRunningLCA := isRunningLCA st; pending := pending st;
          requests := requests st; log := log st |}, false)
  | None => (st1, true)
  end.

(** [updateInput] with [handleInputChange] as its [onChange]: when the
    callback throws, the rest of [updateInput] does not run. *)
Definition edit (u : FieldUpdate num) (st : State num) : State num :=
  let '(st1, threw) := handleInputChange (assign (currentInputs st) u) st in
  if threw then st1
  else
    {| form := updateInput u (form st);
       scenarios := scenarios st1; selectedScenario := selectedScenario st1;
       isRunningLCA := isRunningLCA st1; pending := pending st1;
       requests := requests st1; log := log st1 |}.

(** [handleRunLCA] up to its first await. *)
Definition handleRunLCA (st : State num) : State num :=
  {| form := form st; scenarios := scenarios st;
     selectedScenario := selectedScenario st;
     isRunningLCA := true;
     pending := AwaitFetch;
     requests := (requests st ++ [currentInputs st])%list;
     log := (log st ++ [call_fetch "/api/run_lca"])%list |}.

(** A click on the run button: [handleSubmit], whose call of [onRunLCA],
    if it makes one, is [handleRunLCA]. *)
Definition clickRun (st : State num) : State num :=
  let form' := handleSubmit (form st) in
  let called := existsb is_onRunLCA (skipn (length (calls (form st))) (calls form')) in
  let st1 := if called then handleRunLCA st else st in
  {| form := form'; scenarios := scenarios st1;
     selectedScenario := selectedScenario st1;
     isRunningLCA := isRunningLCA st1; pending := pending st1;
     requests := requests st1; log := log st1 |}.

(** [finally { setIsRunningLCA(false) }] *)
Definition finish (extra : list Call) (st : State num) : State num :=
  {| form := form st; scenarios := scenarios st;
     selectedScenario := selectedScenario st;
     isRunningLCA := false; pending := NotRunning;
     requests := requests st; log := (log st ++ extra)%list |}.

(** One event; [None] when it cannot happen: the run button is disabled
    while [isRunningLCA], the selector offers the indices of the array, and
    a promise settles only while it is awaited. *)
Definition step (st : State num) (ev : Event num) : option (State num) :=
  match ev with
  | Edit u => Some (edit u st)
  | SelectScenario index =>
      if bool_decide (index < length (scenarios st))%nat
      then Some {| form := form st; scenarios := scenarios st;
                   selectedScenario := index;
                   isRunningLCA := isRunningLCA st; pending := pending st;
                   requests := requests st; log := log st |}
      else None
  | ClickRun => if isRunningLCA st then None else Some (clickRun st)
  | FetchResolved =>
      match pending st with
      | AwaitFetch =>
          Some {| form := form st; scenarios := scenarios st;
                  selectedScenario := selectedScenario st;
                  isRunningLCA := isRunningLCA st; pending := AwaitDelay;
                  requests := requests st;
                  log := (log st ++ [call_setTimeout 2000])%list |}
      | _ => None
      end
  | FetchRejected =>
      match pending st with
      | AwaitFetch => Some (finish [call_console_log "Using mock data for demo"] st)
      | _ => None
      end
  | TimerFired =>
      match pending st with
      | AwaitDelay => Some (finish [] st)
      | _ => None
      end
  end.

Inductive reachable : State num -> Prop :=
| reachable_initial : reachable initial
| reachable_step st ev st' :
    reachable st -> step st ev = Some st' -> reachable st'.

(** The three checks of [validateInputs] all pass. *)
Definition valid (i : LCAInputs num) : bool :=
  negb (quantity_invalid i || distance_negative i || distance_unrealistic i).

(** What every reachable state satisfies (see [reachable_invariant]). *)
Definition invariant (st : State num) : Prop :=
  map name (scenarios st) = ["Conventional (Linear)"; "Circular Economy"] /\
  map type (scenarios st) = [conventional; circular] /\
  (selectedScenario st < 2)%nat /\
  (pending st = NotRunning <-> isRunningLCA st = false) /\
  forallb valid (requests st) = true /\
  length (requests st) = count_calls is_onRunLCA (calls (form st)) /\
  (forall k, is_Some (errors (form st) !! k) ->
             k = "quantity" \/ k = "transportDistance").

(** The events of a list in turn; [None] when one of them cannot happen. *)
Fixpoint run (st : State num) (evs : list (Event num)) : option (State num) :=
  match evs with
  | [] => Some st
  | ev :: evs =>
      match step st ev with
      | Some st' => run st' evs
      | None => None
      end
  end.
End Handlers.
End Dashboard.

(** * Properties *)

(** Literals are evaluated, and divisions by literals become
    multiplications by their inverses, which linear arithmetic understands. *)
Ltac q_norm :=
  change (@dec Q Q_Number) with Q_dec in *;
  repeat match goal with
  | |- context [Q_dec ?m ?k] =>
      let v := eval vm_compute in (Q_dec m k) in
      change (Q_dec m k) with v
  | H : context [Q_dec ?m ?k] |- _ =>
      let v := eval vm_compute in (Q_dec m k) in
      change (Q_dec m k) with v in H
  end;
  unfold Qdiv in *;
  repeat match goal with
  | |- context [Qinv (?n # ?d)] =>
      let v := eval vm_compute in (Qinv (n # d)) in
      change (Qinv (n # d)) with v
  | H : context [Qinv (?n # ?d)] |- _ =>
      let v := eval vm_compute in (Qinv (n # d)) in
      change (Qinv (n # d)) with v in H
  end.

(** ** The number types on samples *)

(** [Math.round] rounds ties towards plus infinity and keeps the sign of a
    zero result: 2.5, -2.5, 0.5, -0.5, 0.4, -0.4 and the double just below
    0.5. *)
Example Math_round_float64 :
  Math_round (dec (num:=float64) 25 1) = dec 3 0 /\
  Math_round (dec (num:=float64) (-25) 1) = dec (-2) 0 /\
  Math_round (dec (num:=float64) 5 1) = dec 1 0 /\
  Math_round (dec (num:=float64) (-5) 1) = S754_zero true /\
  Math_round (dec (num:=float64) 4 1) = S754_zero false /\
  Math_round (dec (num:=float64) (-4) 1) = S754_zero true /\
  Math_round (SFpred F64.prec F64.emax (dec 5 1)) = S754_zero false.
Proof. vm_compute. repeat split; reflexivity. Qed.

Example Math_round_Q :
  Math_round (num:=Q) 2.5%Q = 3%Q /\
  Math_round (num:=Q) (-2.5)%Q = (-2)%Q /\
  Math_round (num:=Q) 0.5%Q = 1%Q /\
  Math_round (num:=Q) (-0.5)%Q = 0%Q /\
  Math_round (num:=Q) (-0.4)%Q = 0%Q.
Proof. vm_compute. repeat split; reflexivity. Qed.

(** In binary64 the sum 11.9 + 500 * 0.0001 is not the double 11.95 but the
    next one above; the rounding to two decimals absorbs the difference. *)
Example co2_before_rounding_float64 :
  (dec 119 1 + dec 500 0 * dec 1 4)%num
  = SFsucc F64.prec F64.emax (dec (num:=float64) 1195 2).
Proof. vm_compute. reflexivity. Qed.

(** The seeded circular scenario (recycled, grid, 500 km, recycling,
    1000 kg): (11.9 x 0.15 + 0.05) x 0.8 = 1.468, returned as 1.47. *)
Example co2Footprint_circularScenario :
  (co2Footprint (calculateKPIs (num:=Q) circularScenario) == 1.47)%Q /\
  co2Footprint (calculateKPIs (num:=float64) circularScenario) = dec 147 2.
Proof. vm_compute. split; reflexivity. Qed.

(** ** Doubles and the numbers they stand for *)

Lemma float64_eqb_eq (x y : float64) : float64_eqb x y = true -> x = y.
Proof.
  destruct x as [s | s | | s m e], y as [s' | s' | | s' m' e']; cbn;
    try discriminate; try reflexivity;
    try (intros E; apply Bool.eqb_prop in E; congruence).
  intros E. apply andb_prop in E as [E E3]. apply andb_prop in E as [E1 E2].
  apply Bool.eqb_prop in E1. apply Pos.eqb_eq in E2. apply Z.eqb_eq in E3.
  congruence.
Qed.

Section Doubles.
Local Open Scope Z_scope.

(** *** The length of a mantissa *)

Lemma digits2_pos_size (p : positive) : digits2_pos p = Pos.size p.
Proof. induction p; simpl; congruence. Qed.

Lemma digits2_pos_gt (p : positive) : Zpos p < 2 ^ Zpos (digits2_pos p).
Proof.
  rewrite digits2_pos_size.
  pose proof (Pos.size_gt p) as G.
  assert (G' : Zpos p < Zpos (2 ^ Pos.size p)) by lia.
  now rewrite Pos2Z.inj_pow in G'.
Qed.

Lemma digits2_pos_le (p : positive) : 2 ^ Zpos (digits2_pos p) <= 2 * Zpos p.
Proof.
  rewrite digits2_pos_size.
  pose proof (Pos.size_le p) as L.
  assert (L' : Zpos (2 ^ Pos.size p) <= Zpos p~0) by lia.
  rewrite Pos2Z.inj_pow in L'. lia.
Qed.

Lemma digits2_pos_bound (p : positive) :
  Zpos p < 2 ^ 53 -> Zpos (digits2_pos p) <= 53.
Proof.
  intros Hp. pose proof (digits2_pos_le p) as L.
  destruct (Z.le_gt_cases (Zpos (digits2_pos p)) 53) as [| Hd];
    [assumption | exfalso].
  assert (2 ^ 54 <= 2 ^ Zpos (digits2_pos p)) by (apply Z.pow_le_mono_r; lia).
  change (2 ^ 54) with (2 * 2 ^ 53) in *. lia.
Qed.

Lemma Zdigits2_gt (m : Z) : 0 <= m -> m < 2 ^ Zdigits2 m.
Proof.
  destruct m as [| p | p]; intros Hm; simpl;
    [lia | apply digits2_pos_gt | lia].
Qed.

Lemma Zdigits2_nonneg (m : Z) : 0 <= Zdigits2 m.
Proof. destruct m; simpl; lia. Qed.

(** *** Shifting a mantissa to the right *)

Lemma shr_1_m (r : shr_record) :
  0 <= shr_m r -> shr_m (shr_1 r) = Z.div2 (shr_m r).
Proof.
  destruct r as [m r s]; simpl.
  destruct m as [| [p | p |] | p]; simpl; intros; try reflexivity; lia.
Qed.

Lemma iter_shr_m (p : positive) : forall r : shr_record,
  0 <= shr_m r ->
  shr_m (SpecFloat.iter_pos shr_1 p r) = shr_m r / 2 ^ Zpos p.
Proof.
  assert (DP : forall a k, 0 <= a -> 0 <= a / 2 ^ Zpos k).
  { intros a k Ha. apply Z.div_pos; [lia |]. apply Z.pow_pos_nonneg; lia. }
  induction p as [p IH | p IH |]; intros r Hr; simpl.
  - assert (H1 : 0 <= shr_m (shr_1 r)).
    { rewrite shr_1_m, Z.div2_div by auto. apply Z.div_pos; lia. }
    assert (H2 : 0 <= shr_m (SpecFloat.iter_pos shr_1 p (shr_1 r))).
    { rewrite IH by auto. auto. }
    rewrite IH, IH, shr_1_m, Z.div2_div by auto.
    rewrite !Z.div_div by (try apply Z.pow_pos_nonneg; lia).
    f_equal. rewrite Pos2Z.inj_xI.
    replace (2 * Zpos p + 1) with (Z.succ (Zpos p + Zpos p)) by lia.
    rewrite Z.pow_succ_r, Z.pow_add_r by lia. lia.
  - assert (H2 : 0 <= shr_m (SpecFloat.iter_pos shr_1 p r)).
    { rewrite IH by auto. auto. }
    rewrite IH, IH by auto.
    rewrite !Z.div_div by (try apply Z.pow_pos_nonneg; lia).
    f_equal. rewrite Pos2Z.inj_xO, <- Z.pow_add_r by lia. f_equal. lia.
  - rewrite shr_1_m by auto. rewrite Z.div2_div. reflexivity.
Qed.

(** The mantissa [shr_fexp] leaves has at most 53 bits. *)
Lemma shr_fexp_bounded (m e : Z) (l : location) :
  0 <= m ->
  0 <= shr_m (fst (shr_fexp F64.prec F64.emax m e l)) < 2 ^ F64.prec.
Proof.
  intros Hm. unfold shr_fexp, shr, fexp, emin, F64.prec, F64.emax.
  pose proof (Zdigits2_gt m Hm) as HD.
  pose proof (Zdigits2_nonneg m) as HD0.
  set (D := Zdigits2 m) in *.
  assert (Hrec : shr_m (shr_record_of_loc m l) = m)
    by (destruct l as [| []]; reflexivity).
  destruct (Z.max (D + e - 53) (3 - 1024 - 53) - e) as [| n | n] eqn:En;
    simpl fst.
  - rewrite Hrec. split; [lia |].
    apply Z.lt_le_trans with (1 := HD). apply Z.pow_le_mono_r; lia.
  - rewrite iter_shr_m by (rewrite Hrec; lia). rewrite Hrec.
    split. { apply Z.div_pos; [lia | apply Z.pow_pos_nonneg; lia]. }
    apply Z.div_lt_upper_bound. { apply Z.pow_pos_nonneg; lia. }
    rewrite <- Z.pow_add_r by lia.
    apply Z.lt_le_trans with (1 := HD). apply Z.pow_le_mono_r; lia.
  - rewrite Hrec. split; [lia |].
    apply Z.lt_le_trans with (1 := HD). apply Z.pow_le_mono_r; lia.
Qed.

Lemma round_nearest_even_nonneg (m : Z) (l : location) :
  0 <= m -> 0 <= round_nearest_even m l.
Proof.
  intros Hm. destruct l as [| []]; simpl; try lia.
  destruct (Z.even m); lia.
Qed.

Lemma binary_round_aux_bounded (sx : bool) (mx ex : Z) (lx : location) :
  0 <= mx -> bounded_mantissa (binary_round_aux F64.prec F64.emax sx mx ex lx).
Proof.
  intros Hm. unfold binary_round_aux.
  pose proof (shr_fexp_bounded mx ex lx Hm) as H1.
  destruct (shr_fexp F64.prec F64.emax mx ex lx) as [mrs' e'] eqn:E1.
  simpl fst in H1.
  pose proof (shr_fexp_bounded
                (round_nearest_even (shr_m mrs') (loc_of_shr_record mrs'))
                e' loc_Exact
                (round_nearest_even_nonneg _ _ (proj1 H1))) as H2.
  destruct (shr_fexp F64.prec F64.emax
              (round_nearest_even (shr_m mrs') (loc_of_shr_record mrs'))
              e' loc_Exact) as [mrs'' e''] eqn:E2.
  simpl fst in H2.
  destruct (shr_m mrs'') as [| m | m]; simpl; auto.
  destruct (e'' <=? F64.emax - F64.prec); simpl; auto. lia.
Qed.

(** A product of two doubles has a mantissa of at most 53 bits. *)
Lemma SFmul_bounded (x y : float64) : bounded_mantissa (SFmul F64.prec F64.emax x y).
Proof.
  destruct x as [sx | sx | | sx mx ex], y as [sy | sy | | sy my ey]; simpl; auto.
  apply binary_round_aux_bounded. lia.
Qed.

(** *** Integers are doubles *)

Lemma iter_xO_digits (m k : positive) :
  digits2_pos (Pos.iter xO m k) = (digits2_pos m + k)%positive.
Proof.
  induction k using Pos.peano_ind.
  - simpl. lia.
  - rewrite Pos.iter_succ. simpl. rewrite IHk. lia.
Qed.

Lemma iter_xO_value (m k : positive) :
  Zpos (Pos.iter xO m k) = Zpos m * 2 ^ Zpos k.
Proof.
  induction k using Pos.peano_ind.
  - simpl. lia.
  - rewrite Pos.iter_succ, Pos2Z.inj_xO, IHk, Pos2Z.inj_succ, Z.pow_succ_r by lia.
    lia.
Qed.

(** A mantissa of exactly 53 bits is left as it is. *)
Lemma binary_round_aux_canonical (s : bool) (m : positive) (e : Z) :
  Zpos (digits2_pos m) = 53 -> -1074 <= e <= 971 ->
  binary_round_aux F64.prec F64.emax s (Zpos m) e loc_Exact = S754_finite s m e.
Proof.
  intros Hd He.
  assert (E : Z.max (53 + e - 53) (3 - 1024 - 53) - e = 0) by lia.
  unfold binary_round_aux, shr_fexp, fexp, emin, F64.prec, F64.emax.
  simpl Zdigits2. rewrite Hd, E.
  cbn [shr shr_m shr_record_of_loc round_nearest_even loc_of_shr_record Zdigits2].
  rewrite Hd, E.
  cbn [shr shr_m shr_record_of_loc].
  destruct (Z.leb_spec e (1024 - 53)); [reflexivity | lia].
Qed.

Lemma cond_Zopp_mul (s : bool) (a b : Z) :
  cond_Zopp s (a * b) = cond_Zopp s a * b.
Proof. destruct s; simpl; lia. Qed.

Lemma binary_round_exact (s : bool) (p : positive) :
  Zpos p < 2 ^ 53 ->
  has_value (binary_round F64.prec F64.emax s p 0)
            (inject_Z (cond_Zopp s (Zpos p))).
Proof.
  intros Hp. pose proof (digits2_pos_bound p Hp) as Hd.
  assert (Hf : fexp F64.prec F64.emax (Zpos (digits2_pos p) + 0)
               = Zpos (digits2_pos p) - 53).
  { unfold fexp, emin, F64.prec, F64.emax. lia. }
  unfold binary_round, shl_align. rewrite Hf.
  destruct (Z.eq_dec (Zpos (digits2_pos p)) 53) as [E | E].
  - rewrite E. change (53 - 53 - 0) with 0. cbv iota beta.
    rewrite (binary_round_aux_canonical s p 0 E) by lia.
    unfold has_value; simpl. rewrite Z.mul_1_r. reflexivity.
  - set (k := Z.to_pos (53 - Zpos (digits2_pos p))).
    replace (Zpos (digits2_pos p) - 53 - 0) with (Zneg k) by lia.
    cbv iota beta.
    rewrite binary_round_aux_canonical.
    + unfold has_value, float64_value.
      destruct (Z.leb_spec 0 (Zpos (digits2_pos p) - 53)) as [G | G]; [lia |].
      replace (- (Zpos (digits2_pos p) - 53)) with (Zpos k) by lia.
      rewrite iter_xO_value, cond_Zopp_mul.
      unfold Qeq; simpl Qnum; simpl Qden.
      rewrite Z2Pos.id by (apply Z.pow_pos_nonneg; lia). lia.
    + rewrite iter_xO_digits. lia.
    + lia.
Qed.

(** Every integer below 2^53 in absolute value is a double, and
    [binary_normalize] finds it. *)
Lemma binary_normalize_exact (n : Z) (s : bool) :
  - 2 ^ 53 < n < 2 ^ 53 ->
  has_value (binary_normalize F64.prec F64.emax n 0 s) (inject_Z n).
Proof.
  intros Hn. destruct n as [| p | p]; simpl.
  - reflexivity.
  - apply (binary_round_exact false p). lia.
  - apply (binary_round_exact true p). lia.
Qed.

(** *** [Math.round] *)

Lemma Qfloor_half (z : Z) : Qfloor (inject_Z z + (1 # 2)) = z.
Proof.
  unfold Qfloor, Qplus, inject_Z. simpl Qnum. simpl Qden.
  change (Zpos (1 * 2)) with 2.
  symmetry. apply (Z.div_unique_pos (z * 2 + 1 * 1) 2 z 1); lia.
Qed.

Lemma Qfloor_nearest (v : Q) :
  (v - (1 # 2) < inject_Z (Qfloor (v + (1 # 2))) <= v + (1 # 2))%Q.
Proof.
  pose proof (Qfloor_le (v + (1 # 2))) as L.
  pose proof (Qlt_floor (v + (1 # 2))) as U.
  rewrite inject_Z_plus in U. change (inject_Z 1) with 1%Q in U.
  split; lra.
Qed.

(** On a double [Math.round] returns the integer [floor (x + 1/2)], and
    returns it exactly. *)
Lemma Math_round_value (x : float64) (v : Q) :
  bounded_mantissa x -> float64_value x = Some v ->
  has_value (Math_round x) (inject_Z (Qfloor (v + (1 # 2)))).
Proof.
  intros Hb Hv. destruct x as [s | s | | s m e]; try discriminate Hv.
  - injection Hv as <-. reflexivity.
  - simpl in Hb, Hv. cbn [Math_round float64_Number]. unfold F64.round.
    destruct (Z.leb_spec 0 e) as [He | He]; injection Hv as <-.
    + rewrite Qfloor_half. unfold has_value, float64_value.
      destruct (Z.leb_spec 0 e); [reflexivity | lia].
    + set (sm := cond_Zopp s (Zpos m)).
      assert (Hsm : - 2 ^ 53 < sm < 2 ^ 53).
      { unfold sm, F64.prec in *. destruct s; simpl; lia. }
      assert (HP : 0 < 2 ^ (- e)) by (apply Z.pow_pos_nonneg; lia).
      assert (HP2 : 2 ^ (1 - e) = 2 ^ (- e) * 2).
      { replace (1 - e) with (Z.succ (- e)) by lia.
        rewrite Z.pow_succ_r by lia. lia. }
      assert (HP1 : 2 <= 2 ^ (- e)).
      { change 2 with (2 ^ 1) at 1. apply Z.pow_le_mono_r; lia. }
      assert (EN : Qfloor ((sm # Z.to_pos (2 ^ (- e))) + (1 # 2))
                   = (2 * sm + 2 ^ (- e)) / 2 ^ (1 - e)).
      { unfold Qfloor, Qplus. simpl Qnum. simpl Qden.
        rewrite Pos2Z.inj_mul, Z2Pos.id, HP2 by lia.
        f_equal. lia. }
      rewrite EN.
      apply binary_normalize_exact.
      rewrite HP2. split.
      * apply Z.lt_le_trans with (- 2 ^ 52); [lia |].
        apply Z.div_le_lower_bound; [lia |].
        change (2 ^ 53) with (2 * 2 ^ 52) in Hsm. nia.
      * apply Z.div_lt_upper_bound; [lia |].
        change (2 ^ 53) with (2 * 2 ^ 52) in *. nia.
Qed.
End Doubles.

(** *** The error of one operation *)

Section Rounding.
Local Open Scope Q_scope.

Lemma inbetween_eq (m : Z) (l : location) (x y : Q) :
  x == y -> inbetween m l x -> inbetween m l y.
Proof.
  intros E. destruct l as [| []]; simpl; intros H; try (rewrite <- E; exact H).
Qed.

Lemma inject_Z_xO (p : positive) : inject_Z (Zpos p~0) == 2 * inject_Z (Zpos p).
Proof. rewrite Pos2Z.inj_xO, inject_Z_mult. reflexivity. Qed.

Lemma inject_Z_xI (p : positive) : inject_Z (Zpos p~1) == 2 * inject_Z (Zpos p) + 1.
Proof. rewrite Pos2Z.inj_xI, inject_Z_plus, inject_Z_mult. reflexivity. Qed.

Lemma shr_1_inbetween (r : shr_record) (x : Q) :
  (0 <= shr_m r)%Z ->
  inbetween (shr_m r) (loc_of_shr_record r) x ->
  inbetween (shr_m (shr_1 r)) (loc_of_shr_record (shr_1 r)) (x / 2).
Proof.
  destruct r as [m rb sb]. simpl shr_m. intros Hm.
  destruct m as [| [p | p |] | p]; try lia;
    try pose proof (inject_Z_xO p) as E0; try pose proof (inject_Z_xI p) as E1;
    destruct rb, sb; simpl; intros H;
    change (inject_Z 0) with 0 in *; change (inject_Z 1) with 1 in *;
    unfold Qdiv; change (/ 2) with (1 # 2); lra.
Qed.

Lemma loc_of_shr_record_of_loc (m : Z) (l : location) :
  loc_of_shr_record (shr_record_of_loc m l) = l.
Proof. destruct l as [| []]; reflexivity. Qed.

Lemma shr_m_of_loc (m : Z) (l : location) : shr_m (shr_record_of_loc m l) = m.
Proof. destruct l as [| []]; reflexivity. Qed.

Lemma inject_Z_pow2_pos (k : Z) : (0 <= k)%Z -> 0 < inject_Z (2 ^ k).
Proof.
  intros Hk. change 0 with (inject_Z 0). rewrite <- Zlt_Qlt.
  apply Z.pow_pos_nonneg; lia.
Qed.

Lemma shr_1_nonneg (r : shr_record) : (0 <= shr_m r)%Z -> (0 <= shr_m (shr_1 r))%Z.
Proof.
  intros Hr. rewrite shr_1_m, Z.div2_div by assumption. apply Z.div_pos; lia.
Qed.

Lemma iter_shr_nonneg (p : positive) (r : shr_record) :
  (0 <= shr_m r)%Z -> (0 <= shr_m (SpecFloat.iter_pos shr_1 p r))%Z.
Proof.
  intros Hr. rewrite iter_shr_m by assumption.
  apply Z.div_pos; [lia | apply Z.pow_pos_nonneg; lia].
Qed.

Lemma iter_shr_inbetween (p : positive) : forall (r : shr_record) (x : Q),
  (0 <= shr_m r)%Z ->
  inbetween (shr_m r) (loc_of_shr_record r) x ->
  inbetween (shr_m (SpecFloat.iter_pos shr_1 p r))
            (loc_of_shr_record (SpecFloat.iter_pos shr_1 p r))
            (x / inject_Z (2 ^ Zpos p)).
Proof.
  induction p as [p IH | p IH |]; intros r x Hr H; simpl SpecFloat.iter_pos.
  - pose proof (inject_Z_pow2_pos (Zpos p) ltac:(lia)) as HP.
    apply (inbetween_eq _ _ (x / 2 / inject_Z (2 ^ Zpos p) / inject_Z (2 ^ Zpos p))).
    + rewrite Pos2Z.inj_xI.
      replace (2 * Zpos p + 1)%Z with (Z.succ (Zpos p + Zpos p)) by lia.
      rewrite Z.pow_succ_r, Z.pow_add_r, !inject_Z_mult by lia.
      change (inject_Z 2) with 2. field. lra.
    + apply IH; [apply iter_shr_nonneg, shr_1_nonneg, Hr |].
      apply IH; [apply shr_1_nonneg, Hr |].
      apply shr_1_inbetween; assumption.
  - pose proof (inject_Z_pow2_pos (Zpos p) ltac:(lia)) as HP.
    apply (inbetween_eq _ _ (x / inject_Z (2 ^ Zpos p) / inject_Z (2 ^ Zpos p))).
    + replace (Zpos p~0) with (Zpos p + Zpos p)%Z by lia.
      rewrite Z.pow_add_r, !inject_Z_mult by lia.
      field. lra.
    + apply IH; [apply iter_shr_nonneg, Hr |].
      apply IH; assumption.
  - change (inject_Z (2 ^ 1)) with 2. apply shr_1_inbetween; assumption.
Qed.

Lemma round_nearest_even_error (m : Z) (l : location) (x : Q) :
  inbetween m l x ->
  x - (1 # 2) <= inject_Z (round_nearest_even m l) <= x + (1 # 2).
Proof.
  destruct l as [| []]; simpl; intros H; try destruct (Z.even m);
    rewrite ?inject_Z_plus; change (inject_Z 1) with 1; lra.
Qed.

Lemma round_nearest_even_le (m : Z) (l : location) :
  (m <= round_nearest_even m l <= m + 1)%Z.
Proof.
  destruct l as [| []]; simpl; try lia. destruct (Z.even m); lia.
Qed.

(** *** Powers of two *)

Lemma pow2_pos (e : Z) : 0 < 2 ^ e.
Proof. apply Qpower_0_lt. reflexivity. Qed.

Lemma pow2_add (a b : Z) : 2 ^ (a + b) == 2 ^ a * 2 ^ b.
Proof. apply Qpower_plus. discriminate. Qed.

Lemma pow2_inject (k : Z) : (0 <= k)%Z -> inject_Z (2 ^ k) == 2 ^ k.
Proof. intros Hk. apply (Zpower_Qpower 2 k Hk). Qed.

Lemma pow2_opp (k : Z) : 2 ^ (- k) == / 2 ^ k.
Proof. apply Qpower_opp. Qed.

Lemma pow2_le (a b : Z) : (a <= b)%Z -> 2 ^ a <= 2 ^ b.
Proof. intros L. apply Qpower_le_compat_l; [exact L | discriminate]. Qed.

Lemma pow2_lt_inv (a b : Z) : 2 ^ a < 2 ^ b -> (a < b)%Z.
Proof. intros L. apply (Qpower_lt_compat_l_inv 2); [exact L | reflexivity]. Qed.

Lemma float64_value_finite (s : bool) (m : positive) (e : Z) :
  exists v : Q,
    float64_value (S754_finite s m e) = Some v /\
    v == inject_Z (cond_Zopp s (Zpos m)) * 2 ^ e.
Proof.
  unfold float64_value. destruct (Z.leb_spec 0 e) as [He | He]; eexists; split;
    try reflexivity.
  - rewrite inject_Z_mult, pow2_inject by assumption. reflexivity.
  - replace e with (- - e)%Z at 2 by lia.
    rewrite pow2_opp, <- pow2_inject by lia.
    rewrite <- (Z2Pos.id (2 ^ (- e))) at 2 by (apply Z.pow_pos_nonneg; lia).
    rewrite (Qmake_Qdiv (cond_Zopp s (Zpos m)) (Z.to_pos (2 ^ (- e)))).
    reflexivity.
Qed.

(** *** The length of a mantissa, again *)

Lemma Zdigits2_le (m : Z) : (0 < m)%Z -> (2 ^ (Zdigits2 m - 1) <= m)%Z.
Proof.
  destruct m as [| p | p]; try lia. intros _. simpl.
  pose proof (digits2_pos_le p) as L.
  replace (Zpos (digits2_pos p)) with (Z.succ (Zpos (digits2_pos p) - 1)) in L by lia.
  rewrite Z.pow_succ_r in L by lia. lia.
Qed.

Lemma Zdigits2_unique (m k : Z) :
  (2 ^ (k - 1) <= m < 2 ^ k)%Z -> (0 < m)%Z -> Zdigits2 m = k.
Proof.
  intros [L U] Hm.
  pose proof (Zdigits2_le m Hm) as L'. pose proof (Zdigits2_gt m ltac:(lia)) as U'.
  pose proof (Zdigits2_nonneg m) as N.
  assert (Hk : (0 < k)%Z).
  { destruct (Z.lt_ge_cases 0 k); [assumption |].
    assert (k = 0 \/ k < 0)%Z as [-> | Hn] by lia.
    - simpl in U. lia.
    - rewrite Z.pow_neg_r in U by lia. lia. }
  destruct (Z.lt_trichotomy (Zdigits2 m) k) as [Hlt | [E | Hgt]]; [| exact E |].
  - assert (2 ^ Zdigits2 m <= 2 ^ (k - 1))%Z by (apply Z.pow_le_mono_r; lia). lia.
  - assert (2 ^ k <= 2 ^ (Zdigits2 m - 1))%Z by (apply Z.pow_le_mono_r; lia). lia.
Qed.

(** *** One rounding *)

Lemma fexp_normal (x : Z) :
  (-1021 <= x)%Z -> fexp F64.prec F64.emax x = (x - 53)%Z.
Proof. intros Hx. unfold fexp, emin, F64.prec, F64.emax. lia. Qed.

Lemma shr_fexp_normal (mx ex : Z) (lx : location) (X0 : Q) :
  (0 < mx)%Z -> inbetween mx lx X0 ->
  (-1021 <= Zdigits2 mx + ex)%Z ->
  lx = loc_Exact \/ (53 <= Zdigits2 mx)%Z ->
  exists (mrs : shr_record) (e1 : Z),
    shr_fexp F64.prec F64.emax mx ex lx = (mrs, e1) /\
    inbetween (shr_m mrs) (loc_of_shr_record mrs) (X0 * 2 ^ (ex - e1)) /\
    (((Zdigits2 mx < 53)%Z /\ shr_m mrs = mx /\
      loc_of_shr_record mrs = loc_Exact /\ e1 = ex) \/
     ((53 <= Zdigits2 mx)%Z /\ (2 ^ 52 <= shr_m mrs < 2 ^ 53)%Z /\
      e1 = (Zdigits2 mx + ex - 53)%Z)).
Proof.
  intros Hm Hin Hn Hl.
  pose proof (Zdigits2_le mx Hm) as HL.
  pose proof (Zdigits2_gt mx ltac:(lia)) as HU.
  unfold shr_fexp. rewrite fexp_normal by assumption.
  set (D := Zdigits2 mx) in *.
  replace (D + ex - 53 - ex)%Z with (D - 53)%Z by lia.
  unfold shr.
  destruct (D - 53)%Z as [| n | n] eqn:En.
  - (* exactly 53 bits *)
    exists (shr_record_of_loc mx lx), ex. split; [reflexivity |].
    rewrite loc_of_shr_record_of_loc, shr_m_of_loc. split.
    + apply (inbetween_eq _ _ X0); [| exact Hin].
      rewrite Z.sub_diag. change (2 ^ 0) with 1. ring.
    + right. replace D with 53%Z in * by lia.
      split; [lia |]. split; [| lia]. change (53 - 1)%Z with 52%Z in HL. lia.
  - (* more than 53 bits: the mantissa is shifted *)
    exists (SpecFloat.iter_pos shr_1 n (shr_record_of_loc mx lx)), (ex + Zpos n)%Z.
    split; [reflexivity |].
    pose proof (inject_Z_pow2_pos (Zpos n) ltac:(lia)) as HP.
    split.
    + apply (inbetween_eq _ _ (X0 / inject_Z (2 ^ Zpos n))).
      * replace (ex - (ex + Zpos n))%Z with (- Zpos n)%Z by lia.
        rewrite pow2_opp, pow2_inject by lia. reflexivity.
      * apply iter_shr_inbetween;
          rewrite ?shr_m_of_loc, ?loc_of_shr_record_of_loc; [lia | exact Hin].
    + right. split; [lia |]. split; [| lia].
      rewrite iter_shr_m, shr_m_of_loc by (rewrite shr_m_of_loc; lia).
      assert (HD : D = (Zpos n + 53)%Z) by lia.
      split.
      * apply Z.div_le_lower_bound; [apply Z.pow_pos_nonneg; lia |].
        rewrite <- Z.pow_add_r by lia.
        replace (Zpos n + 52)%Z with (D - 1)%Z by lia. exact HL.
      * apply Z.div_lt_upper_bound; [apply Z.pow_pos_nonneg; lia |].
        rewrite <- Z.pow_add_r by lia.
        replace (Zpos n + 53)%Z with D by lia. exact HU.
  - (* fewer than 53 bits: nothing is lost *)
    destruct Hl as [-> | Hl]; [| lia].
    exists (shr_record_of_loc mx loc_Exact), ex. split; [reflexivity |].
    split.
    + apply (inbetween_eq _ _ X0); [| exact Hin].
      rewrite Z.sub_diag. change (2 ^ 0) with 1. ring.
    + left. repeat split; lia.
Qed.

Lemma half_ulp_bound (m2 X1 P : Q) :
  0 < P -> X1 - (1 # 2) <= m2 <= X1 + (1 # 2) ->
  inject_Z (2 ^ 52) <= X1 ->
  Qabs (m2 * P - X1 * P) <= u64 * (X1 * P).
Proof.
  intros HP [L U] HX. unfold u64.
  assert (H52 : inject_Z (2 ^ 52) == 4503599627370496) by reflexivity.
  rewrite H52 in HX.
  assert (Hh : (1 # 2) <= (1 # 9007199254740992) * X1) by lra.
  apply Qabs_Qle_condition. split.
  - assert (0 <= (m2 - X1 + (1 # 9007199254740992) * X1) * P)
      by (apply Qmult_le_0_compat; lra).
    lra.
  - assert (0 <= ((1 # 9007199254740992) * X1 - (m2 - X1)) * P)
      by (apply Qmult_le_0_compat; lra).
    lra.
Qed.

(** A mantissa [mx] with the rest [lx] at exponent [ex], standing for
    [X0 * 2^ex], is rounded to a double within [u64] of it, relatively,
    when the result is a normal number. *)
Lemma binary_round_aux_error (sx : bool) (mx ex : Z) (lx : location) (X0 : Q) :
  (0 < mx)%Z -> inbetween mx lx X0 ->
  (-1021 <= Zdigits2 mx + ex <= 1023)%Z -> (ex <= 971)%Z ->
  lx = loc_Exact \/ (53 <= Zdigits2 mx)%Z ->
  exists (m : positive) (e : Z),
    binary_round_aux F64.prec F64.emax sx mx ex lx = S754_finite sx m e /\
    Qabs (inject_Z (Zpos m) * 2 ^ e - X0 * 2 ^ ex) <= u64 * (X0 * 2 ^ ex).
Proof.
  intros Hm Hin [Hn Ho] He Hl.
  destruct (shr_fexp_normal mx ex lx X0 Hm Hin Hn Hl)
    as (mrs & e1 & E1 & Hin1 & [(Hd & Em & El & Ee) | (Hd & Hb & Ee)]).
  - (* nothing was lost *)
    destruct Hl as [-> | Hl]; [| lia].
    unfold binary_round_aux. rewrite E1, Em, El. subst e1.
    cbn [round_nearest_even].
    unfold shr_fexp. rewrite fexp_normal by assumption.
    replace (Zdigits2 mx + ex - 53 - ex)%Z with (Zdigits2 mx - 53)%Z by lia.
    unfold shr.
    destruct (Zdigits2 mx - 53)%Z as [| n | n] eqn:En; try lia.
    cbn [shr_m shr_record_of_loc].
    destruct mx as [| p | p]; try lia.
    exists p, ex. split.
    + unfold F64.emax, F64.prec. destruct (Z.leb_spec ex (1024 - 53)); [reflexivity | lia].
    + simpl in Hin. rewrite Hin.
      assert (D0 : inject_Z (Zpos p) * 2 ^ ex - inject_Z (Zpos p) * 2 ^ ex == 0)
        by ring.
      rewrite D0. change (Qabs 0) with 0. apply Qmult_le_0_compat; [discriminate |].
      apply Qmult_le_0_compat; [| apply Qlt_le_weak, pow2_pos].
      change 0 with (inject_Z 0). rewrite <- Zle_Qle. lia.
  - (* the mantissa has 53 bits and is rounded *)
    set (m1 := shr_m mrs) in *. set (l1 := loc_of_shr_record mrs) in *.
    pose proof (round_nearest_even_error m1 l1 _ Hin1) as Hr.
    pose proof (round_nearest_even_le m1 l1) as Hle.
    set (m2 := round_nearest_even m1 l1) in *.
    assert (HX1 : inject_Z (2 ^ 52) <= X0 * 2 ^ (ex - e1)).
    { apply Qle_trans with (inject_Z m1); [rewrite <- Zle_Qle; lia |].
      destruct l1 as [| []]; simpl in Hin1; lra. }
    assert (EX : X0 * 2 ^ ex == X0 * 2 ^ (ex - e1) * 2 ^ e1).
    { rewrite <- Qmult_assoc, <- pow2_add.
      replace (ex - e1 + e1)%Z with ex by lia. reflexivity. }
    pose proof (half_ulp_bound (inject_Z m2) _ (2 ^ e1) (pow2_pos e1) Hr HX1) as HB.
    rewrite <- EX in HB.
    unfold binary_round_aux. rewrite E1. fold m1 l1 m2.
    unfold shr_fexp.
    destruct (Z.eq_dec m2 (2 ^ 53)%Z) as [E2 | N2].
    + (* the rounding carried into a 54th bit *)
      rewrite E2 in HB |- *. change (Zdigits2 (2 ^ 53)%Z) with 54%Z.
      rewrite fexp_normal by lia.
      replace (54 + e1 - 53 - e1)%Z with 1%Z by lia.
      change (2 ^ 53)%Z with 9007199254740992%Z.
      cbn [shr SpecFloat.iter_pos shr_1 shr_m shr_record_of_loc orb].
      exists 4503599627370496%positive, (e1 + 1)%Z. split.
      * unfold F64.emax, F64.prec.
        destruct (Z.leb_spec (e1 + 1) (1024 - 53)); [reflexivity | lia].
      * assert (EC : inject_Z (Zpos 4503599627370496) * 2 ^ (e1 + 1)
                     == inject_Z (2 ^ 53)%Z * 2 ^ e1).
        { rewrite pow2_add. change (2 ^ 1) with 2.
          change (inject_Z (Zpos 4503599627370496)) with 4503599627370496.
          change (inject_Z (2 ^ 53)%Z) with 9007199254740992. ring. }
        rewrite EC. exact HB.
    + assert (Hd2 : Zdigits2 m2 = 53%Z).
      { apply Zdigits2_unique; [change (53 - 1)%Z with 52%Z |]; lia. }
      rewrite Hd2, fexp_normal by lia.
      replace (53 + e1 - 53 - e1)%Z with 0%Z by lia.
      cbn [shr shr_m shr_record_of_loc].
      destruct m2 as [| p | p] eqn:Em2; try lia.
      exists p, e1. split.
      * unfold F64.emax, F64.prec.
        destruct (Z.leb_spec e1 (1024 - 53)); [reflexivity | lia].
      * exact HB.
Qed.

(** *** Positive doubles *)

Lemma positive_value (x : float64) (X : Q) :
  float64_value x = Some X -> 0 < X ->
  exists (m : positive) (e : Z),
    x = S754_finite false m e /\ X == inject_Z (Zpos m) * 2 ^ e.
Proof.
  intros Hv Hp. destruct x as [s | s | | s m e]; try discriminate Hv.
  - injection Hv as <-. lra.
  - destruct (float64_value_finite s m e) as (v & Ev & Hveq).
    rewrite Ev in Hv. injection Hv as <-.
    destruct s; [exfalso | exists m, e; split; [reflexivity | exact Hveq]].
    change (cond_Zopp true (Zpos m)) with (Zneg m) in Hveq.
    assert (inject_Z (Zneg m) * 2 ^ e < 0); [| lra].
    pose proof (pow2_pos e) as HP.
    assert (Hneg : inject_Z (Zneg m) < 0)
      by (change 0 with (inject_Z 0); rewrite <- Zlt_Qlt; lia).
    assert (0 < - inject_Z (Zneg m) * 2 ^ e) by (apply Qmult_lt_0_compat; lra).
    lra.
Qed.

Lemma finite_value (m : positive) (e : Z) :
  exists v : Q,
    float64_value (S754_finite false m e) = Some v /\
    v == inject_Z (Zpos m) * 2 ^ e.
Proof. exact (float64_value_finite false m e). Qed.

(** The exponent range of a number between [2^lo] and [2^hi]. *)
Lemma mantissa_range (m lo hi e : Z) (X0 : Q) :
  (0 < m)%Z -> inject_Z m <= X0 -> X0 < inject_Z m + 1 ->
  2 ^ lo <= X0 * 2 ^ e <= 2 ^ hi ->
  (lo < Zdigits2 m + e <= hi + 1)%Z.
Proof.
  intros Hm L U [Hlo Hhi].
  pose proof (Zdigits2_le m Hm) as DL.
  pose proof (Zdigits2_gt m ltac:(lia)) as DU.
  pose proof (Zdigits2_nonneg m) as DN.
  pose proof (pow2_pos e) as HP.
  assert (DD : (0 < Zdigits2 m)%Z) by (destruct m; simpl in *; lia).
  split.
  - apply pow2_lt_inv.
    apply Qle_lt_trans with (1 := Hlo).
    rewrite pow2_add, <- (pow2_inject (Zdigits2 m)) by lia.
    apply Qmult_lt_compat_r; [exact HP |].
    apply Qlt_le_trans with (1 := U).
    change (inject_Z m + 1) with (inject_Z m + inject_Z 1).
    rewrite <- (inject_Z_plus m 1), <- Zle_Qle. lia.
  - assert (Zdigits2 m - 1 + e <= hi)%Z; [| lia].
    apply (Qpower_le_compat_l_inv 2); [| reflexivity].
    apply Qle_trans with (2 := Hhi).
    rewrite pow2_add, <- (pow2_inject (Zdigits2 m - 1)) by lia.
    apply Qmult_le_compat_r; [| lra].
    apply Qle_trans with (2 := L). rewrite <- Zle_Qle. exact DL.
Qed.

(** *** Products *)

Lemma SFmul_error (x y : float64) (X Y : Q) :
  float64_value x = Some X -> float64_value y = Some Y ->
  0 < X -> 0 < Y ->
  2 ^ (-1000) <= X * Y <= 2 ^ 900 ->
  exists P : Q,
    float64_value (x * y)%num = Some P /\
    Qabs (P - X * Y) <= u64 * (X * Y).
Proof.
  intros Hx Hy HX HY HR.
  destruct (positive_value x X Hx HX) as (mx & ex & -> & EX).
  destruct (positive_value y Y Hy HY) as (my & ey & -> & EY).
  cbn [num_mul float64_Number SFmul xorb].
  assert (EXY : X * Y == inject_Z (Zpos (mx * my)) * 2 ^ (ex + ey)).
  { rewrite EX, EY, pow2_add, Pos2Z.inj_mul, inject_Z_mult. ring. }
  rewrite EXY in HR.
  pose proof (mantissa_range (Zpos (mx * my)) (-1000) 900 (ex + ey)
                (inject_Z (Zpos (mx * my))) ltac:(lia) ltac:(lra) ltac:(lra) HR)
    as [R1 R2].
  assert (DD : (0 < Zdigits2 (Zpos (mx * my)))%Z) by (simpl; lia).
  destruct (binary_round_aux_error false (Zpos (mx * my)) (ex + ey) loc_Exact
              (inject_Z (Zpos (mx * my)))
              ltac:(lia) (Qeq_refl _) ltac:(lia) ltac:(lia) (or_introl eq_refl))
    as (m & e & Er & Hr).
  rewrite Er.
  destruct (finite_value m e) as (v & Ev & Hv).
  exists v. split; [exact Ev |].
  rewrite Hv, EXY. exact Hr.
Qed.

(** *** Quotients *)

Lemma new_location_eq (my r : Z) :
  new_location my r
  = if Z.even my
    then if Z.eqb r 0 then loc_Exact else loc_Inexact (Z.compare (2 * r) my)
    else if Z.eqb r 0 then loc_Exact
         else loc_Inexact match Z.compare (2 * r + 1) my with
                          | Gt => Gt
                          | _ => Lt
                          end.
Proof. destruct my as [| [p | p |] | [p | p |]]; reflexivity. Qed.

Lemma new_location_inbetween (my r q : Z) :
  (0 < my)%Z -> (0 <= r < my)%Z ->
  inbetween q (new_location my r) (inject_Z q + inject_Z r / inject_Z my).
Proof.
  intros Hmy [Hr0 Hr].
  assert (HM : 0 < inject_Z my)
    by (change 0 with (inject_Z 0); rewrite <- Zlt_Qlt; lia).
  set (t := inject_Z r / inject_Z my).
  assert (Et : t * inject_Z my == inject_Z r) by (unfold t; field; lra).
  clearbody t.
  assert (Hcmp : forall c : comparison,
    (2 * r ?= my)%Z = c ->
    match c with
    | Lt => t < 1 # 2
    | Eq => t == 1 # 2
    | Gt => (1 # 2) < t
    end).
  { intros c Ec.
    assert (E2 : inject_Z (2 * r) == 2 * t * inject_Z my)
      by (rewrite inject_Z_mult, <- Et; change (inject_Z 2) with 2; ring).
    destruct c.
    - apply Z.compare_eq in Ec.
      rewrite Ec in E2.
      assert ((2 * t - 1) * inject_Z my == 0) by lra.
      apply Qmult_integral in H. destruct H; lra.
    - change (2 * r < my)%Z in Ec. rewrite Zlt_Qlt, E2 in Ec.
      destruct (Qlt_le_dec t (1 # 2)) as [| G]; [assumption | exfalso].
      assert (0 <= (2 * t - 1) * inject_Z my) by (apply Qmult_le_0_compat; lra).
      lra.
    - apply Z.compare_gt_iff in Ec. rewrite Zlt_Qlt, E2 in Ec.
      destruct (Qlt_le_dec (1 # 2) t) as [| G]; [assumption | exfalso].
      assert (0 <= (1 - 2 * t) * inject_Z my) by (apply Qmult_le_0_compat; lra).
      lra. }
  assert (Ht1 : t < 1).
  { destruct (Qlt_le_dec t 1) as [| G]; [assumption | exfalso].
    assert (0 <= (t - 1) * inject_Z my) by (apply Qmult_le_0_compat; lra).
    rewrite Zlt_Qlt in Hr. lra. }
  assert (Ht0 : r <> 0%Z -> 0 < t).
  { intros Hne. destruct (Qlt_le_dec 0 t) as [| G]; [assumption | exfalso].
    assert (0 < r)%Z as Hp by lia. rewrite Zlt_Qlt in Hp.
    change (inject_Z 0) with 0 in Hp.
    assert (0 <= (- t) * inject_Z my) by (apply Qmult_le_0_compat; lra).
    lra. }
  rewrite new_location_eq.
  destruct (Z.eqb_spec r 0) as [E0 | N0].
  - assert (t == 0).
    { rewrite E0 in Et. change (inject_Z 0) with 0 in Et.
      apply Qmult_integral in Et. destruct Et; lra. }
    destruct (Z.even my); cbn [inbetween]; lra.
  - specialize (Ht0 N0).
    destruct (Z.even my) eqn:Ev.
    + pose proof (Hcmp _ eq_refl) as Hc.
      destruct (2 * r ?= my)%Z; cbv iota in Hc; cbn [inbetween]; lra.
    + assert (Hodd : (2 * r <> my)%Z).
      { intros E. rewrite <- E, Z.even_mul in Ev. discriminate Ev. }
      destruct (2 * r + 1 ?= my)%Z eqn:Ec1.
      * apply Z.compare_eq in Ec1.
        assert (Ec : (2 * r ?= my)%Z = Lt) by (apply Z.compare_lt_iff; lia).
        pose proof (Hcmp _ Ec) as Hc. cbv iota in Hc. cbn [inbetween]. lra.
      * change (2 * r + 1 < my)%Z in Ec1.
        assert (Ec : (2 * r ?= my)%Z = Lt) by (apply Z.compare_lt_iff; lia).
        pose proof (Hcmp _ Ec) as Hc. cbv iota in Hc. cbn [inbetween]. lra.
      * apply Z.compare_gt_iff in Ec1. change (my < 2 * r + 1)%Z in Ec1.
        assert (Ec : (2 * r ?= my)%Z = Gt) by (apply Z.compare_gt_iff; lia).
        pose proof (Hcmp _ Ec) as Hc. cbv iota in Hc. cbn [inbetween]. lra.
Qed.

Lemma SFdiv_core_eq (m1 e1 m2 e2 : Z) :
  SFdiv_core_binary F64.prec F64.emax m1 e1 m2 e2
  = let e' := Z.min (fexp F64.prec F64.emax (Zdigits2 m1 + e1 - (Zdigits2 m2 + e2)))
                    (e1 - e2) in
    let s := (e1 - e2 - e')%Z in
    let m' := match s with
              | Zpos _ => Z.shiftl m1 s
              | Z0 => m1
              | Zneg _ => 0%Z
              end in
    (Z.div m' m2, e', new_location m2 (Z.modulo m' m2)).
Proof.
  unfold SFdiv_core_binary. cbv zeta.
  match goal with
  | |- context [IntDef.Z.div_eucl ?a ?b] =>
      change (IntDef.Z.div_eucl a b) with (Z.div_eucl a b);
      unfold Z.div, Z.modulo; destruct (Z.div_eucl a b) as [q r]
  end.
  reflexivity.
Qed.

Lemma SFdiv_error (x y : float64) (X Y : Q) :
  float64_value x = Some X -> float64_value y = Some Y ->
  0 < X -> 0 < Y ->
  2 ^ (-1000) <= X / Y <= 2 ^ 900 ->
  exists R : Q,
    float64_value (x / y)%num = Some R /\
    Qabs (R - X / Y) <= u64 * (X / Y).
Proof.
  intros Hx Hy HX HY HR.
  destruct (positive_value x X Hx HX) as (mx & ex & -> & EX).
  destruct (positive_value y Y Hy HY) as (my & ey & -> & EY).
  cbn [num_div float64_Number SFdiv xorb].
  rewrite SFdiv_core_eq. cbv zeta.
  pose proof (Zdigits2_le (Zpos mx) ltac:(lia)) as L1.
  pose proof (Zdigits2_gt (Zpos mx) ltac:(lia)) as U1.
  pose proof (Zdigits2_le (Zpos my) ltac:(lia)) as L2.
  pose proof (Zdigits2_gt (Zpos my) ltac:(lia)) as U2.
  set (d1 := Zdigits2 (Zpos mx)) in *. set (d2 := Zdigits2 (Zpos my)) in *.
  assert (D1 : (0 < d1)%Z) by (unfold d1; simpl; lia).
  assert (D2 : (0 < d2)%Z) by (unfold d2; simpl; lia).
  pose proof (pow2_pos ex) as Pex. pose proof (pow2_pos ey) as Pey.
  (* the exponent of the quotient is in the normal range *)
  assert (Hdelta : (-1001 < d1 + ex - (d2 + ey))%Z).
  { assert (HXu : X < 2 ^ (d1 + ex)).
    { rewrite EX, pow2_add, <- (pow2_inject d1) by lia.
      apply Qmult_lt_compat_r; [exact Pex |]. rewrite <- Zlt_Qlt. exact U1. }
    assert (HYl : 2 ^ (d2 - 1 + ey) <= Y).
    { rewrite EY, pow2_add, <- (pow2_inject (d2 - 1)) by lia.
      apply Qmult_le_compat_r; [| lra]. rewrite <- Zle_Qle. exact L2. }
    assert (HXY : 2 ^ (-1000) * Y <= X).
    { destruct HR as [HR _].
      apply (Qmult_le_compat_r _ _ Y) in HR; [| lra].
      assert (E : X / Y * Y == X) by (field; lra). rewrite E in HR. exact HR. }
    assert (H3 : 2 ^ (-1000 + (d2 - 1 + ey)) < 2 ^ (d1 + ex)).
    { rewrite pow2_add.
      apply Qle_lt_trans with (2 := HXu). apply Qle_trans with (2 := HXY).
      apply Qmult_le_l; [apply pow2_pos | exact HYl]. }
    apply pow2_lt_inv in H3. lia. }
  rewrite fexp_normal by lia.
  set (e' := Z.min (d1 + ex - (d2 + ey) - 53) (ex - ey)).
  set (s := (ex - ey - e')%Z).
  assert (Hs : (0 <= s)%Z) by (unfold s, e'; lia).
  assert (Hs53 : (53 - d1 + d2 <= s)%Z) by (unfold s, e'; lia).
  set (m' := match s with
             | Zpos _ => Z.shiftl (Zpos mx) s
             | Z0 => Zpos mx
             | Zneg _ => 0%Z
             end).
  assert (Em' : m' = (Zpos mx * 2 ^ s)%Z).
  { unfold m'. destruct s as [| p | p] eqn:Es; try lia.
    apply Z.shiftl_mul_pow2. lia. }
  clearbody m'.
  pose proof (Z.pow_pos_nonneg 2 s ltac:(lia) Hs) as P2s.
  set (q := (m' / Zpos my)%Z). set (r := (m' mod Zpos my)%Z).
  assert (Eqr : m' = (Zpos my * q + r)%Z) by (apply Z.div_mod; lia).
  assert (Hr : (0 <= r < Zpos my)%Z) by (apply Z.mod_pos_bound; lia).
  (* the quotient has at least 53 bits *)
  assert (Hq52 : (2 ^ 52 <= q)%Z).
  { apply Z.div_le_lower_bound; [lia |].
    apply Z.le_trans with (2 ^ d2 * 2 ^ 52)%Z; [nia |].
    rewrite <- Z.pow_add_r by lia.
    apply Z.le_trans with (2 ^ (d1 - 1) * 2 ^ s)%Z; [| nia].
    rewrite <- Z.pow_add_r by lia. apply Z.pow_le_mono_r; lia. }
  assert (Hq : (0 < q)%Z) by lia.
  assert (Hdq : (53 <= Zdigits2 q)%Z).
  { pose proof (Zdigits2_gt q ltac:(lia)) as Uq.
    destruct (Z.le_gt_cases 53 (Zdigits2 q)) as [| G]; [assumption | exfalso].
    assert (2 ^ Zdigits2 q <= 2 ^ 52)%Z by (apply Z.pow_le_mono_r; lia). lia. }
  (* the quotient of the values *)
  pose proof (new_location_inbetween (Zpos my) r q ltac:(lia) Hr) as Hin.
  set (X0 := inject_Z q + inject_Z r / inject_Z (Zpos my)) in *.
  assert (HMy : 0 < inject_Z (Zpos my)) by reflexivity.
  assert (EX0 : X0 == inject_Z m' / inject_Z (Zpos my)).
  { unfold X0. rewrite Eqr, inject_Z_plus, inject_Z_mult. field. lra. }
  assert (EXY : X / Y == X0 * 2 ^ e').
  { rewrite EX0, EX, EY, Em', inject_Z_mult, (pow2_inject s) by lia.
    assert (Ee : 2 ^ ex == 2 ^ s * 2 ^ ey * 2 ^ e').
    { rewrite <- !pow2_add. replace (s + ey + e')%Z with ex by (unfold s; lia).
      reflexivity. }
    rewrite Ee. field. split; intros E0; rewrite E0 in *; lra. }
  rewrite EXY in HR.
  assert (B0 : inject_Z q <= X0 /\ X0 < inject_Z q + 1).
  { destruct (new_location (Zpos my) r) as [| []]; cbn [inbetween] in Hin; lra. }
  destruct B0 as [B0 B1].
  pose proof (mantissa_range q (-1000) 900 e' X0 Hq B0 B1 HR) as [R1 R2].
  destruct (binary_round_aux_error false q e' (new_location (Zpos my) r) X0
              Hq Hin ltac:(lia) ltac:(lia) (or_intror Hdq))
    as (m & e & Er & Hr').
  rewrite Er.
  destruct (finite_value m e) as (v & Ev & Hv).
  exists v. split; [exact Ev |].
  rewrite Hv, EXY. exact Hr'.
Qed.

(** *** The rounding to two decimals *)

Lemma value_100 :
  exists h : Q, float64_value (dec 100 0) = Some h /\ h == 100.
Proof. eexists. split; [vm_compute; reflexivity | reflexivity]. Qed.

Lemma value_1000 :
  exists h : Q, float64_value (dec 1000 0) = Some h /\ h == 1000.
Proof. eexists. split; [vm_compute; reflexivity | reflexivity]. Qed.

Lemma has_value_elim (x : float64) (q : Q) :
  has_value x q -> exists v : Q, float64_value x = Some v /\ v == q.
Proof.
  unfold has_value. destruct (float64_value x) as [v |]; [| contradiction].
  intros H. exists v. split; [reflexivity | exact H].
Qed.

Lemma zero_value (x : float64) (X : Q) :
  float64_value x = Some X -> X == 0 -> exists s : bool, x = S754_zero s.
Proof.
  intros Hv H0. destruct x as [s | s | | s m e]; try discriminate Hv.
  - exists s. reflexivity.
  - exfalso. destruct (float64_value_finite s m e) as (v & Ev & Hveq).
    rewrite Ev in Hv. injection Hv as <-. rewrite H0 in Hveq.
    symmetry in Hveq. apply Qmult_integral in Hveq.
    pose proof (pow2_pos e). destruct Hveq as [Hz | Hz]; [| lra].
    destruct s; discriminate Hz.
Qed.

Lemma range_small (x : Q) :
  (1 # 1000000000000) <= x <= 1000000000000000 ->
  2 ^ (-1000) <= x <= 2 ^ 900.
Proof.
  intros [L U]. split.
  - apply Qle_trans with (2 := L). vm_compute. discriminate.
  - apply Qle_trans with (1 := U). vm_compute. discriminate.
Qed.

Lemma round2_error (v : float64) (V : Q) :
  float64_value v = Some V ->
  (1 # 1000000000) <= V <= 1000000000 ->
  exists O : Q,
    float64_value (round2 v) = Some O /\
    Qabs (O - V) <= (1 # 200) + 4 * u64 * (V + 1).
Proof.
  intros Hv [HVl HVu].
  destruct value_100 as (h & Eh & Hh).
  destruct (SFmul_error v (dec 100 0) V h Hv Eh) as (y & Ey & Hy);
    [lra | lra | apply range_small; rewrite Hh; split; lra |].
  rewrite Hh in Hy. apply Qabs_Qle_condition in Hy. destruct Hy as [Hy1 Hy2].
  unfold u64 in *.
  pose proof (Math_round_value (v * dec 100 0)%num y
                (SFmul_bounded v (dec 100 0)) Ey) as HN.
  pose proof (Qfloor_nearest y) as [HN1 HN2].
  set (N := Qfloor (y + (1 # 2))) in *.
  apply has_value_elim in HN. destruct HN as (n & En & HN).
  unfold round2.
  destruct (Z.eq_dec N 0%Z) as [N0 | Nn].
  - (* less than half a hundredth: the result is 0 *)
    rewrite N0 in *. change (inject_Z 0) with 0 in *.
    destruct (zero_value _ n En HN) as (s & Es).
    rewrite Es. exists 0. split; [destruct s; vm_compute; reflexivity |].
    apply Qabs_Qle_condition. split; lra.
  - assert (HNp : 1 <= inject_Z N).
    { assert (0 <= N)%Z.
      { unfold N. change 0%Z with (Qfloor 0). apply Qfloor_resp_le. lra. }
      change 1 with (inject_Z 1). rewrite <- Zle_Qle. lia. }
    destruct (SFdiv_error _ (dec 100 0) n h En Eh) as (O & EO & HO);
      [lra | lra | apply range_small; rewrite Hh, HN; split |].
    + apply Qle_shift_div_l; lra.
    + apply Qle_shift_div_r; lra.
    + exists O. split; [exact EO |].
      rewrite Hh, HN in HO. apply Qabs_Qle_condition in HO. destruct HO as [HO1 HO2].
      unfold Qdiv, u64 in *. change (/ 100) with (1 # 100) in *.
      clearbody N.
      apply Qabs_Qle_condition. split; lra.
Qed.

(** A coefficient times a quantity, divided by 1000 and rounded to two
    decimals, all in doubles: the result is within half a hundredth (and
    half a billionth) of the exact product. *)
Lemma rounded_product_error (c q : float64) (C Qv : Q) :
  float64_value c = Some C -> float64_value q = Some Qv ->
  (1 # 100) <= C <= 2000 -> 1 <= Qv <= 100000 ->
  exists O : Q,
    float64_value (round2 (c * q / dec 1000 0)%num) = Some O /\
    Qabs (O - C * Qv / 1000) <= (1 # 200) + (1 # 2000000000).
Proof.
  intros Hc Hq [HCl HCu] [HQl HQu].
  assert (HE : (1 # 100) <= C * Qv <= 200000000) by (split; nra).
  destruct value_1000 as (t & Et & Ht).
  destruct (SFmul_error c q C Qv Hc Hq) as (P & EP & HP);
    [lra | lra | apply range_small; split; lra |].
  set (E0 := C * Qv) in *. clearbody E0.
  apply Qabs_Qle_condition in HP. destruct HP as [HP1 HP2]. unfold u64 in *.
  destruct (SFdiv_error _ (dec 1000 0) P t EP Et) as (W & EW & HW);
    [lra | lra | apply range_small; rewrite Ht; split |].
  - apply Qle_shift_div_l; lra.
  - apply Qle_shift_div_r; lra.
  - rewrite Ht in HW. apply Qabs_Qle_condition in HW. destruct HW as [HW1 HW2].
    unfold Qdiv, u64 in *. change (/ 1000) with (1 # 1000) in *.
    destruct (round2_error _ W EW) as (O & EO & HO); [split; lra |].
    exists O. split; [exact EO |].
    apply Qabs_Qle_condition in HO. destruct HO as [HO1 HO2]. unfold u64 in *.
    apply Qabs_Qle_condition. split; lra.
Qed.

End Rounding.

(** [Math.round(v * 100) / 100] rounds the double [v] to two decimals. *)
Lemma round2_float64 (v : float64) : rounded_to_2_decimals v (round2 v).
Proof.
  exists (Math_round (v * dec 100 0)%num). split; [reflexivity |].
  destruct (float64_value (v * dec 100 0)%num) as [y |] eqn:E.
  - exists (Qfloor (y + (1 # 2))). split.
    + apply Math_round_value; [apply SFmul_bounded | exact E].
    + apply Qfloor_nearest.
  - destruct (v * dec 100 0)%num as [s | s | | s m e] eqn:Ey;
      try discriminate E; reflexivity.
Qed.

(** ** Properties of the KPI calculation *)

Lemma calculateKPIs_rounds {num : Type} `{Number num} (s : LCAScenario num) :
  co2Footprint (calculateKPIs s) = round2 (co2Footprint_raw (inputs s)) /\
  energyUse (calculateKPIs s) = round2 (energyUse_raw (inputs s)) /\
  waterUse (calculateKPIs s) = round2 (waterUse_raw (inputs s)).
Proof.
  destruct s as [n t [m ms es tm d l q]].
  unfold calculateKPIs, co2Footprint_raw, energyUse_raw, waterUse_raw, round2; cbn.
  destruct ms; cbn; auto.
Qed.

(** Multiplying the initial multiplier 1 by 0.15, 0.05 or 0.3 changes
    nothing, so the multipliers of the code are those of the
    specification's table. *)
Lemma multipliers_float64 :
  (dec 1 0 * dec 15 2)%num = dec (num:=float64) 15 2 /\
  (dec 1 0 * dec 5 2)%num = dec (num:=float64) 5 2 /\
  (dec 1 0 * dec 3 1)%num = dec (num:=float64) 30 2.
Proof. vm_compute. repeat split; reflexivity. Qed.

Lemma raw_values_float64 (i : LCAInputs float64) :
  co2Footprint_raw i = spec_co2_formula i /\
  energyUse_raw i = (spec_energy_coefficient i * quantity i / dec 1000 0)%num /\
  waterUse_raw i = (spec_water_coefficient i * quantity i / dec 1000 0)%num.
Proof.
  destruct multipliers_float64 as (E1 & E2 & E3).
  destruct i as [m ms es tm d l q].
  unfold co2Footprint_raw, energyUse_raw, waterUse_raw, spec_co2_formula,
    spec_co2_coefficient, spec_energy_coefficient, spec_water_coefficient,
    spec_co2Multiplier, spec_energyMultiplier, spec_waterMultiplier; cbn.
  destruct m, ms, es, l; cbn; rewrite ?E1, ?E2, ?E3; repeat split; reflexivity.
Qed.

(** *** The outputs against the exact products *)

(** The co2 coefficient of every configuration with a distance the slider
    offers, and the energy and water coefficients of every configuration,
    are what the exact formulas give, up to 10^-14. *)
Lemma co2_coefficients_on_slider (m : Metal) (ms : MaterialSource)
    (es : EnergySource) (l : EndOfLife) :
  forallb (fun d => co2_coefficient_close (configuration m ms es l d))
          distance_slider
  = true.
Proof. destruct m, ms, es, l; vm_compute; reflexivity. Qed.

Lemma energy_water_coefficients (m : Metal) (ms : MaterialSource) :
  close (spec_base_energy m * spec_energyMultiplier ms)%num
        (spec_base_energy m * spec_energyMultiplier ms)%num = true /\
  close (spec_base_water m * spec_waterMultiplier ms)%num
        (spec_base_water m * spec_waterMultiplier ms)%num = true.
Proof. destruct m, ms; vm_compute; split; reflexivity. Qed.

Section Outputs.
Local Open Scope Q_scope.

Lemma close_elim (c : float64) (Ce : Q) :
  close c Ce = true ->
  exists C : Q,
    float64_value c = Some C /\ (1 # 100) <= C <= 2000 /\
    Qabs (C - Ce) <= 1 # 100000000000000.
Proof.
  unfold close. destruct (float64_value c) as [C |]; [| discriminate].
  intros H. apply andb_prop in H as [H H3]. apply andb_prop in H as [H1 H2].
  apply Qle_bool_iff in H1, H2, H3. exists C. repeat split; assumption.
Qed.

(** An output of the calculator against the exact product. *)
Lemma output_close (c q : float64) (Ce Qv : Q) :
  close c Ce = true ->
  float64_value q = Some Qv -> 1 <= Qv <= 100000 ->
  exists O : Q,
    float64_value (round2 (c * q / dec 1000 0)%num) = Some O /\
    Qabs (O - Ce * Qv / 1000) <= (1 # 200) + (1 # 1000000000).
Proof.
  intros Hc Hq [HQl HQu].
  destruct (close_elim c Ce Hc) as (C & EC & HC & HCe).
  destruct (rounded_product_error c q C Qv EC Hq HC (conj HQl HQu))
    as (O & EO & HO).
  exists O. split; [exact EO |].
  apply Qabs_Qle_condition in HCe, HO. destruct HCe as [D1 D2], HO as [O1 O2].
  assert (HD : - (1 # 1000000000) <= C * Qv - Ce * Qv <= 1 # 1000000000)
    by (split; nra).
  unfold Qdiv in *. change (/ 1000) with (1 # 1000) in *.
  set (P := C * Qv) in *. set (Pe := Ce * Qv) in *. clearbody P Pe.
  apply Qabs_Qle_condition. split; lra.
Qed.

(** Two quantities, one [k] times the other. *)
Lemma output_scaling (c q q' : float64) (Ce Qv Qv' k : Q) :
  close c Ce = true ->
  float64_value q = Some Qv -> float64_value q' = Some Qv' ->
  1 <= Qv <= 100000 -> 1 <= Qv' <= 100000 -> Qv' == k * Qv ->
  exists O O' : Q,
    float64_value (round2 (c * q / dec 1000 0)%num) = Some O /\
    float64_value (round2 (c * q' / dec 1000 0)%num) = Some O' /\
    Qabs (O' - k * O) <= (k + 1) * ((1 # 200) + (1 # 1000000000)).
Proof.
  intros Hc Hq Hq' HQ HQ' Ek.
  destruct (output_close c q Ce Qv Hc Hq HQ) as (O & EO & HO).
  destruct (output_close c q' Ce Qv' Hc Hq' HQ') as (O' & EO' & HO').
  exists O, O'. split; [exact EO |]. split; [exact EO' |].
  assert (Hk : 0 < k) by nra.
  apply Qabs_Qle_condition in HO, HO'. destruct HO as [A1 A2], HO' as [B1 B2].
  rewrite Ek in B1, B2.
  unfold Qdiv in *. change (/ 1000) with (1 # 1000) in *.
  set (E := Ce * Qv * (1 # 1000)) in *.
  assert (EE : Ce * (k * Qv) * (1 # 1000) == k * E) by (unfold E; ring).
  rewrite EE in B1, B2. clearbody E.
  set (B := (1 # 200) + (1 # 1000000000)) in *.
  assert (HB : 0 < B) by reflexivity. clearbody B.
  apply Qabs_Qle_condition. split; nra.
Qed.

(** The three coefficients of a configuration with a slider distance. *)
Lemma coefficients_close (s : LCAScenario float64) (d : Z) (Qv : Q) :
  List.In d distance_slider -> transportDistance (inputs s) = dec d 0 ->
  float64_value (quantity (inputs s)) = Some Qv ->
  exists i : LCAInputs Q,
    exact_inputs (inputs s) = Some i /\ quantity i = Qv /\
    close (spec_co2_coefficient (inputs s)) (spec_co2_coefficient i) = true /\
    close (spec_energy_coefficient (inputs s)) (spec_energy_coefficient i) = true /\
    close (spec_water_coefficient (inputs s)) (spec_water_coefficient i) = true.
Proof.
  intros Hd Ed Hq. destruct s as [n t [m ms es tm dd l q]]. cbn in Ed, Hq. subst dd.
  pose proof (proj1 (List.forallb_forall _ _)
                (co2_coefficients_on_slider m ms es l) d Hd) as C.
  cbv beta in C. unfold co2_coefficient_close, exact_inputs in C.
  cbn [configuration transportDistance quantity metal materialSource energySource
       transportMode endOfLife] in C.
  unfold exact_inputs. cbn [inputs transportDistance quantity metal materialSource
       energySource transportMode endOfLife].
  change (@dec float64 float64_Number d 0) with (F64.lit d 0) in *.
  destruct (float64_value (F64.lit d 0)) as [dv |] eqn:Edv; [| discriminate C].
  rewrite Hq.
  destruct (float64_value (dec 1 0)) as [one |]; [| discriminate C].
  eexists. split; [reflexivity |]. split; [reflexivity |].
  destruct (energy_water_coefficients m ms) as [He Hw].
  split; [exact C |]. split; [exact He | exact Hw].
Qed.

Lemma rounded_outputs (s : LCAScenario float64) :
  co2Footprint (calculateKPIs s)
  = round2 (spec_co2_coefficient (inputs s) * quantity (inputs s) / dec 1000 0)%num /\
  energyUse (calculateKPIs s)
  = round2 (spec_energy_coefficient (inputs s) * quantity (inputs s) / dec 1000 0)%num /\
  waterUse (calculateKPIs s)
  = round2 (spec_water_coefficient (inputs s) * quantity (inputs s) / dec 1000 0)%num.
Proof.
  destruct (calculateKPIs_rounds s) as (-> & -> & ->).
  destruct (raw_values_float64 (inputs s)) as (-> & -> & ->).
  repeat split; reflexivity.
Qed.

Lemma co2Footprint_close_to_formula (s : LCAScenario float64) (d : Z) (Qv : Q) :
  List.In d distance_slider -> transportDistance (inputs s) = dec d 0 ->
  float64_value (quantity (inputs s)) = Some Qv -> 1 <= Qv <= 100000 ->
  exists (i : LCAInputs Q) (O : Q),
    exact_inputs (inputs s) = Some i /\
    float64_value (co2Footprint (calculateKPIs s)) = Some O /\
    Qabs (O - spec_co2_formula i) <= (1 # 200) + (1 # 1000000000).
Proof.
  intros Hd Ed Hq HQ.
  destruct (coefficients_close s d Qv Hd Ed Hq) as (i & Ei & Eqi & Hc & _).
  destruct (rounded_outputs s) as (-> & _).
  destruct (output_close _ _ _ Qv Hc Hq HQ) as (O & EO & HO).
  exists i, O. split; [exact Ei |]. split; [exact EO |].
  unfold spec_co2_formula. rewrite Eqi. exact HO.
Qed.

Lemma KPIs_scale_close (s : LCAScenario float64) (d : Z) (q q' : float64)
    (Qv Qv' k : Q) :
  List.In d distance_slider -> transportDistance (inputs s) = dec d 0 ->
  float64_value q = Some Qv -> float64_value q' = Some Qv' ->
  1 <= Qv <= 100000 -> 1 <= Qv' <= 100000 -> Qv' == k * Qv ->
  let K := calculateKPIs (with_inputs s (assign (inputs s) (set_quantity q))) in
  let K' := calculateKPIs (with_inputs s (assign (inputs s) (set_quantity q'))) in
  (exists O O' : Q,
      float64_value (co2Footprint K) = Some O /\
      float64_value (co2Footprint K') = Some O' /\
      Qabs (O' - k * O) <= (k + 1) * ((1 # 200) + (1 # 1000000000))) /\
  (exists O O' : Q,
      float64_value (energyUse K) = Some O /\
      float64_value (energyUse K') = Some O' /\
      Qabs (O' - k * O) <= (k + 1) * ((1 # 200) + (1 # 1000000000))) /\
  (exists O O' : Q,
      float64_value (waterUse K) = Some O /\
      float64_value (waterUse K') = Some O' /\
      Qabs (O' - k * O) <= (k + 1) * ((1 # 200) + (1 # 1000000000))).
Proof.
  intros Hd Ed Hq Hq' HQ HQ' Ek K K'. subst K K'.
  destruct (rounded_outputs (with_inputs s (assign (inputs s) (set_quantity q))))
    as (-> & -> & ->).
  destruct (rounded_outputs (with_inputs s (assign (inputs s) (set_quantity q'))))
    as (-> & -> & ->).
  destruct (coefficients_close
              (with_inputs s (assign (inputs s) (set_quantity q))) d Qv Hd)
    as (i & Ei & Eqi & Hc & He & Hw).
  { destruct s as [n t [m ms es tm dd l q0]]. exact Ed. }
  { destruct s as [n t [m ms es tm dd l q0]]. exact Hq. }
  destruct s as [n t [m ms es tm dd l q0]].
  cbn [with_inputs assign inputs quantity] in *.
  repeat split.
  - exact (output_scaling _ q q' _ Qv Qv' k Hc Hq Hq' HQ HQ' Ek).
  - exact (output_scaling _ q q' _ Qv Qv' k He Hq Hq' HQ HQ' Ek).
  - exact (output_scaling _ q q' _ Qv Qv' k Hw Hq Hq' HQ HQ' Ek).
Qed.
End Outputs.

(** For aluminum, primary, coal, 0 km, landfill and 3900 kg the formula
    gives 11.9 x 1.5 x 3900 / 1000 = 69.615, which rounded to 2 decimals is
    69.62; the calculator returns the double 69.61, which is more than
    half a hundredth away from 69.615. *)
Lemma co2Footprint_exact_formula_fails :
  co2Footprint (calculateKPIs coal_3900kg) = dec 6961 2 /\
  (exists i : LCAInputs Q,
      exact_inputs (inputs coal_3900kg) = Some i /\
      (spec_co2_formula i == 69.615)%Q /\
      hundredths (spec_co2_formula i) = 6962%Z) /\
  (exists v : Q,
      float64_value (co2Footprint (calculateKPIs coal_3900kg)) = Some v /\
      (v < 69.61)%Q) /\
  ~ co2Footprint_as_claimed coal_3900kg.
Proof.
  split; [vm_compute; reflexivity |].
  split.
  { eexists. split; [reflexivity |]. split; vm_compute; reflexivity. }
  split.
  { eexists. split; [vm_compute; reflexivity |]. vm_compute. reflexivity. }
  intros E. vm_compute in E. discriminate E.
Qed.

(** C1, as amended. For every input configuration the calculator's
    co2Footprint is the value of (base.co2 x combined material/energy
    multiplier + distance x 0.0001) x end-of-life factor x quantity / 1000,
    computed in doubles from left to right, rounded to 2 decimals: it is
    n / 100 for the integer n nearest to a hundred times that value, a tie
    going upwards.  For every distance the slider offers and every quantity
    from 1 kg to 100000 kg it lies within 0.005 + 10^-9 of the formula
    evaluated exactly.  For aluminum, primary, grid, 500 km, landfill,
    1000 kg it is the double written 11.95, as the formula read exactly
    gives it; for the seeded circular scenario, whose value is 1.468, it is
    1.47; for aluminum, primary, coal, 0 km, landfill, 3900 kg it is
    69.61. *)
Theorem co2Footprint_formula_binary64 :
  (forall s : LCAScenario float64,
      rounded_to_2_decimals (spec_co2_formula (inputs s))
                            (co2Footprint (calculateKPIs s))) /\
  (forall (s : LCAScenario float64) (d : Z) (Qv : Q),
      List.In d distance_slider -> transportDistance (inputs s) = dec d 0 ->
      float64_value (quantity (inputs s)) = Some Qv ->
      (1 <= Qv <= 100000)%Q ->
      exists (i : LCAInputs Q) (O : Q),
        exact_inputs (inputs s) = Some i /\
        float64_value (co2Footprint (calculateKPIs s)) = Some O /\
        (Qabs (O - spec_co2_formula i) <= (1 # 200) + (1 # 1000000000))%Q) /\
  co2Footprint (calculateKPIs (num:=float64) conventionalScenario) = dec 1195 2 /\
  co2Footprint_as_claimed conventionalScenario /\
  co2Footprint (calculateKPIs (num:=float64) circularScenario) = dec 147 2 /\
  co2Footprint_as_claimed circularScenario /\
  co2Footprint (calculateKPIs coal_3900kg) = dec 6961 2.
Proof.
  split.
  { intros s. destruct (rounded_outputs s) as (-> & _). apply round2_float64. }
  split.
  { exact co2Footprint_close_to_formula. }
  vm_compute. repeat split; reflexivity.
Qed.

(** At 3900 kg of aluminum from coal the double returned, 69.61, is within
    0.005 + 10^-9 of the formula's 69.615. *)
Lemma co2Footprint_formula_binary64_witness :
  List.In 0%Z distance_slider /\
  transportDistance (inputs coal_3900kg) = dec 0 0 /\
  (exists Qv : Q,
      float64_value (quantity (inputs coal_3900kg)) = Some Qv /\
      (Qv == 3900)%Q /\ (1 <= Qv <= 100000)%Q) /\
  exists (i : LCAInputs Q) (O : Q),
    exact_inputs (inputs coal_3900kg) = Some i /\
    float64_value (co2Footprint (calculateKPIs coal_3900kg)) = Some O /\
    (Qabs (O - spec_co2_formula i) <= (1 # 200) + (1 # 1000000000))%Q.
Proof.
  assert (Hd : List.In 0%Z distance_slider) by (vm_compute; tauto).
  assert (HQ : (1 <= 8576190696652800 # 2199023255552 <= 100000)%Q)
    by (split; vm_compute; discriminate).
  split; [exact Hd |]. split; [reflexivity |].
  split.
  { eexists. split; [vm_compute; reflexivity |]. split; [reflexivity | exact HQ]. }
  exact (proj1 (proj2 co2Footprint_formula_binary64) coal_3900kg 0%Z
           (8576190696652800 # 2199023255552)%Q Hd eq_refl eq_refl HQ).
Defined.

(** C5. recycledContent is 85 and costSavings is 1250 for recycled material
    and both are 0 for primary material, whatever the other inputs and the
    scenario type; circularityIndex is 75 for a circular scenario and 25
    otherwise, whatever the inputs (and, the two numbers being different,
    75 exactly when the scenario is circular). *)
Theorem constant_KPIs :
  (forall (num : Type) (N : Number num) (s : LCAScenario num),
      recycledContent (calculateKPIs s)
        = match materialSource (inputs s) with
          | recycled => dec 85 0
          | primary => dec 0 0
          end /\
      costSavings (calculateKPIs s)
        = match materialSource (inputs s) with
          | recycled => dec 1250 0
          | primary => dec 0 0
          end /\
      circularityIndex (calculateKPIs s)
        = match type s with
          | circular => dec 75 0
          | conventional => dec 25 0
          end) /\
  (forall s : LCAScenario Q,
      (circularityIndex (calculateKPIs s) == 75)%Q <-> type s = circular) /\
  (forall s : LCAScenario float64,
      circularityIndex (calculateKPIs s) = dec 75 0 <-> type s = circular).
Proof.
  split; [| split].
  - intros num N [n t [m ms es tm d l q]].
    unfold calculateKPIs; cbn.
    destruct (materialMultipliers ms) as [[c e] w]; cbn.
    destruct ms, t; auto.
  - intros [n t i]; unfold calculateKPIs; cbn.
    destruct (materialMultipliers (materialSource i)) as [[c e] w]; cbn.
    destruct t; split; intros E; try reflexivity; discriminate E.
  - intros [n t i]; unfold calculateKPIs; cbn.
    destruct (materialMultipliers (materialSource i)) as [[c e] w]; cbn.
    destruct t; split; intros E; try reflexivity; vm_compute in E; discriminate E.
Qed.

(** C8. Two configurations with the same metal, material source and
    quantity get the same energyUse and the same waterUse, whatever their
    energy sources, transport modes, distances, end-of-life options and
    scenario types. *)
Theorem energy_water_depend_on_metal_source_quantity
    (num : Type) (N : Number num) (s1 s2 : LCAScenario num) :
  metal (inputs s1) = metal (inputs s2) ->
  materialSource (inputs s1) = materialSource (inputs s2) ->
  quantity (inputs s1) = quantity (inputs s2) ->
  energyUse (calculateKPIs s1) = energyUse (calculateKPIs s2) /\
  waterUse (calculateKPIs s1) = waterUse (calculateKPIs s2).
Proof.
  destruct s1 as [n1 t1 [m1 ms1 es1 tm1 d1 l1 q1]].
  destruct s2 as [n2 t2 [m2 ms2 es2 tm2 d2 l2 q2]].
  cbn. intros -> -> ->.
  unfold calculateKPIs; cbn.
  destruct (materialMultipliers ms2) as [[c e] w]; cbn.
  split; reflexivity.
Qed.

Lemma energy_water_depend_on_metal_source_quantity_witness :
  energyUse (calculateKPIs (num:=float64) conventionalScenario)
    = energyUse (calculateKPIs
        (with_inputs circularScenario
           (assign (assign (assign (inputs conventionalScenario)
              (set_energySource coal)) (set_transportDistance (dec 2500 0)))
              (set_endOfLife recycling)))) /\
  waterUse (calculateKPIs (num:=float64) conventionalScenario)
    = waterUse (calculateKPIs
        (with_inputs circularScenario
           (assign (assign (assign (inputs conventionalScenario)
              (set_energySource coal)) (set_transportDistance (dec 2500 0)))
              (set_endOfLife recycling)))).
Proof.
  apply energy_water_depend_on_metal_source_quantity; reflexivity.
Defined.

(** *** Rounding in exact arithmetic *)

Lemma Q_round_le (x y : Q) : (x <= y)%Q -> (Q_round x <= Q_round y)%Q.
Proof.
  intros L. unfold Q_round. rewrite <- Zle_Qle.
  apply Qfloor_resp_le. lra.
Qed.

Lemma round2_Q_eq (x : Q) : round2 x = (Q_round (x * 100) * (1 # 100))%Q.
Proof. reflexivity. Qed.

Lemma round2_Q_le (x y : Q) : (x <= y)%Q -> (round2 x <= round2 y)%Q.
Proof.
  intros L. rewrite !round2_Q_eq.
  assert (Q_round (x * 100) <= Q_round (y * 100))%Q by (apply Q_round_le; lra).
  lra.
Qed.

(** *** Ordering by energy source, exact arithmetic *)




(** The same ordering in binary64, for the two seeded scenarios at every
    quantity the slider offers: renewables <= grid <= coal. *)
Lemma energy_source_order_float64 :
  forallb
    (fun s : LCAScenario float64 =>
       forallb
         (fun q =>
            let co2_with e :=
              co2Footprint (calculateKPIs (with_inputs s
                (assign (assign (inputs s) (set_quantity (dec q 0)))
                        (set_energySource e)))) in
            let g := co2_with grid in
            SFleb (co2_with renewables) g && SFleb g (co2_with coal))
         quantity_slider)
    [conventionalScenario; circularScenario] = true.
Proof. vm_compute. reflexivity. Qed.

(** *** Scaling with the quantity *)

(** The default inputs (aluminum, primary, grid, 500 km, recycling) at
    100 kg give 0.96 kg of CO2 and at 1000 kg give 9.56 kg, not 9.6 kg. *)
Lemma scales_linearly_fails :
  let s := {| name := "Default"; type := conventional;
              inputs := assign defaultInputs (set_quantity 100%Q) |} in
  (0 < quantity (inputs s))%Q /\
  (co2Footprint (calculateKPIs s) == 0.96)%Q /\
  (co2Footprint (calculateKPIs (with_inputs s (scale_quantity 10 (inputs s))))
     == 9.56)%Q /\
  ~ scales_linearly s 10.
Proof.
  cbv zeta. repeat split; try (vm_compute; reflexivity).
  intros [E _]. vm_compute in E. discriminate E.
Qed.

(** The same run in binary64: 0.96 at 100 kg and 9.56 at 1000 kg, while ten
    times 0.96 is 9.6. *)
Lemma tenfold_quantity_float64 :
  let s := {| name := "Default"; type := conventional;
              inputs := assign defaultInputs (set_quantity (dec 100 0)) |} in
  co2Footprint (calculateKPIs (num:=float64) s) = dec 96 2 /\
  co2Footprint (calculateKPIs
    (with_inputs s (scale_quantity (dec 10 0) (inputs s)))) = dec 956 2 /\
  (dec 10 0 * dec 96 2)%num = dec (num:=float64) 96 1.
Proof. vm_compute. repeat split; reflexivity. Qed.

(** C3, as amended. For every input configuration and every quantity,
    each of co2Footprint, energyUse and waterUse is a value proportional to
    the quantity, rounded to 2 decimals: the value is coefficient x
    quantity / 1000 computed in doubles from left to right, with the
    coefficients (base.co2 x multiplier + distance x 0.0001) x end-of-life
    factor, base.energy x multiplier and base.water x multiplier, none of
    which depends on the quantity; the output is n / 100 for the integer n
    nearest to a hundred times that value, a tie going upwards.  So
    multiplying the quantity by k multiplies each output by k up to that
    rounding only: for every distance the slider offers and quantities from
    1 kg to 100000 kg, the output for k times the quantity differs from k
    times the output by at most (k + 1) x (0.005 + 10^-9). *)
Theorem KPIs_scale_up_to_rounding_binary64 :
  (forall (s : LCAScenario float64) (q : float64),
      let K := calculateKPIs (with_inputs s (assign (inputs s) (set_quantity q))) in
      rounded_to_2_decimals
        (spec_co2_coefficient (inputs s) * q / dec 1000 0)%num (co2Footprint K) /\
      rounded_to_2_decimals
        (spec_energy_coefficient (inputs s) * q / dec 1000 0)%num (energyUse K) /\
      rounded_to_2_decimals
        (spec_water_coefficient (inputs s) * q / dec 1000 0)%num (waterUse K)) /\
  (forall (s : LCAScenario float64) (d : Z) (q q' : float64) (Qv Qv' k : Q),
      List.In d distance_slider -> transportDistance (inputs s) = dec d 0 ->
      float64_value q = Some Qv -> float64_value q' = Some Qv' ->
      (1 <= Qv <= 100000)%Q -> (1 <= Qv' <= 100000)%Q -> (Qv' == k * Qv)%Q ->
      let K := calculateKPIs (with_inputs s (assign (inputs s) (set_quantity q))) in
      let K' := calculateKPIs (with_inputs s (assign (inputs s) (set_quantity q'))) in
      (exists O O' : Q,
          float64_value (co2Footprint K) = Some O /\
          float64_value (co2Footprint K') = Some O' /\
          (Qabs (O' - k * O) <= (k + 1) * ((1 # 200) + (1 # 1000000000)))%Q) /\
      (exists O O' : Q,
          float64_value (energyUse K) = Some O /\
          float64_value (energyUse K') = Some O' /\
          (Qabs (O' - k * O) <= (k + 1) * ((1 # 200) + (1 # 1000000000)))%Q) /\
      (exists O O' : Q,
          float64_value (waterUse K) = Some O /\
          float64_value (waterUse K') = Some O' /\
          (Qabs (O' - k * O) <= (k + 1) * ((1 # 200) + (1 # 1000000000)))%Q)).
Proof.
  split.
  - intros s q K. subst K.
    destruct (rounded_outputs (with_inputs s (assign (inputs s) (set_quantity q))))
      as (-> & -> & ->).
    destruct s as [n t [m ms es tm d l q0]].
    repeat split; apply round2_float64.
  - exact KPIs_scale_close.
Qed.

(** Aluminum, primary, coal, 0 km, landfill: 1.79 at 100 kg and 141.01 at
    7900 kg, 79 times as much; 79 x 1.79 is 141.41, and the difference is
    within 80 x (0.005 + 10^-9). *)
Lemma KPIs_scale_up_to_rounding_binary64_witness :
  let K := calculateKPIs
             (with_inputs coal_3900kg
                (assign (inputs coal_3900kg) (set_quantity (dec 100 0)))) in
  let K' := calculateKPIs
              (with_inputs coal_3900kg
                 (assign (inputs coal_3900kg) (set_quantity (dec 7900 0)))) in
  co2Footprint K = dec 179 2 /\
  co2Footprint K' = dec 14101 2 /\
  exists O O' : Q,
    float64_value (co2Footprint K) = Some O /\
    float64_value (co2Footprint K') = Some O' /\
    (Qabs (O' - 79 * O) <= (79 + 1) * ((1 # 200) + (1 # 1000000000)))%Q.
Proof.
  intros K K'.
  split; [vm_compute; reflexivity |]. split; [vm_compute; reflexivity |].
  assert (Hd : List.In 0%Z distance_slider) by (vm_compute; tauto).
  assert (HQ : (1 <= 7036874417766400 # 70368744177664 <= 100000)%Q)
    by (split; vm_compute; discriminate).
  assert (HQ' : (1 <= 8686141859430400 # 1099511627776 <= 100000)%Q)
    by (split; vm_compute; discriminate).
  assert (Ek : (8686141859430400 # 1099511627776
                == 79 * (7036874417766400 # 70368744177664))%Q) by reflexivity.
  exact (proj1 (proj2 KPIs_scale_up_to_rounding_binary64 coal_3900kg 0%Z
                  (dec 100 0) (dec 7900 0) _ _ 79%Q
                  Hd eq_refl eq_refl eq_refl HQ HQ' Ek)).
Defined.

(** ** Properties of the flow list *)

(** For the seeded circular scenario (1000 kg, recycling) the edge from
    Recycling to Recycled Materials carries 0.85 t, not 0.765 t. *)
Lemma recycling_return_is_not_85pct_of_90pct :
  endOfLife (inputs (circularScenario (num:=Q))) = recycling /\
  Forall2 Qeq
    (map value (edges "Recycling" "Recycled Materials"
                  (generateFlowData (num:=Q) circularScenario)))
    [0.85]%Q /\
  ~ end_of_life_flows_as_claimed circularScenario.
Proof.
  split; [reflexivity |]. split.
  - vm_compute. repeat constructor.
  - intros (_ & E & _). vm_compute in E.
    inversion E as [| x y l l' Exy _]; subst. discriminate Exy.
Qed.

(** The same edge in binary64: it carries the double 0.85, while
    0.85 x 0.9 x 1000 / 1000 is another double. *)
Lemma recycling_return_float64 :
  map value (edges "Recycling" "Recycled Materials"
               (generateFlowData (num:=float64) circularScenario))
  = [dec 85 2] /\
  SFeqb (dec 85 2) (dec 85 2 * dec 9 1 * dec 1000 0 / dec 1000 0)%num = false.
Proof. vm_compute. split; reflexivity. Qed.

(** C2, as amended. With endOfLife=recycling the flow list has one edge
    from Use Phase to Recycling carrying 90% of the use-phase mass
    (quantity/1000), one edge from Use Phase to Waste carrying 10% of it,
    and one edge from Recycling to Recycled Materials carrying 85% of the
    use-phase mass; with endOfLife=landfill the one edge out of Use Phase
    goes to Waste and carries all of the use-phase mass, and nothing
    passes through Recycling. *)
Theorem end_of_life_flows (num : Type) (N : Number num) (s : LCAScenario num) :
  let flows := generateFlowData s in
  let base := baseQuantity s in
  match endOfLife (inputs s) with
  | recycling =>
      map value (edges "Use Phase" "Recycling" flows) = [(base * dec 9 1)%num] /\
      map value (edges "Use Phase" "Waste" flows) = [(base * dec 1 1)%num] /\
      map value (edges "Recycling" "Recycled Materials" flows)
        = [(base * dec 85 2)%num]
  | landfill =>
      map value (edges "Use Phase" "Waste" flows) = [base] /\
      edges "Use Phase" "Recycling" flows = [] /\
      edges "Recycling" "Recycled Materials" flows = []
  end.
Proof.
  destruct s as [n t [m ms es tm d l q]].
  unfold generateFlowData, baseQuantity, push; cbn.
  destruct l, ms, m, es; cbn; auto.
Qed.

Lemma total_values {num : Type} `{Number num} (flows : list (FlowData num)) :
  total flows = fold_left num_add (map value flows) (dec 0 0).
Proof.
  unfold total. generalize (dec 0 0).
  induction flows as [| f flows IH]; intros acc; cbn; [reflexivity | apply IH].
Qed.

Lemma material_input_values {num : Type} `{Number num} (s : LCAScenario num) :
  let flows := generateFlowData s in
  let base := baseQuantity s in
  match materialSource (inputs s) with
  | primary =>
      map value (edges "Raw Materials" "Production" flows) = [base] /\
      edges "Recycled Materials" "Production" flows = [] /\
      map value (materialInputEdges flows) = [base]
  | recycled =>
      map value (edges "Recycled Materials" "Production" flows)
        = [(base * dec 85 2)%num] /\
      map value (edges "Raw Materials" "Production" flows)
        = [(base * dec 15 2)%num] /\
      map value (materialInputEdges flows)
        = [(base * dec 85 2)%num; (base * dec 15 2)%num]
  end.
Proof.
  destruct s as [n t [m ms es tm d l q]].
  unfold generateFlowData, baseQuantity, push, materialInputEdges; cbn.
  destruct ms, l, m, es; cbn; auto.
Qed.

(** The sums of the edge values into and out of a stage, for every
    quantity the slider offers: one edge alone sums to its value; the
    recycled and the primary input edge sum to the base quantity or to the
    double just below it; the two edges out of Use Phase sum to the base
    quantity or to the double just above it; 85% of the base quantity is
    less than 90% of it. *)
Lemma node_sums_on_slider :
  forallb
    (fun q =>
       let base := (dec q 0 / dec 1000 0)%num in
       let sum l := fold_left num_add l (dec (num:=float64) 0 0) in
       float64_eqb (sum [base]) base
       && (float64_eqb (sum [base * dec 85 2; base * dec 15 2]%num) base
           || float64_eqb (sum [base * dec 85 2; base * dec 15 2]%num)
                (SFpred F64.prec F64.emax base))
       && (float64_eqb (sum [base * dec 9 1; base * dec 1 1]%num) base
           || float64_eqb (sum [base * dec 9 1; base * dec 1 1]%num)
                (SFsucc F64.prec F64.emax base))
       && SFltb (sum [base * dec 85 2]%num) (sum [base * dec 9 1]%num))
    quantity_slider = true.
Proof. vm_compute. reflexivity. Qed.

(** At 1700 kg of recycled material the two input edges carry the double
    just below 1.445 and the double 0.255, and their sum is the double just
    below 1.7: 1.6999999999999997. *)
Lemma material_inputs_sum_fails_at_1700kg :
  materialSource (inputs recycled_1700kg) = recycled /\
  map value (materialInputEdges (generateFlowData recycled_1700kg))
  = [SFpred F64.prec F64.emax (dec 1445 3); dec 255 3] /\
  baseQuantity recycled_1700kg = dec 17 1 /\
  total (materialInputEdges (generateFlowData recycled_1700kg))
  = SFpred F64.prec F64.emax (dec 17 1) /\
  ~ material_inputs_sum_as_claimed recycled_1700kg.
Proof.
  split; [reflexivity |].
  split; [vm_compute; reflexivity |].
  split; [vm_compute; reflexivity |].
  split; [vm_compute; reflexivity |].
  intros E. vm_compute in E. discriminate E.
Qed.

(** C6, as amended. With materialSource=primary one edge, Raw Materials to
    Production, carries the whole base quantity (quantity/1000); with
    materialSource=recycled an edge Recycled Materials to Production carries
    85% of it and an edge Raw Materials to Production carries 15% of it,
    each product rounded to a double.  For every quantity the slider offers
    the material input edges sum to quantity/1000 with primary material,
    and to quantity/1000 or the double just below it with recycled
    material. *)
Theorem material_input_flows_binary64 :
  (forall (num : Type) (N : Number num) (s : LCAScenario num),
      let flows := generateFlowData s in
      let base := baseQuantity s in
      match materialSource (inputs s) with
      | primary =>
          map value (edges "Raw Materials" "Production" flows) = [base] /\
          edges "Recycled Materials" "Production" flows = [] /\
          map value (materialInputEdges flows) = [base]
      | recycled =>
          map value (edges "Recycled Materials" "Production" flows)
            = [(base * dec 85 2)%num] /\
          map value (edges "Raw Materials" "Production" flows)
            = [(base * dec 15 2)%num] /\
          map value (materialInputEdges flows)
            = [(base * dec 85 2)%num; (base * dec 15 2)%num]
      end) /\
  (forall (s : LCAScenario float64) (q : Z),
      List.In q quantity_slider -> quantity (inputs s) = dec q 0 ->
      let sum := total (materialInputEdges (generateFlowData s)) in
      match materialSource (inputs s) with
      | primary => sum = baseQuantity s
      | recycled =>
          sum = baseQuantity s \/
          sum = SFpred F64.prec F64.emax (baseQuantity s)
      end).
Proof.
  split.
  - intros num N s. apply material_input_values.
  - intros s q Hq Eq sum. subst sum.
    pose proof (proj1 (List.forallb_forall _ _) node_sums_on_slider q Hq) as C.
    cbv zeta in C.
    apply andb_prop in C as [C _]. apply andb_prop in C as [C _].
    apply andb_prop in C as [C1 C2].
    rewrite total_values.
    pose proof (material_input_values s) as V; cbv zeta in V.
    unfold baseQuantity in *. rewrite Eq in *.
    destruct (materialSource (inputs s)); destruct V as (_ & _ & ->).
    + apply float64_eqb_eq, C1.
    + apply orb_prop in C2 as [C2 | C2]; [left | right];
        apply float64_eqb_eq, C2.
Qed.

Lemma material_input_flows_binary64_witness :
  List.In 1700%Z quantity_slider /\
  quantity (inputs recycled_1700kg) = dec 1700 0 /\
  total (materialInputEdges (generateFlowData recycled_1700kg))
  = SFpred F64.prec F64.emax (baseQuantity recycled_1700kg).
Proof.
  assert (Hq : List.In 1700%Z quantity_slider) by (vm_compute; tauto).
  split; [exact Hq |]. split; [reflexivity |].
  destruct (proj2 material_input_flows_binary64 recycled_1700kg 1700%Z Hq eq_refl)
    as [E | E].
  - vm_compute in E. discriminate E.
  - exact E.
Defined.

(** ** Properties of the input form *)

Section FormFacts.
Context {num : Type} `{Number num}.
Local Open Scope num_scope.

Lemma validateInputs_result (i : LCAInputs num) :
  snd (validateInputs i)
  = negb (quantity_invalid i || distance_negative i || distance_unrealistic i).
Proof.
  unfold validateInputs, quantity_invalid, distance_negative, distance_unrealistic.
  cbn [snd].
  destruct (quantity i <=? dec 0 0), (transportDistance i <? dec 0 0),
    (transportDistance i >? dec 10000 0); cbn [orb negb];
    case_bool_decide as E; try reflexivity;
    try (apply map_size_empty_iff in E; by apply insert_non_empty in E).
  by rewrite map_size_empty in E.
Qed.

Lemma validateInputs_quantity (i : LCAInputs num) :
  fst (validateInputs i) !! "quantity"
  = if quantity_invalid i then Some "Quantity must be greater than 0" else None.
Proof.
  unfold validateInputs, quantity_invalid. cbn [fst].
  destruct (quantity i <=? dec 0 0), (transportDistance i <? dec 0 0),
    (transportDistance i >? dec 10000 0); by simplify_map_eq.
Qed.

Lemma validateInputs_distance (i : LCAInputs num) :
  fst (validateInputs i) !! "transportDistance"
  = if distance_unrealistic i
    then Some "Distance seems unrealistic (>10,000 km)"
    else if distance_negative i then Some "Distance cannot be negative"
    else None.
Proof.
  unfold validateInputs, distance_negative, distance_unrealistic. cbn [fst].
  destruct (quantity i <=? dec 0 0), (transportDistance i <? dec 0 0),
    (transportDistance i >? dec 10000 0); by simplify_map_eq.
Qed.

Lemma handleSubmit_errors (st : FormState num) :
  errors (handleSubmit st) = fst (validateInputs (form_inputs st)).
Proof.
  unfold handleSubmit.
  destruct (validateInputs (form_inputs st)) as [e []]; reflexivity.
Qed.

(** Editing a field leaves no message next to it. *)
Lemma updateInput_clears (u : FieldUpdate num) (st : FormState num) :
  inlineMessage (errors (updateInput u st)) (key_of u) = None.
Proof.
  unfold updateInput, inlineMessage; cbn [errors].
  destruct (truthy (errors st !! key_of u)) eqn:T.
  - by rewrite lookup_insert_eq.
  - by rewrite T.
Qed.

(** The messages next to the other fields stay. *)
Lemma updateInput_other (u : FieldUpdate num) (st : FormState num) (k : string) :
  k <> key_of u ->
  inlineMessage (errors (updateInput u st)) k = inlineMessage (errors st) k.
Proof.
  intros Hk. unfold updateInput, inlineMessage; cbn [errors].
  destruct (truthy (errors st !! key_of u)); [| reflexivity].
  by rewrite lookup_insert_ne.
Qed.

(** Inputs that pass the three checks start the run and leave no error. *)
Lemma valid_inputs_start_run (st : FormState num) :
  quantity_invalid (form_inputs st) = false ->
  distance_negative (form_inputs st) = false ->
  distance_unrealistic (form_inputs st) = false ->
  errors (handleSubmit st) = ∅ /\
  calls (handleSubmit st)
  = (calls st ++
     [call_onRunLCA;
      call_toast "LCA Analysis Started"
        "Running life cycle assessment with current parameters..." false])%list.
Proof.
  unfold quantity_invalid, distance_negative, distance_unrealistic.
  intros Hq D1 D2.
  unfold handleSubmit, validateInputs. rewrite Hq, D1, D2.
  rewrite map_size_empty. by rewrite bool_decide_eq_true_2.
Qed.
End FormFacts.

(** C4. Submitting with a quantity <= 0, a distance < 0 or a distance > 10000
    does not call the run callback: the only call made is the "Validation
    Error" notification.  The message of each failed check is shown next to
    its field (the quantity message for a quantity <= 0, a distance message
    for a distance out of range), and editing the field afterwards removes
    the message next to it; once all three checks pass, submitting starts
    the run. *)
Theorem invalid_inputs_block_run (num : Type) (N : Number num) (st : FormState num) :
  quantity_invalid (form_inputs st)
  || distance_negative (form_inputs st)
  || distance_unrealistic (form_inputs st) = true ->
  let st' := handleSubmit st in
  (* the run is not started *)
  calls st'
  = (calls st ++
     [call_toast "Validation Error"
        "Please fix the input errors before running the analysis." true])%list /\
  ~ In call_onRunLCA (skipn (length (calls st)) (calls st')) /\
  (* the inline messages *)
  (quantity_invalid (form_inputs st) = true ->
   inlineMessage (errors st') "quantity" = Some "Quantity must be greater than 0") /\
  (distance_negative (form_inputs st) || distance_unrealistic (form_inputs st) = true ->
   inlineMessage (errors st') "transportDistance"
   = Some (if distance_unrealistic (form_inputs st)
           then "Distance seems unrealistic (>10,000 km)"
           else "Distance cannot be negative")) /\
  (* a correction clears the message and, when valid, lets the run start *)
  (forall v, inlineMessage (errors (updateInput (set_quantity v) st')) "quantity" = None) /\
  (forall v, inlineMessage (errors (updateInput (set_transportDistance v) st'))
               "transportDistance" = None) /\
  (forall u,
      let st'' := updateInput u st' in
      quantity_invalid (form_inputs st'')
      || distance_negative (form_inputs st'')
      || distance_unrealistic (form_inputs st'') = false ->
      In call_onRunLCA (calls (handleSubmit st'')) /\
      errors (handleSubmit st'') = ∅).
Proof.
  intros Hbad st'.
  assert (Hcalls : calls st'
    = (calls st ++
       [call_toast "Validation Error"
          "Please fix the input errors before running the analysis." true])%list).
  { subst st'. unfold handleSubmit.
    pose proof (validateInputs_result (form_inputs st)) as R.
    destruct (validateInputs (form_inputs st)) as [e v]; cbn [snd] in R.
    rewrite Hbad in R; cbn in R; subst v. reflexivity. }
  split; [exact Hcalls |].
  split.
  { rewrite Hcalls, skipn_app, skipn_all, Nat.sub_diag. cbn.
    intros [E | []]. discriminate E. }
  assert (He : errors st' = fst (validateInputs (form_inputs st)))
    by apply handleSubmit_errors.
  split.
  { intros Hq. unfold inlineMessage.
    rewrite He, validateInputs_quantity, Hq. reflexivity. }
  split.
  { intros Hd. unfold inlineMessage.
    rewrite He, validateInputs_distance.
    destruct (distance_unrealistic (form_inputs st)); [reflexivity |].
    cbn in Hd. rewrite orb_false_r in Hd. rewrite Hd. reflexivity. }
  split; [intros v; apply (updateInput_clears (set_quantity v)) |].
  split; [intros v; apply (updateInput_clears (set_transportDistance v)) |].
  intros u st'' Hok.
  apply orb_false_iff in Hok as [Hok H3].
  apply orb_false_iff in Hok as [H1 H2].
  destruct (valid_inputs_start_run st'' H1 H2 H3) as [E C].
  split; [| exact E].
  rewrite C. apply in_or_app. right. left. reflexivity.
Qed.

(** Quantity 0 (binary64), the other inputs at their defaults: the run is
    blocked and the quantity message shown; setting the quantity to
    1000 kg removes the message, and the next submission starts the run. *)
Lemma invalid_inputs_block_run_witness :
  let st : FormState float64 :=
    {| form_inputs := assign defaultInputs (set_quantity (dec 0 0));
       errors := ∅; calls := [] |} in
  let st' := handleSubmit st in
  let st'' := updateInput (set_quantity (dec 1000 0)) st' in
  quantity_invalid (form_inputs st) = true /\
  calls st'
  = [call_toast "Validation Error"
       "Please fix the input errors before running the analysis." true] /\
  inlineMessage (errors st') "quantity" = Some "Quantity must be greater than 0" /\
  inlineMessage (errors st'') "quantity" = None /\
  In call_onRunLCA (calls (handleSubmit st'')).
Proof.
  intros st st' st''.
  assert (Hq : quantity_invalid (form_inputs st) = true) by (vm_compute; reflexivity).
  assert (Hbad : quantity_invalid (form_inputs st)
                 || distance_negative (form_inputs st)
                 || distance_unrealistic (form_inputs st) = true)
    by (rewrite Hq; reflexivity).
  destruct (invalid_inputs_block_run float64 _ st Hbad)
    as (C & _ & M & _ & Cq & _ & R).
  split; [exact Hq |].
  split; [exact C |].
  split; [exact (M Hq) |].
  split; [exact (Cq (dec 1000 0)) |].
  assert (Hok : quantity_invalid (form_inputs st'')
                || distance_negative (form_inputs st'')
                || distance_unrealistic (form_inputs st'') = false)
    by (vm_compute; reflexivity).
  exact (proj1 (R (set_quantity (dec 1000 0)) Hok)).
Defined.

(** ** Properties of the report panel *)

Module ReportFacts.
Import ReportGenerator.

Lemma step_consistent st ev st' :
  consistent st -> step st ev = Some st' -> consistent st'.
Proof.
  unfold consistent. intros C S.
  destruct st as [g r p c]; cbn in *.
  destruct ev, p, g, r; cbn in S; inversion S; subst; cbn;
    try tauto; destruct C; discriminate.
Qed.

Lemma reachable_consistent st : reachable st -> consistent st.
Proof.
  induction 1 as [| st ev st' _ IH S].
  - reflexivity.
  - exact (step_consistent st ev st' IH S).
Qed.

Lemma step_no_error st ev st' :
  forallb no_error_call (calls st) = true ->
  step st ev = Some st' ->
  forallb no_error_call (calls st') = true.
Proof.
  intros C S.
  destruct st as [g r p c]; cbn in *.
  destruct ev, p, g, r; cbn in S; inversion S; subst; cbn;
    rewrite ?forallb_app, ?C; reflexivity.
Qed.

Lemma reachable_no_error st :
  reachable st -> forallb no_error_call (calls st) = true.
Proof.
  induction 1 as [| st ev st' _ IH S].
  - reflexivity.
  - exact (step_no_error st ev st' IH S).
Qed.

(** From Idle: a click, either outcome of the fetch, and the timer. *)
Lemma idle_to_generated st outcome :
  consistent st -> render st = Idle ->
  outcome = FetchResolved \/ outcome = FetchRejected ->
  exists st1 st2 st3,
    step st ClickGenerate = Some st1 /\ render st1 = Generating /\
    step st1 outcome = Some st2 /\ render st2 = Generating /\
    last (calls st2) = Some (call_setTimeout 3000) /\
    step st2 TimerFired = Some st3 /\ render st3 = Generated /\
    isGenerating st3 = false /\ pending st3 = NotRunning /\
    last (calls st3) = Some success_toast.
Proof.
  unfold consistent, render. intros C R O.
  destruct st as [g r p c]; cbn in *.
  destruct r; [discriminate R |]. destruct g; [discriminate R |].
  destruct O as [-> | ->]; cbn;
    do 3 eexists; repeat split; cbn; try reflexivity;
    rewrite ?last_snoc, ?last_app; reflexivity.
Qed.

(** While Generating, only the outstanding promise can move the panel, and
    the timer leads to Generated. *)
Lemma generating_steps st ev st' :
  consistent st -> render st = Generating -> step st ev = Some st' ->
  (pending st = AwaitFetch /\ (ev = FetchResolved \/ ev = FetchRejected) /\
   render st' = Generating /\
   (pending st' = AwaitDelayTry \/ pending st' = AwaitDelayCatch)) \/
  ((pending st = AwaitDelayTry \/ pending st = AwaitDelayCatch) /\
   ev = TimerFired /\ render st' = Generated).
Proof.
  unfold consistent, render. intros C R S.
  destruct st as [g r p c]; cbn in *.
  destruct r; [discriminate R |]. destruct g; [| discriminate R].
  destruct ev, p; cbn in S; inversion S; subst; cbn; try discriminate C; tauto.
Qed.

Lemma generating_progress st :
  consistent st -> render st = Generating ->
  exists ev st', step st ev = Some st'.
Proof.
  unfold consistent, render. intros C R.
  destruct st as [g r p c]; cbn in *.
  destruct r; [discriminate R |]. destruct g; [| discriminate R].
  destruct p; [discriminate C | exists FetchResolved | exists TimerFired
              | exists TimerFired]; eexists; reflexivity.
Qed.

Lemma generated_to_idle st :
  consistent st -> render st = Generated ->
  exists st', step st ClickGenerateNew = Some st' /\ render st' = Idle.
Proof.
  unfold consistent, render. intros C R.
  destruct st as [g r p c]; cbn in *.
  destruct r; [| destruct g; discriminate R].
  destruct p; cbn in C; try (destruct C; discriminate).
  subst g. eexists; split; reflexivity.
Qed.
End ReportFacts.

(** C9. In every state the panel can reach: from Idle, the trigger puts the
    panel in Generating, and whether the fetch fulfils or rejects (network
    failure) the 3000 ms timer is set and its firing puts the panel in
    Generated, with the busy flag cleared and the success notification
    sent; while Generating nothing but the outstanding fetch and timer can
    happen, some such event can always happen, and the timer always leads
    to Generated; no error notification is ever sent, the panel being
    always one of Idle, Generating, Generated; and from Generated the
    "generate new report" action returns the panel to Idle. *)
Theorem report_always_generated (st : ReportGenerator.State) :
  ReportGenerator.reachable st ->
  (* Idle: trigger, either fetch outcome, timer *)
  (ReportGenerator.render st = ReportGenerator.Idle ->
   forall outcome,
     outcome = ReportGenerator.FetchResolved \/
     outcome = ReportGenerator.FetchRejected ->
     exists st1 st2 st3,
       ReportGenerator.step st ReportGenerator.ClickGenerate = Some st1 /\
       ReportGenerator.render st1 = ReportGenerator.Generating /\
       ReportGenerator.step st1 outcome = Some st2 /\
       ReportGenerator.render st2 = ReportGenerator.Generating /\
       last (ReportGenerator.calls st2) = Some (call_setTimeout 3000) /\
       ReportGenerator.step st2 ReportGenerator.TimerFired = Some st3 /\
       ReportGenerator.render st3 = ReportGenerator.Generated /\
       ReportGenerator.isGenerating st3 = false /\
       ReportGenerator.pending st3 = ReportGenerator.NotRunning /\
       last (ReportGenerator.calls st3) = Some ReportGenerator.success_toast) /\
  (* Generating: progress, and only towards Generated *)
  (ReportGenerator.render st = ReportGenerator.Generating ->
   (exists ev st', ReportGenerator.step st ev = Some st') /\
   forall ev st',
     ReportGenerator.step st ev = Some st' ->
     (ReportGenerator.pending st = ReportGenerator.AwaitFetch /\
      (ev = ReportGenerator.FetchResolved \/ ev = ReportGenerator.FetchRejected) /\
      ReportGenerator.render st' = ReportGenerator.Generating /\
      (ReportGenerator.pending st' = ReportGenerator.AwaitDelayTry \/
       ReportGenerator.pending st' = ReportGenerator.AwaitDelayCatch)) \/
     ((ReportGenerator.pending st = ReportGenerator.AwaitDelayTry \/
       ReportGenerator.pending st = ReportGenerator.AwaitDelayCatch) /\
      ev = ReportGenerator.TimerFired /\
      ReportGenerator.render st' = ReportGenerator.Generated)) /\
  (* Generated: the "generate new report" action *)
  (ReportGenerator.render st = ReportGenerator.Generated ->
   exists st',
     ReportGenerator.step st ReportGenerator.ClickGenerateNew = Some st' /\
     ReportGenerator.render st' = ReportGenerator.Idle) /\
  (* no error is shown *)
  forallb ReportGenerator.no_error_call (ReportGenerator.calls st) = true.
Proof.
  intros R.
  pose proof (ReportFacts.reachable_consistent st R) as C.
  split; [| split; [| split]].
  - intros I outcome O. exact (ReportFacts.idle_to_generated st outcome C I O).
  - intros G. split.
    + exact (ReportFacts.generating_progress st C G).
    + intros ev st' S. exact (ReportFacts.generating_steps st ev st' C G S).
  - intros G. exact (ReportFacts.generated_to_idle st C G).
  - exact (ReportFacts.reachable_no_error st R).
Qed.

(** From the initial panel with a network failure: the run
    click, rejected fetch, timer ends in Generated. *)
Lemma report_always_generated_witness :
  ReportGenerator.reachable ReportGenerator.initial /\
  exists st3,
    ReportGenerator.run ReportGenerator.initial
      [ReportGenerator.ClickGenerate; ReportGenerator.FetchRejected;
       ReportGenerator.TimerFired] = Some st3 /\
    ReportGenerator.render st3 = ReportGenerator.Generated.
Proof.
  split; [exact ReportGenerator.reachable_initial |].
  destruct (report_always_generated ReportGenerator.initial
              ReportGenerator.reachable_initial) as (I & _).
  destruct (I eq_refl ReportGenerator.FetchRejected (or_intror eq_refl))
    as (st1 & st2 & st3 & S1 & _ & S2 & _ & _ & S3 & G & _).
  exists st3. split; [| exact G].
  cbn [ReportGenerator.run]. rewrite S1, S2, S3. reflexivity.
Defined.

(** ** Properties of the scenario preview *)

(** C10. The impact preview of a circular scenario shows 65 (CO2 reduction)
    and 45 (energy savings) and that of a conventional scenario shows 0 for
    both, whatever the inputs; the previewed recycled content is 85 for
    recycled material and 0 for primary material, whatever the rest; none
    of the three is taken from the KPI calculation. *)
Theorem impact_preview_constants :
  (forall (num : Type) (N : Number num) (s : LCAScenario num),
      ScenarioSelector.co2Reduction (ScenarioSelector.getImpactPreview s)
        = match type s with circular => dec 65 0 | conventional => dec 0 0 end /\
      ScenarioSelector.energySavings (ScenarioSelector.getImpactPreview s)
        = match type s with circular => dec 45 0 | conventional => dec 0 0 end /\
      ScenarioSelector.recycledContent (ScenarioSelector.getImpactPreview s)
        = match materialSource (inputs s) with
          | recycled => dec 85 0
          | primary => dec 0 0
          end) /\
  (forall s : LCAScenario Q,
      (ScenarioSelector.recycledContent (ScenarioSelector.getImpactPreview s) == 85)%Q
      <-> materialSource (inputs s) = recycled) /\
  (forall s : LCAScenario float64,
      ScenarioSelector.recycledContent (ScenarioSelector.getImpactPreview s) = dec 85 0
      <-> materialSource (inputs s) = recycled).
Proof.
  split; [| split].
  - intros num N [n t [m ms es tm d l q]].
    unfold ScenarioSelector.getImpactPreview; cbn.
    destruct t, ms; auto.
  - intros [n t [m ms es tm d l q]].
    unfold ScenarioSelector.getImpactPreview; cbn.
    destruct ms; split; intros E; try reflexivity; discriminate E.
  - intros [n t [m ms es tm d l q]].
    unfold ScenarioSelector.getImpactPreview; cbn.
    destruct ms; split; intros E; try reflexivity; vm_compute in E; discriminate E.
Qed.

(** For the two seeded scenarios the preview shows a CO2 reduction of 65,
    while the calculator's footprints, 11.95 and 1.47, differ by more than
    87 percent. *)
Example preview_is_not_computed_from_KPIs :
  let conv := co2Footprint (calculateKPIs (num:=Q) conventionalScenario) in
  let circ := co2Footprint (calculateKPIs (num:=Q) circularScenario) in
  (ScenarioSelector.co2Reduction
     (ScenarioSelector.getImpactPreview (num:=Q) circularScenario) == 65)%Q /\
  (87 < 100 * (conv - circ) / conv)%Q.
Proof. vm_compute. split; reflexivity. Qed.

(** * Further properties *)

(** ** The KPI calculation, exact arithmetic *)

Lemma raw_recycled_le (i : LCAInputs Q) :
  (0 <= quantity i)%Q ->
  (co2Footprint_raw (assign i (set_materialSource recycled))
   <= co2Footprint_raw (assign i (set_materialSource primary)))%Q /\
  (energyUse_raw (assign i (set_materialSource recycled))
   <= energyUse_raw (assign i (set_materialSource primary)))%Q /\
  (waterUse_raw (assign i (set_materialSource recycled))
   <= waterUse_raw (assign i (set_materialSource primary)))%Q.
Proof.
  destruct i as [m ms es tm d l q]; cbn [quantity]. intros Hq.
  unfold co2Footprint_raw, energyUse_raw, waterUse_raw.
  cbn -[Qmult Qplus Qdiv Qle Q_dec].
  destruct m, es, l; cbn -[Qmult Qplus Qdiv Qle Q_dec]; q_norm; repeat split; lra.
Qed.

Lemma raw_recycling_le (i : LCAInputs Q) :
  (0 <= quantity i)%Q -> (0 <= transportDistance i)%Q ->
  (co2Footprint_raw (assign i (set_endOfLife recycling))
   <= co2Footprint_raw (assign i (set_endOfLife landfill)))%Q.
Proof.
  destruct i as [m ms es tm d l q]; cbn [quantity transportDistance]. intros Hq Hd.
  pose proof (Qmult_le_0_compat _ _ Hd Hq) as Hdq.
  unfold co2Footprint_raw.
  cbn -[Qmult Qplus Qdiv Qle Q_dec].
  destruct m, ms, es; cbn -[Qmult Qplus Qdiv Qle Q_dec]; q_norm; lra.
Qed.

Lemma raw_distance_le (i : LCAInputs Q) (d1 d2 : Q) :
  (0 <= quantity i)%Q -> (d1 <= d2)%Q ->
  (co2Footprint_raw (assign i (set_transportDistance d1))
   <= co2Footprint_raw (assign i (set_transportDistance d2)))%Q.
Proof.
  destruct i as [m ms es tm d l q]; cbn [quantity]. intros Hq Hd.
  assert (Hdq : (0 <= (d2 - d1) * q)%Q) by (apply Qmult_le_0_compat; lra).
  unfold co2Footprint_raw.
  cbn -[Qmult Qplus Qdiv Qle Q_dec].
  destruct m, ms, es, l; cbn -[Qmult Qplus Qdiv Qle Q_dec]; q_norm; lra.
Qed.

Lemma raw_quantity_le (i : LCAInputs Q) (q1 q2 : Q) :
  (0 <= transportDistance i)%Q -> (q1 <= q2)%Q ->
  (co2Footprint_raw (assign i (set_quantity q1))
   <= co2Footprint_raw (assign i (set_quantity q2)))%Q /\
  (energyUse_raw (assign i (set_quantity q1))
   <= energyUse_raw (assign i (set_quantity q2)))%Q /\
  (waterUse_raw (assign i (set_quantity q1))
   <= waterUse_raw (assign i (set_quantity q2)))%Q.
Proof.
  destruct i as [m ms es tm d l q]; cbn [transportDistance]. intros Hd Hq.
  assert (Hdq : (0 <= d * (q2 - q1))%Q) by (apply Qmult_le_0_compat; lra).
  unfold co2Footprint_raw, energyUse_raw, waterUse_raw.
  cbn -[Qmult Qplus Qdiv Qle Q_dec].
  destruct m, ms, es, l; cbn -[Qmult Qplus Qdiv Qle Q_dec]; q_norm; repeat split; lra.
Qed.

Lemma raw_co2_slider_bound (i : LCAInputs Q) :
  (0 <= quantity i <= 10000)%Q -> (0 <= transportDistance i <= 5000)%Q ->
  (0 <= co2Footprint_raw i <= 183.5)%Q.
Proof.
  destruct i as [m ms es tm d l q]; cbn [quantity transportDistance]. intros [Hq Hq'] [Hd Hd'].
  unfold co2Footprint_raw.
  cbn -[Qmult Qplus Qdiv Qle Q_dec].
  destruct m, ms, es, l; cbn -[Qmult Qplus Qdiv Qle Q_dec]; q_norm; split; nra.
Qed.

Lemma co2Footprint_round (s : LCAScenario Q) (i : LCAInputs Q) :
  co2Footprint (calculateKPIs (with_inputs s i)) = round2 (co2Footprint_raw i) /\
  energyUse (calculateKPIs (with_inputs s i)) = round2 (energyUse_raw i) /\
  waterUse (calculateKPIs (with_inputs s i)) = round2 (waterUse_raw i).
Proof. exact (calculateKPIs_rounds (with_inputs s i)). Qed.

(** X1. With every other input fixed and a quantity that is not negative,
    recycled material gives a co2Footprint, an energyUse and a waterUse no
    larger than primary material. *)
Theorem recycled_never_raises_KPIs (s : LCAScenario Q) :
  (0 <= quantity (inputs s))%Q ->
  let rec := calculateKPIs (with_inputs s (assign (inputs s) (set_materialSource recycled))) in
  let pri := calculateKPIs (with_inputs s (assign (inputs s) (set_materialSource primary))) in
  (co2Footprint rec <= co2Footprint pri)%Q /\
  (energyUse rec <= energyUse pri)%Q /\
  (waterUse rec <= waterUse pri)%Q.
Proof.
  intros Hq rec pri. subst rec pri.
  destruct (co2Footprint_round s (assign (inputs s) (set_materialSource recycled)))
    as (-> & -> & ->).
  destruct (co2Footprint_round s (assign (inputs s) (set_materialSource primary)))
    as (-> & -> & ->).
  destruct (raw_recycled_le (inputs s) Hq) as (C & E & W).
  repeat split; apply round2_Q_le; assumption.
Qed.

Lemma recycled_never_raises_KPIs_witness :
  (0 <= quantity (inputs (conventionalScenario (num:=Q))))%Q /\
  (waterUse (calculateKPIs (with_inputs conventionalScenario
     (assign (inputs conventionalScenario) (set_materialSource recycled))))
   <= waterUse (calculateKPIs (with_inputs conventionalScenario
     (assign (inputs (conventionalScenario (num:=Q))) (set_materialSource primary)))))%Q.
Proof.
  assert (Hq : (0 <= quantity (inputs (conventionalScenario (num:=Q))))%Q)
    by (vm_compute; discriminate).
  split; [exact Hq |].
  exact (proj2 (proj2 (recycled_never_raises_KPIs conventionalScenario Hq))).
Defined.

(** X2. With every other input fixed, a quantity and a distance that are
    not negative, end-of-life recycling gives a co2Footprint no larger than
    landfill. *)
Theorem recycling_never_raises_co2 (s : LCAScenario Q) :
  (0 <= quantity (inputs s))%Q ->
  (0 <= transportDistance (inputs s))%Q ->
  (co2Footprint (calculateKPIs
     (with_inputs s (assign (inputs s) (set_endOfLife recycling))))
   <= co2Footprint (calculateKPIs
     (with_inputs s (assign (inputs s) (set_endOfLife landfill)))))%Q.
Proof.
  intros Hq Hd.
  destruct (co2Footprint_round s (assign (inputs s) (set_endOfLife recycling))) as (-> & _).
  destruct (co2Footprint_round s (assign (inputs s) (set_endOfLife landfill))) as (-> & _).
  apply round2_Q_le, raw_recycling_le; assumption.
Qed.

Lemma recycling_never_raises_co2_witness :
  (0 <= quantity (inputs (circularScenario (num:=Q))))%Q /\
  (0 <= transportDistance (inputs (circularScenario (num:=Q))))%Q /\
  (co2Footprint (calculateKPIs
     (with_inputs circularScenario
        (assign (inputs circularScenario) (set_endOfLife recycling))))
   <= co2Footprint (calculateKPIs
     (with_inputs circularScenario
        (assign (inputs (circularScenario (num:=Q))) (set_endOfLife landfill)))))%Q.
Proof.
  assert (Hq : (0 <= quantity (inputs (circularScenario (num:=Q))))%Q)
    by (vm_compute; discriminate).
  assert (Hd : (0 <= transportDistance (inputs (circularScenario (num:=Q))))%Q)
    by (vm_compute; discriminate).
  split; [exact Hq |]. split; [exact Hd |].
  exact (recycling_never_raises_co2 circularScenario Hq Hd).
Defined.

(** X3. co2Footprint does not decrease when the transport distance grows,
    the quantity being not negative and everything else fixed. *)
Theorem co2Footprint_monotone_in_distance (s : LCAScenario Q) (d1 d2 : Q) :
  (0 <= quantity (inputs s))%Q -> (d1 <= d2)%Q ->
  (co2Footprint (calculateKPIs
     (with_inputs s (assign (inputs s) (set_transportDistance d1))))
   <= co2Footprint (calculateKPIs
     (with_inputs s (assign (inputs s) (set_transportDistance d2)))))%Q.
Proof.
  intros Hq Hd.
  destruct (co2Footprint_round s (assign (inputs s) (set_transportDistance d1))) as (-> & _).
  destruct (co2Footprint_round s (assign (inputs s) (set_transportDistance d2))) as (-> & _).
  apply round2_Q_le, raw_distance_le; assumption.
Qed.

Lemma co2Footprint_monotone_in_distance_witness :
  (0 <= quantity (inputs (conventionalScenario (num:=Q))))%Q /\
  (500 <= 2500)%Q /\
  (co2Footprint (calculateKPIs
     (with_inputs conventionalScenario
        (assign (inputs conventionalScenario) (set_transportDistance 500%Q))))
   <= co2Footprint (calculateKPIs
     (with_inputs conventionalScenario
        (assign (inputs conventionalScenario) (set_transportDistance 2500%Q)))))%Q.
Proof.
  assert (Hq : (0 <= quantity (inputs (conventionalScenario (num:=Q))))%Q)
    by (vm_compute; discriminate).
  assert (Hd : (500 <= 2500)%Q) by (vm_compute; discriminate).
  split; [exact Hq |]. split; [exact Hd |].
  exact (co2Footprint_monotone_in_distance conventionalScenario 500 2500 Hq Hd).
Defined.

(** X4. co2Footprint, energyUse and waterUse do not decrease when the
    quantity grows, the distance being not negative and everything else
    fixed. *)
Theorem KPIs_monotone_in_quantity (s : LCAScenario Q) (q1 q2 : Q) :
  (0 <= transportDistance (inputs s))%Q -> (q1 <= q2)%Q ->
  let k1 := calculateKPIs (with_inputs s (assign (inputs s) (set_quantity q1))) in
  let k2 := calculateKPIs (with_inputs s (assign (inputs s) (set_quantity q2))) in
  (co2Footprint k1 <= co2Footprint k2)%Q /\
  (energyUse k1 <= energyUse k2)%Q /\
  (waterUse k1 <= waterUse k2)%Q.
Proof.
  intros Hd Hq k1 k2. subst k1 k2.
  destruct (co2Footprint_round s (assign (inputs s) (set_quantity q1))) as (-> & -> & ->).
  destruct (co2Footprint_round s (assign (inputs s) (set_quantity q2))) as (-> & -> & ->).
  destruct (raw_quantity_le (inputs s) q1 q2 Hd Hq) as (C & E & W).
  repeat split; apply round2_Q_le; assumption.
Qed.

Lemma KPIs_monotone_in_quantity_witness :
  (0 <= transportDistance (inputs (circularScenario (num:=Q))))%Q /\
  (100 <= 1000)%Q /\
  (co2Footprint (calculateKPIs
     (with_inputs circularScenario
        (assign (inputs circularScenario) (set_quantity 100%Q))))
   <= co2Footprint (calculateKPIs
     (with_inputs circularScenario
        (assign (inputs circularScenario) (set_quantity 1000%Q)))))%Q.
Proof.
  assert (Hd : (0 <= transportDistance (inputs (circularScenario (num:=Q))))%Q)
    by (vm_compute; discriminate).
  assert (Hq : (100 <= 1000)%Q) by (vm_compute; discriminate).
  split; [exact Hd |]. split; [exact Hq |].
  exact (proj1 (KPIs_monotone_in_quantity circularScenario 100 1000 Hd Hq)).
Defined.

(** X5. For the values the two sliders offer (quantity 100 to 10000 kg,
    distance 0 to 5000 km) co2Footprint lies between 0 and 183.5, below the
    card's threshold of 1000: the CO2 card always has the colour
    "text-circular". *)
Theorem co2_card_colour_on_slider_ranges (s : LCAScenario Q) :
  (100 <= quantity (inputs s) <= 10000)%Q ->
  (0 <= transportDistance (inputs s) <= 5000)%Q ->
  (0 <= co2Footprint (calculateKPIs s) <= 183.5)%Q /\
  co2Color (calculateKPIs s) = "text-circular".
Proof.
  intros Hq Hd.
  assert (B : (0 <= co2Footprint (calculateKPIs s) <= 183.5)%Q).
  { destruct (calculateKPIs_rounds s) as (-> & _).
    assert (Hq' : (0 <= quantity (inputs s) <= 10000)%Q) by lra.
    destruct (raw_co2_slider_bound (inputs s) Hq' Hd) as [L U].
    pose proof (round2_Q_le _ _ L) as L'.
    pose proof (round2_Q_le _ _ U) as U'.
    change (round2 0%Q) with (0 # 100)%Q in L'.
    change (round2 183.5%Q) with (18350 # 100)%Q in U'.
    split; lra. }
  split; [exact B |].
  unfold co2Color, getImpactColor.
  assert (E : (co2Footprint (calculateKPIs s) <=? dec 1000 0)%num = true).
  { apply Qle_bool_iff. change (dec 1000 0) with 1000%Q. lra. }
  rewrite E. reflexivity.
Qed.

Lemma co2_card_colour_on_slider_ranges_witness :
  co2Color (calculateKPIs (num:=Q)
    (with_inputs conventionalScenario
       (assign (assign (assign (inputs conventionalScenario)
          (set_energySource coal)) (set_transportDistance 5000%Q))
          (set_quantity 10000%Q)))) = "text-circular".
Proof.
  apply co2_card_colour_on_slider_ranges; split; vm_compute; discriminate.
Defined.

(** ** What the cards show *)

Lemma constant_KPI_fields (num : Type) (N : Number num) (s : LCAScenario num) :
  recycledContent (calculateKPIs s)
    = match materialSource (inputs s) with
      | recycled => dec 85 0
      | primary => dec 0 0
      end /\
  costSavings (calculateKPIs s)
    = match materialSource (inputs s) with
      | recycled => dec 1250 0
      | primary => dec 0 0
      end /\
  circularityIndex (calculateKPIs s)
    = match type s with
      | circular => dec 75 0
      | conventional => dec 25 0
      end.
Proof.
  destruct s as [n t [m ms es tm d l q]].
  unfold calculateKPIs; cbn.
  destruct (materialMultipliers ms) as [[c e] w]; cbn.
  destruct ms, t; auto.
Qed.

(** X6. The transport mode and the scenario's name change nothing that is
    computed: the KPIs are the same for every transport mode and name; the
    flow list is the same for every transport mode, transport distance,
    name and scenario type. *)
Theorem transport_mode_has_no_effect (num : Type) (N : Number num)
    (s : LCAScenario num) (n : string) (t : ScenarioType)
    (tm : TransportMode) (d : num) :
  calculateKPIs {| name := n; type := type s;
                   inputs := assign (inputs s) (set_transportMode tm) |}
  = calculateKPIs s /\
  generateFlowData
    {| name := n; type := t;
       inputs := assign (assign (inputs s) (set_transportMode tm))
                        (set_transportDistance d) |}
  = generateFlowData s.
Proof.
  destruct s as [n0 t0 [m ms es tm0 d0 l q]]. split; reflexivity.
Qed.

(** X7. The labels the cards derive from the KPIs follow the scenario alone:
    the circularity badge reads "Circular" (and the score "High") exactly
    for a circular scenario, the recycled-content card is "text-circular"
    exactly for recycled material, and the cost impact reads "Baseline"
    exactly for primary material and shows 1250 otherwise; in exact
    arithmetic and in binary64. *)
Theorem card_labels :
  (forall s : LCAScenario Q,
      circularityBadge (calculateKPIs s)
        = match type s with circular => "Circular" | conventional => "Linear" end /\
      circularityScore (calculateKPIs s)
        = match type s with circular => "High" | conventional => "Low" end /\
      recycledContentColor (calculateKPIs s)
        = match materialSource (inputs s) with
          | recycled => "text-circular"
          | primary => "text-linear"
          end /\
      costImpact (calculateKPIs s)
        = match materialSource (inputs s) with
          | recycled => Some (dec 1250 0)
          | primary => None
          end) /\
  (forall s : LCAScenario float64,
      circularityBadge (calculateKPIs s)
        = match type s with circular => "Circular" | conventional => "Linear" end /\
      circularityScore (calculateKPIs s)
        = match type s with circular => "High" | conventional => "Low" end /\
      recycledContentColor (calculateKPIs s)
        = match materialSource (inputs s) with
          | recycled => "text-circular"
          | primary => "text-linear"
          end /\
      costImpact (calculateKPIs s)
        = match materialSource (inputs s) with
          | recycled => Some (dec 1250 0)
          | primary => None
          end).
Proof.
  split; intros s;
    unfold circularityBadge, circularityScore, recycledContentColor, costImpact,
      getImpactColor;
    destruct (constant_KPI_fields _ _ s) as (-> & -> & ->);
    destruct (type s), (materialSource (inputs s)); vm_compute; auto.
Qed.

(** X8. The recycled content of the scenario selector's preview is always
    the recycled content of the KPI card. *)
Theorem preview_agrees_with_KPI_card (num : Type) (N : Number num)
    (s : LCAScenario num) :
  ScenarioSelector.recycledContent (ScenarioSelector.getImpactPreview s)
  = recycledContent (calculateKPIs s).
Proof.
  destruct (constant_KPI_fields _ _ s) as (-> & _).
  destruct s as [n t [m ms es tm d l q]]. reflexivity.
Qed.

(** ** Stages, legend and balances of the flow diagram *)

(** X9. The five stage columns show every generated flow exactly once and in
    the order of generation; there are five flows, one more for recycled
    material and two more for end-of-life recycling, and the Recovery
    column is empty exactly for landfill. *)
Theorem stages_show_every_flow_once (num : Type) (N : Number num)
    (s : LCAScenario num) :
  let flows := generateFlowData s in
  concat (map snd (stages flows)) = flows /\
  map fst (stages flows)
    = ["Inputs"; "Production"; "Distribution"; "End of Life"; "Recovery"] /\
  length flows
    = (5 + match materialSource (inputs s) with recycled => 1 | primary => 0 end
         + match endOfLife (inputs s) with recycling => 2 | landfill => 0 end)%nat /\
  (List.filter (fun f => String.eqb (from f) "Recycling") flows = []
   <-> endOfLife (inputs s) = landfill).
Proof.
  destruct s as [n t [m ms es tm d l q]].
  unfold generateFlowData, stages, push; cbn.
  destruct ms, l, m, es; cbn; repeat split; auto; discriminate.
Qed.

(** X10. The legend always lists virgin materials, energy input, transport
    and waste; it lists recycled materials exactly for recycled material
    and circular flow exactly for end-of-life recycling.  Every flow list
    has a waste edge, so the exception made for the waste entry never
    decides anything. *)
Theorem legend_entries (num : Type) (N : Number num) (s : LCAScenario num) :
  let flows := generateFlowData s in
  legend flows
  = ("Virgin Materials"
     :: match materialSource (inputs s) with
        | recycled => ["Recycled Materials"]
        | primary => []
        end
     ++ "Energy Input" :: "Transport"
     :: match endOfLife (inputs s) with
        | recycling => ["Circular Flow"]
        | landfill => []
        end
     ++ ["Waste/Landfill"])%list /\
  existsb (fun f => Flow_type_eqb (flow_type f) Flow.waste) flows = true.
Proof.
  destruct s as [n t [m ms es tm d l q]].
  unfold generateFlowData, legend, push; cbn.
  destruct ms, l, m, es; cbn; split; reflexivity.
Qed.

Lemma node_values {num : Type} `{Number num} (s : LCAScenario num) (node : string) :
  In node ["Production"; "Distribution"; "Use Phase"; "Recycling"; "Waste";
           "Recycled Materials"] ->
  let flows := generateFlowData s in
  let base := baseQuantity s in
  map value (List.filter
       (fun f => String.eqb (to f) node
                 && negb (Flow_type_eqb (flow_type f) Flow.energy)) flows)
  = (if String.eqb node "Production" then
       match materialSource (inputs s) with
       | primary => [base]
       | recycled => [base * dec 85 2; base * dec 15 2]
       end
     else if String.eqb node "Distribution" then [base]
     else if String.eqb node "Use Phase" then [base]
     else if String.eqb node "Recycling" then
       match endOfLife (inputs s) with
       | recycling => [base * dec 9 1]
       | landfill => []
       end
     else if String.eqb node "Waste" then
       match endOfLife (inputs s) with
       | recycling => [base * dec 1 1]
       | landfill => [base]
       end
     else
       match endOfLife (inputs s) with
       | recycling => [base * dec 85 2]
       | landfill => []
       end)%num /\
  map value (List.filter (fun f => String.eqb (from f) node) flows)
  = (if String.eqb node "Production" then [base]
     else if String.eqb node "Distribution" then [base]
     else if String.eqb node "Use Phase" then
       match endOfLife (inputs s) with
       | recycling => [base * dec 9 1; base * dec 1 1]
       | landfill => [base]
       end
     else if String.eqb node "Recycling" then
       match endOfLife (inputs s) with
       | recycling => [base * dec 85 2]
       | landfill => []
       end
     else if String.eqb node "Waste" then []
     else
       match materialSource (inputs s) with
       | recycled => [base * dec 85 2]
       | primary => []
       end)%num.
Proof.
  intros Hn.
  destruct s as [n t [m ms es tm d l q]].
  unfold generateFlowData, baseQuantity, push; cbn.
  repeat (destruct Hn as [<- | Hn]); try contradiction;
    destruct ms, l, m, es; cbn; split; reflexivity.
Qed.

(** X11. In the doubles of the code mass is conserved at every stage up to
    the last bit, for every quantity the slider offers.  What leaves
    Production, what enters and leaves Distribution and what enters Use
    Phase is the base quantity (quantity/1000).  What enters Production
    (energy apart) is the base quantity with primary material, and the base
    quantity or the double just below it with recycled material.  With
    landfill what leaves Use Phase and enters Waste is the base quantity,
    and nothing passes through Recycling; with recycling what leaves Use
    Phase is the base quantity or the double just above it, Recycling passes
    on less than it receives (85% against 90% of the base quantity), and all
    of that reaches Recycled Materials. *)
Theorem mass_balance_binary64 (s : LCAScenario float64) (q : Z) :
  List.In q quantity_slider -> quantity (inputs s) = dec q 0 ->
  let flows := generateFlowData s in
  let base := baseQuantity s in
  (massOutOf "Production" flows = base /\
   massInto "Distribution" flows = base /\
   massOutOf "Distribution" flows = base /\
   massInto "Use Phase" flows = base) /\
  match materialSource (inputs s) with
  | primary => massInto "Production" flows = base
  | recycled =>
      massInto "Production" flows = base \/
      massInto "Production" flows = SFpred F64.prec F64.emax base
  end /\
  match endOfLife (inputs s) with
  | landfill =>
      massOutOf "Use Phase" flows = base /\
      massInto "Waste" flows = base /\
      massInto "Recycling" flows = dec 0 0 /\
      massOutOf "Recycling" flows = dec 0 0
  | recycling =>
      (massOutOf "Use Phase" flows = base \/
       massOutOf "Use Phase" flows = SFsucc F64.prec F64.emax base) /\
      SFltb (massOutOf "Recycling" flows) (massInto "Recycling" flows) = true /\
      massInto "Recycled Materials" flows = massOutOf "Recycling" flows
  end.
Proof.
  intros Hq Eq flows base. subst flows base.
  pose proof (proj1 (List.forallb_forall _ _) node_sums_on_slider q Hq) as C.
  cbv zeta in C.
  apply andb_prop in C as [C C4]. apply andb_prop in C as [C C3].
  apply andb_prop in C as [C1 C2].
  apply float64_eqb_eq in C1.
  apply orb_prop in C2. apply orb_prop in C3.
  pose proof (node_values s "Production") as [? ?]; [cbn; tauto |].
  pose proof (node_values s "Distribution") as [? ?]; [cbn; tauto |].
  pose proof (node_values s "Use Phase") as [? ?]; [cbn; tauto |].
  pose proof (node_values s "Recycling") as [? ?]; [cbn; tauto |].
  pose proof (node_values s "Waste") as [? ?]; [cbn; tauto |].
  pose proof (node_values s "Recycled Materials") as [? ?]; [cbn; tauto |].
  unfold massInto, massOutOf. rewrite !total_values.
  repeat match goal with
  | E : map value (List.filter _ _) = _ |- _ => rewrite ?E; clear E
  end.
  unfold baseQuantity. rewrite Eq.
  cbn [String.eqb Ascii.eqb Bool.eqb].
  destruct (materialSource (inputs s)), (endOfLife (inputs s));
    repeat match goal with |- _ /\ _ => split end; auto;
    try (destruct C2 as [E | E]; [left | right]; apply float64_eqb_eq, E);
    try (destruct C3 as [E | E]; [left | right]; apply float64_eqb_eq, E).
Qed.

(** At 300 kg with end-of-life recycling 0.3 t enter Use Phase and
    0.30000000000000004 t leave it. *)
Lemma mass_balance_binary64_witness :
  let s := with_inputs conventionalScenario
             (assign (assign (inputs conventionalScenario) (set_endOfLife recycling))
                     (set_quantity (dec 300 0))) in
  List.In 300%Z quantity_slider /\
  quantity (inputs s) = dec 300 0 /\
  massInto "Use Phase" (generateFlowData s) = dec (num:=float64) 3 1 /\
  massOutOf "Use Phase" (generateFlowData s) = SFsucc F64.prec F64.emax (dec 3 1).
Proof.
  intros s.
  assert (Hq : List.In 300%Z quantity_slider) by (vm_compute; tauto).
  split; [exact Hq |]. split; [reflexivity |].
  destruct (mass_balance_binary64 s 300%Z Hq eq_refl)
    as ((_ & _ & _ & Hin) & _ & Hout & _).
  split; [exact Hin |].
  destruct Hout as [E | E]; [vm_compute in E; discriminate E | exact E].
Defined.

(** ** The input form, further *)

(** X12. Editing a field removes the message next to that field and leaves
    the message next to every other field as it is: editing never makes a
    message appear, whatever the new value; only a submission validates. *)
Theorem editing_only_clears (num : Type) (N : Number num)
    (u : FieldUpdate num) (st : FormState num) (k : string) :
  inlineMessage (errors (updateInput u st)) k
  = if String.eqb k (key_of u) then None else inlineMessage (errors st) k.
Proof.
  destruct (String.eqb_spec k (key_of u)) as [-> | Hk].
  - apply updateInput_clears.
  - apply updateInput_other, Hk.
Qed.

Lemma Q_checks (i : LCAInputs Q) :
  Dashboard.valid i = true
  <-> (0 < quantity i)%Q /\ (0 <= transportDistance i <= 10000)%Q.
Proof.
  unfold Dashboard.valid, quantity_invalid, distance_negative, distance_unrealistic.
  cbn [num_leb num_ltb Q_Number].
  change (dec 0 0) with 0%Q. change (dec 10000 0) with 10000%Q.
  rewrite negb_true_iff, !orb_false_iff, !negb_false_iff.
  rewrite <- !not_true_iff_false, !Qle_bool_iff.
  split.
  - intros [[Hq Hd] Hd']. repeat split; try assumption.
    apply Qnot_le_lt, Hq.
  - intros [Hq [Hd Hd']]. repeat split; try assumption.
    apply Qlt_not_le, Hq.
Qed.

Lemma handleSubmit_calls {num : Type} `{Number num} (st : FormState num) :
  existsb Dashboard.is_onRunLCA (skipn (length (calls st)) (calls (handleSubmit st)))
  = Dashboard.valid (form_inputs st).
Proof.
  unfold Dashboard.valid. rewrite <- validateInputs_result.
  unfold handleSubmit.
  destruct (validateInputs (form_inputs st)) as [e []]; cbn [snd calls];
    rewrite skipn_app, skipn_all, Nat.sub_diag; reflexivity.
Qed.

Lemma handleSubmit_errors_empty {num : Type} `{Number num} (st : FormState num) :
  errors (handleSubmit st) = ∅ <-> Dashboard.valid (form_inputs st) = true.
Proof.
  rewrite handleSubmit_errors. unfold Dashboard.valid.
  rewrite <- validateInputs_result. unfold validateInputs; cbn [fst snd].
  split.
  - intros ->. reflexivity.
  - intros E. apply bool_decide_eq_true in E. apply map_size_empty_iff, E.
Qed.

(** X13. In exact arithmetic a submission calls the run callback exactly
    when the quantity is greater than 0 and the distance lies between 0 and
    10000, both included; exactly then no error is stored. *)
Theorem submit_runs_iff_valid (st : FormState Q) :
  (existsb Dashboard.is_onRunLCA
     (skipn (length (calls st)) (calls (handleSubmit st))) = true
   <-> (0 < quantity (form_inputs st))%Q /\
       (0 <= transportDistance (form_inputs st) <= 10000)%Q) /\
  (errors (handleSubmit st) = ∅
   <-> (0 < quantity (form_inputs st))%Q /\
       (0 <= transportDistance (form_inputs st) <= 10000)%Q).
Proof.
  rewrite handleSubmit_calls, handleSubmit_errors_empty, Q_checks. tauto.
Qed.

(** X14. No value the sliders offer (quantity 100 to 10000, distance 0 to
    5000) fails the validation: with such inputs a submission always calls
    the run callback and stores no error. *)
Theorem slider_values_pass_validation (st : FormState Q) :
  (100 <= quantity (form_inputs st) <= 10000)%Q ->
  (0 <= transportDistance (form_inputs st) <= 5000)%Q ->
  existsb Dashboard.is_onRunLCA
    (skipn (length (calls st)) (calls (handleSubmit st))) = true /\
  errors (handleSubmit st) = ∅.
Proof.
  intros Hq Hd.
  destruct (submit_runs_iff_valid st) as [R E].
  split; [apply R | apply E]; lra.
Qed.

Lemma slider_values_pass_validation_witness :
  errors (handleSubmit
    {| form_inputs := defaultInputs (num:=Q); errors := ∅; calls := [] |}) = ∅.
Proof.
  apply slider_values_pass_validation; split; vm_compute; discriminate.
Defined.

(** X15. In binary64 a quantity and a distance that are NaN pass the three
    checks, every comparison with NaN being false: the submission calls the
    run callback and stores no error. *)
Theorem NaN_passes_validation (st : FormState float64) :
  quantity (form_inputs st) = S754_nan ->
  transportDistance (form_inputs st) = S754_nan ->
  existsb Dashboard.is_onRunLCA
    (skipn (length (calls st)) (calls (handleSubmit st))) = true /\
  errors (handleSubmit st) = ∅.
Proof.
  intros Hq Hd.
  assert (V : Dashboard.valid (form_inputs st) = true).
  { unfold Dashboard.valid, quantity_invalid, distance_negative, distance_unrealistic.
    rewrite Hq, Hd. reflexivity. }
  split.
  - rewrite handleSubmit_calls. exact V.
  - apply handleSubmit_errors_empty. exact V.
Qed.

Lemma NaN_passes_validation_witness :
  errors (handleSubmit
    {| form_inputs :=
         assign (assign defaultInputs (set_quantity S754_nan))
                (set_transportDistance S754_nan);
       errors := ∅; calls := [] |}) = ∅.
Proof. apply NaN_passes_validation; reflexivity. Defined.

(** ** The dashboard *)

Module DashboardFacts.
Import Dashboard.

Section Facts.
Context {num : Type} `{Number num}.

Lemma two_scenarios (l : list (LCAScenario num)) (a b : string) (ta tb : ScenarioType) :
  map name l = [a; b] -> map type l = [ta; tb] ->
  exists s0 s1, l = [s0; s1] /\ name s0 = a /\ name s1 = b /\
                type s0 = ta /\ type s1 = tb.
Proof.
  destruct l as [| s0 [| s1 [| s2 l]]]; cbn; intros En Et; try discriminate.
  inversion En; inversion Et; subst. eauto 10.
Qed.

Lemma validateInputs_keys (i : LCAInputs num) (k : string) :
  is_Some (fst (validateInputs i) !! k) ->
  k = "quantity" \/ k = "transportDistance".
Proof.
  unfold validateInputs; cbn [fst].
  destruct (quantity i <=? dec 0 0)%num, (transportDistance i <? dec 0 0)%num,
    (transportDistance i >? dec 10000 0)%num;
    rewrite ?lookup_insert, ?lookup_empty;
    repeat case_decide; subst; auto; intros [x Hx]; discriminate.
Qed.

Lemma count_calls_app (p : Call -> bool) (l1 l2 : list Call) :
  count_calls p (l1 ++ l2) = (count_calls p l1 + count_calls p l2)%nat.
Proof. unfold count_calls. rewrite List.filter_app, length_app. reflexivity. Qed.

Lemma step_invariant (st : State num) (ev : Event num) (st' : State num) :
  invariant st -> step st ev = Some st' -> invariant st'.
Proof.
  intros (Hn & Ht & Hs & Hr & Hv & Hc & Hk) S.
  destruct (two_scenarios _ _ _ _ _ Hn Ht) as (s0 & s1 & El & N0 & N1 & T0 & T1).
  destruct ev; cbn in S.
  - (* Edit *)
    inversion S; subst st'; clear S.
    unfold edit, handleInputChange. rewrite El.
    destruct (selectedScenario st) as [| [| j]] eqn:Ej; [| | exfalso; lia];
      unfold invariant; cbn;
      (split; [cbn; congruence |]); (split; [cbn; congruence |]);
      (split; [lia |]); (split; [exact Hr |]); (split; [exact Hv |]);
      (split; [exact Hc |]);
      intros k Hsome;
      (destruct (truthy (errors (form st) !! key_of u)) eqn:T;
       [ destruct (decide (key_of u = k)) as [<- | Hne];
         [ apply Hk; destruct (errors (form st) !! key_of u); [eauto | discriminate T]
         | rewrite lookup_insert_ne in Hsome by exact Hne; apply Hk, Hsome ]
       | apply Hk, Hsome ]).
  - (* SelectScenario *)
    case_bool_decide as Hi; [| discriminate S].
    inversion S; subst st'; clear S. unfold invariant; cbn.
    rewrite El in Hi. cbn in Hi.
    repeat split; auto; apply Hr.
  - (* ClickRun *)
    destruct (isRunningLCA st) eqn:Er; [discriminate S |].
    inversion S; subst st'; clear S.
    unfold clickRun. rewrite handleSubmit_calls.
    assert (Hcalls : existsb is_onRunLCA
              (skipn (length (calls (form st))) (calls (handleSubmit (form st))))
            = valid (form_inputs (form st))) by apply handleSubmit_calls.
    assert (Hk' : forall k, is_Some (errors (handleSubmit (form st)) !! k) ->
                            k = "quantity" \/ k = "transportDistance").
    { intros k. rewrite handleSubmit_errors. apply validateInputs_keys. }
    assert (Hcnt : count_calls is_onRunLCA (calls (handleSubmit (form st)))
                   = (count_calls is_onRunLCA (calls (form st))
                      + if valid (form_inputs (form st)) then 1 else 0)%nat).
    { unfold valid. rewrite <- validateInputs_result. unfold handleSubmit.
      destruct (validateInputs (form_inputs (form st))) as [e []]; cbn [snd calls];
        rewrite count_calls_app; reflexivity. }
    destruct (valid (form_inputs (form st))) eqn:V; unfold invariant, handleRunLCA;
      cbn [form scenarios selectedScenario isRunningLCA pending requests log].
    + repeat split; auto; try discriminate.
      * rewrite forallb_app, Hv. cbn. unfold currentInputs. rewrite V. reflexivity.
      * rewrite length_app, Hcnt, Hc. reflexivity.
    + repeat split; auto; try tauto.
      rewrite Hcnt, Hc. lia.
  - (* FetchResolved *)
    destruct (pending st) eqn:Ep; try discriminate S.
    inversion S; subst st'; clear S. unfold invariant; cbn.
    repeat split; auto; try discriminate.
    intros E. apply Hr in E. discriminate E.
  - (* FetchRejected *)
    destruct (pending st) eqn:Ep; try discriminate S.
    inversion S; subst st'; clear S. unfold invariant; cbn.
    repeat split; auto.
  - (* TimerFired *)
    destruct (pending st) eqn:Ep; try discriminate S.
    inversion S; subst st'; clear S. unfold invariant; cbn.
    repeat split; auto.
Qed.

Lemma reachable_invariant (st : State num) : reachable st -> invariant st.
Proof.
  induction 1 as [| st ev st' _ IH S].
  - unfold invariant; cbn. repeat split; auto.
    intros k [x Hx]. rewrite lookup_empty in Hx. discriminate Hx.
  - exact (step_invariant st ev st' IH S).
Qed.

(** X16. In every state the dashboard can reach there are the two scenarios
    it started with, under their names and types: [handleInputChange]
    finds an element at the selected index and never throws, and the
    circularity index shown is 25 for the first scenario and 75 for the
    second, whatever inputs the edits have given them. *)
Theorem scenarios_keep_identity (st : State num) :
  reachable st ->
  map name (scenarios st) = ["Conventional (Linear)"; "Circular Economy"] /\
  map type (scenarios st) = [conventional; circular] /\
  (forall i, snd (handleInputChange i st) = false) /\
  exists sc,
    shownScenario st = Some sc /\
    circularityIndex (calculateKPIs sc)
    = if Nat.eqb (selectedScenario st) 0 then dec 25 0 else dec 75 0.
Proof.
  intros R. destruct (reachable_invariant st R) as (Hn & Ht & Hs & _).
  destruct (two_scenarios _ _ _ _ _ Hn Ht) as (s0 & s1 & El & _ & _ & T0 & T1).
  split; [exact Hn |]. split; [exact Ht |].
  unfold handleInputChange, shownScenario. rewrite El.
  destruct (selectedScenario st) as [| [| j]]; [| | lia]; cbn.
  - split; [reflexivity |]. exists s0. split; [reflexivity |].
    destruct (constant_KPI_fields _ _ s0) as (_ & _ & ->). rewrite T0. reflexivity.
  - split; [reflexivity |]. exists s1. split; [reflexivity |].
    destruct (constant_KPI_fields _ _ s1) as (_ & _ & ->). rewrite T1. reflexivity.
Qed.

(** X17. An edit writes the form's inputs, with the edited field replaced,
    into the selected scenario: afterwards the selected scenario's inputs
    are [currentInputs], the other scenario is untouched, and the inputs
    the selected scenario had before play no part.  So after another
    scenario is selected, the first edit replaces all of its inputs by
    those of the form. *)
Theorem edit_copies_form_into_selected_scenario (st : State num) (u : FieldUpdate num) :
  reachable st ->
  let st' := edit u st in
  currentInputs st' = assign (currentInputs st) u /\
  inputs <$> shownScenario st' = Some (currentInputs st') /\
  selectedScenario st' = selectedScenario st /\
  (forall j, j <> selectedScenario st -> scenarios st' !! j = scenarios st !! j) /\
  (forall j st1,
      step st (SelectScenario j) = Some st1 ->
      currentInputs st1 = currentInputs st /\
      scenarios st1 = scenarios st /\
      selectedScenario (edit u st1) = j /\
      inputs <$> shownScenario (edit u st1) = Some (assign (currentInputs st) u)).
Proof.
  intros R.
  assert (Hedit : forall st0 : State num, invariant st0 ->
    currentInputs (edit u st0) = assign (currentInputs st0) u /\
    inputs <$> shownScenario (edit u st0) = Some (currentInputs (edit u st0)) /\
    selectedScenario (edit u st0) = selectedScenario st0 /\
    (forall j, j <> selectedScenario st0 ->
               scenarios (edit u st0) !! j = scenarios st0 !! j)).
  { intros st0 (Hn & Ht & Hs & _).
    destruct (two_scenarios _ _ _ _ _ Hn Ht) as (s0 & s1 & El & _).
    unfold edit, handleInputChange, shownScenario, currentInputs. rewrite El.
    destruct (selectedScenario st0) as [| [| j]]; [| | lia]; cbn;
      repeat split; try reflexivity;
      intros [| [| j]] Hj; try reflexivity; contradiction. }
  pose proof (reachable_invariant st R) as I.
  destruct (Hedit st I) as (E1 & E2 & E3 & E4).
  cbv zeta. split; [exact E1 |]. split; [exact E2 |]. split; [exact E3 |].
  split; [exact E4 |].
  intros j st1 S.
  pose proof (reachable_invariant st1 (reachable_step st _ st1 R S)) as I1.
  destruct (Hedit st1 I1) as (F1 & F2 & F3 & _).
  cbn in S. case_bool_decide; [| discriminate S].
  inversion S; subst st1; clear S.
  split; [reflexivity |]. split; [reflexivity |].
  split; [exact F3 |].
  rewrite F2, F1. reflexivity.
Qed.

(** X18. The run button is dead while a run is in progress, and a run in
    progress always ends.  While the fetch is awaited, its rejection ends
    the run at once, after a console message and without any timer; its
    fulfilment sets the 2000 ms timer, whose firing ends the run. *)
Theorem run_always_ends (st : State num) :
  reachable st ->
  isRunningLCA st = true ->
  step st ClickRun = None /\
  ((pending st = AwaitFetch /\
    (exists st',
        step st FetchRejected = Some st' /\ isRunningLCA st' = false /\
        pending st' = NotRunning /\
        log st' = (log st ++ [call_console_log "Using mock data for demo"])%list) /\
    (exists st1 st2,
        step st FetchResolved = Some st1 /\ isRunningLCA st1 = true /\
        log st1 = (log st ++ [call_setTimeout 2000])%list /\
        step st1 TimerFired = Some st2 /\ isRunningLCA st2 = false /\
        pending st2 = NotRunning /\ log st2 = log st1)) \/
   (pending st = AwaitDelay /\
    exists st',
      step st TimerFired = Some st' /\ isRunningLCA st' = false /\
      pending st' = NotRunning /\ log st' = log st)).
Proof.
  intros R Hrun. destruct (reachable_invariant st R) as (_ & _ & _ & Hr & _).
  split; [cbn; rewrite Hrun; reflexivity |].
  destruct (pending st) eqn:Ep.
  - assert (isRunningLCA st = false) as E by (apply Hr; reflexivity).
    rewrite E in Hrun. discriminate Hrun.
  - left. split; [reflexivity |]. split.
    + eexists. cbn. rewrite Ep. repeat split; reflexivity.
    + do 2 eexists. cbn. rewrite Ep. cbn.
      repeat split; try reflexivity; try exact Hrun.
      cbn. rewrite app_nil_r. reflexivity.
  - right. split; [reflexivity |].
    eexists. cbn. rewrite Ep. repeat split; try reflexivity.
    cbn. rewrite app_nil_r. reflexivity.
Qed.

(** X20. Only the quantity and the distance field ever have an entry in
    [errors]: next to every other field no message can appear. *)
Theorem errors_only_on_validated_fields (st : State num) (k : string) :
  reachable st ->
  k <> "quantity" -> k <> "transportDistance" ->
  errors (form st) !! k = None /\ inlineMessage (errors (form st)) k = None.
Proof.
  intros R Hq Hd.
  destruct (reachable_invariant st R) as (_ & _ & _ & _ & _ & _ & Hk).
  assert (E : errors (form st) !! k = None).
  { destruct (errors (form st) !! k) eqn:L; [| reflexivity].
    destruct (Hk k) as [-> | ->]; [eauto | contradiction | contradiction]. }
  split; [exact E |]. unfold inlineMessage. rewrite E. reflexivity.
Qed.
End Facts.

Lemma run_stays_reachable {num : Type} `{Number num} (evs : list (Event num)) :
  forall st st' : State num,
    reachable st -> run st evs = Some st' -> reachable st'.
Proof.
  induction evs as [| ev evs IH]; intros st st' R E; cbn in E.
  - injection E as <-. exact R.
  - destruct (step st ev) as [st1 |] eqn:S1; [| discriminate E].
    exact (IH st1 st' (reachable_step st ev st1 R S1) E).
Qed.

(** The second scenario is selected and its material source, end of life
    and quantity are edited: it is still "Circular Economy", now with
    primary material, landfill and 100 kg, and its circularity index is
    still 75. *)
Lemma scenarios_keep_identity_witness :
  exists st : State float64,
    run initial [SelectScenario 1; Edit (set_materialSource primary);
                 Edit (set_endOfLife landfill); Edit (set_quantity (dec 100 0))]
    = Some st /\
    selectedScenario st = 1%nat /\
    exists sc : LCAScenario float64,
      shownScenario st = Some sc /\
      name sc = "Circular Economy" /\
      materialSource (inputs sc) = primary /\
      endOfLife (inputs sc) = landfill /\
      quantity (inputs sc) = dec 100 0 /\
      circularityIndex (calculateKPIs sc) = dec 75 0.
Proof.
  eexists. split; [vm_compute; reflexivity |]. split; [reflexivity |].
  match goal with
  | |- exists sc, shownScenario ?st = _ /\ _ =>
      assert (R : reachable st) by
        (apply (run_stays_reachable
                  [SelectScenario 1; Edit (set_materialSource primary);
                   Edit (set_endOfLife landfill); Edit (set_quantity (dec 100 0))]
                  initial _ reachable_initial); vm_compute; reflexivity);
      destruct (scenarios_keep_identity st R) as (_ & _ & _ & sc & Es & Ec)
  end.
  exists sc. split; [exact Es |].
  vm_compute in Es. injection Es as <-.
  split; [reflexivity |]. split; [reflexivity |]. split; [reflexivity |].
  split; [reflexivity | exact Ec].
Defined.

Lemma edit_copies_form_into_selected_scenario_witness :
  reachable (initial (num:=Q)) /\
  materialSource <$> (inputs <$> shownScenario
     (edit (set_quantity 2000%Q)
        {| form := form initial; scenarios := scenarios initial;
           selectedScenario := 1;
           isRunningLCA := isRunningLCA initial; pending := pending initial;
           requests := requests initial; log := log initial |}))
  = Some primary.
Proof.
  split; [exact reachable_initial |].
  destruct (edit_copies_form_into_selected_scenario initial (set_quantity 2000%Q)
              reachable_initial) as (_ & _ & _ & _ & Hsel).
  destruct (Hsel 1%nat _ eq_refl) as (_ & _ & _ & E).
  exact (f_equal (fmap materialSource) E).
Defined.

Lemma run_always_ends_witness :
  let st := clickRun (initial (num:=Q)) in
  reachable st /\ isRunningLCA st = true /\ step st ClickRun = None.
Proof.
  intros st.
  assert (R : reachable st)
    by (exact (reachable_step initial ClickRun st reachable_initial eq_refl)).
  assert (G : isRunningLCA st = true) by reflexivity.
  split; [exact R |]. split; [exact G |].
  exact (proj1 (run_always_ends st R G)).
Defined.

(** The second scenario is selected, the quantity is set to 0 and the run
    button is clicked: nothing is posted, the quantity field has its
    message, and the metal and the energy source field have none. *)
Lemma errors_only_on_validated_fields_witness :
  exists st : State float64,
    run initial [SelectScenario 1; Edit (set_quantity (dec 0 0)); ClickRun]
    = Some st /\
    errors (form st) !! "quantity" = Some "Quantity must be greater than 0" /\
    requests st = [] /\
    errors (form st) !! "metal" = None /\
    inlineMessage (errors (form st)) "energySource" = None.
Proof.
  eexists. split; [vm_compute; reflexivity |].
  split; [vm_compute; reflexivity |]. split; [reflexivity |].
  match goal with
  | |- errors (form ?st) !! _ = _ /\ _ =>
      assert (R : reachable st) by
        (apply (run_stays_reachable
                  [SelectScenario 1; Edit (set_quantity (dec 0 0)); ClickRun]
                  initial _ reachable_initial); vm_compute; reflexivity);
      pose proof (errors_only_on_validated_fields st "metal" R) as Hm;
      pose proof (errors_only_on_validated_fields st "energySource" R) as He
  end.
  split.
  - apply Hm; discriminate.
  - apply He; discriminate.
Defined.

(** X19. Every body posted to /api/run_lca passed the three checks of the
    validation when it was posted, and one body is posted for each call of
    the run callback; in exact arithmetic every posted body has a quantity
    greater than 0 and a distance between 0 and 10000. *)
Theorem only_valid_inputs_are_posted :
  (forall (num : Type) (N : Number num) (st : State num),
      reachable st ->
      forallb valid (requests st) = true /\
      length (requests st) = count_calls is_onRunLCA (calls (form st))) /\
  (forall st : State Q,
      reachable st ->
      Forall (fun i => (0 < quantity i)%Q /\ (0 <= transportDistance i <= 10000)%Q)
             (requests st)).
Proof.
  split.
  - intros num N st R.
    destruct (reachable_invariant st R) as (_ & _ & _ & _ & Hv & Hc & _). auto.
  - intros st R.
    destruct (reachable_invariant st R) as (_ & _ & _ & _ & Hv & _).
    apply Forall_forall. intros i Hi. apply Q_checks.
    rewrite forallb_forall in Hv. apply Hv, list_elem_of_In, Hi.
Qed.

Lemma only_valid_inputs_are_posted_witness :
  let st := clickRun (initial (num:=Q)) in
  reachable st /\ requests st = [defaultInputs] /\
  Forall (fun i => (0 < quantity i)%Q /\ (0 <= transportDistance i <= 10000)%Q)
         (requests st).
Proof.
  intros st.
  assert (R : reachable st)
    by (exact (reachable_step initial ClickRun st reachable_initial eq_refl)).
  split; [exact R |]. split; [reflexivity |].
  exact (proj2 only_valid_inputs_are_posted st R).
Defined.
End DashboardFacts.

(** ** The report panel's calls *)

Module ReportTrace.
Import ReportGenerator.

Lemma step_counts (st : State) (ev : Event) (st' : State) :
  consistent st ->
  count_calls is_fetch (calls st)
    = (count_calls is_toast (calls st) + if isGenerating st then 1 else 0)%nat ->
  count_calls is_setTimeout (calls st)
    = (count_calls is_toast (calls st)
       + match pending st with AwaitDelayTry | AwaitDelayCatch => 1 | _ => 0 end)%nat ->
  (count_calls is_console_log (calls st)
   + match pending st with AwaitFetch => 1 | _ => 0 end
   <= count_calls is_fetch (calls st))%nat ->
  step st ev = Some st' ->
  count_calls is_fetch (calls st')
    = (count_calls is_toast (calls st') + if isGenerating st' then 1 else 0)%nat /\
  count_calls is_setTimeout (calls st')
    = (count_calls is_toast (calls st')
       + match pending st' with AwaitDelayTry | AwaitDelayCatch => 1 | _ => 0 end)%nat /\
  (count_calls is_console_log (calls st')
   + match pending st' with AwaitFetch => 1 | _ => 0 end
   <= count_calls is_fetch (calls st'))%nat.
Proof.
  unfold consistent, count_calls. intros C F T L S.
  destruct st as [g r p c]; cbn in *.
  destruct ev, p, g, r; cbn in S; inversion S; subst; cbn;
    rewrite ?List.filter_app, ?length_app; cbn;
    try (destruct C; discriminate); try discriminate C;
    repeat split; lia.
Qed.

(** X21. In every state the report panel can reach, the calls made so far
    contain one fetch per notification sent, plus one while a report is
    being generated; one timer per notification, plus one while the timer
    is awaited; and no more console messages than settled fetches.  So a
    second request is never sent while one is in flight, and every
    finished generation made exactly one request, set one timer and sent
    one notification. *)
Theorem one_request_per_report (st : State) :
  reachable st ->
  count_calls is_fetch (calls st)
    = (count_calls is_toast (calls st) + if isGenerating st then 1 else 0)%nat /\
  count_calls is_setTimeout (calls st)
    = (count_calls is_toast (calls st)
       + match pending st with AwaitDelayTry | AwaitDelayCatch => 1 | _ => 0 end)%nat /\
  (count_calls is_console_log (calls st)
   + match pending st with AwaitFetch => 1 | _ => 0 end
   <= count_calls is_fetch (calls st))%nat.
Proof.
  induction 1 as [| st ev st' R IH S].
  - cbn. repeat split; lia.
  - destruct IH as (F & T & L).
    exact (step_counts st ev st' (ReportFacts.reachable_consistent st R) F T L S).
Qed.

Lemma run_reachable (evs : list Event) (st st' : State) :
  reachable st -> run st evs = Some st' -> reachable st'.
Proof.
  revert st. induction evs as [| ev evs IH]; intros st R E; cbn in E.
  - inversion E; subst. exact R.
  - destruct (step st ev) as [st1 |] eqn:S; [| discriminate E].
    exact (IH st1 (reachable_step st ev st1 R S) E).
Qed.

Lemma one_request_per_report_witness :
  exists st,
    run initial [ClickGenerate; FetchRejected; TimerFired; ClickGenerateNew;
                 ClickGenerate] = Some st /\
    reachable st /\
    count_calls is_fetch (calls st) = 2%nat /\
    count_calls is_toast (calls st) = 1%nat.
Proof.
  eexists. split; [reflexivity |].
  match goal with |- reachable ?s /\ _ =>
    assert (R : reachable s)
  end.
  { apply (run_reachable
             [ClickGenerate; FetchRejected; TimerFired; ClickGenerateNew;
              ClickGenerate] initial); [apply reachable_initial | reflexivity]. }
  split; [exact R |].
  destruct (one_request_per_report _ R) as (F & _).
  split; [rewrite F |]; reflexivity.
Defined.
End ReportTrace.
